(** * maintainer-d: a shallow embedding of the import, sync, webhook and
      workspace-operator code, with the properties its specification states.

    Layout: the Go runtime pieces the code leans on ([Strings], [Go],
    [Errors], [Fmt]); programs as trees of calls to the outside ([Prog]);
    the database rows of model/main.go ([Model]) and the GORM operations
    used on them ([Schema], [Gorm]); the store and the FOSSA import
    ([Db]); the CR sync job ([SyncNames], [Apis], [Sync]); the webhook
    server ([Onboarding]); the workspace operator ([Kcp], [Controller]).
    Theorems come last.  Log output is not modelled. *)

From Stdlib Require Import ZArith Lia Bool Ascii String List DecimalString.
From stdpp Require Import gmap strings list.

Open Scope string_scope.

(* ===================================================================== *)
(** ** Go [strings] on byte strings                                       *)
(* ===================================================================== *)

(** A Go string is a byte sequence; [string] is one too.  The functions
    below are the byte-wise (ASCII) paths of the Go library: on input
    without bytes above 127 they are the library functions themselves. *)
Module Strings.

Definition byte_between (lo hi : nat) (c : ascii) : bool :=
  (lo <=? nat_of_ascii c)%nat && (nat_of_ascii c <=? hi)%nat.

Definition is_upper (c : ascii) : bool := byte_between 65 90 c.
Definition is_lower (c : ascii) : bool := byte_between 97 122 c.
Definition is_digit (c : ascii) : bool := byte_between 48 57 c.
Definition is_ascii_byte (c : ascii) : bool := (nat_of_ascii c <? 128)%nat.

(** '\t', '\n', '\v', '\f', '\r' and ' ' *)
Definition is_space (c : ascii) : bool :=
  byte_between 9 13 c || (nat_of_ascii c =? 32)%nat.

Fixpoint all_chars (p : ascii -> bool) (s : string) : bool :=
  match s with
  | EmptyString => true
  | String c r => p c && all_chars p r
  end.

Definition is_ascii (s : string) : bool := all_chars is_ascii_byte s.

Definition lower_byte (c : ascii) : ascii :=
  if is_upper c then ascii_of_nat (nat_of_ascii c + 32) else c.

(** strings.ToLower on a string without bytes above 127: the 26 letters
    are folded byte by byte.  Go's function also folds the letters outside
    ASCII; where the code applies it to arbitrary text it is an argument
    of the definitions below, not this function. *)
Fixpoint ToLower (s : string) : string :=
  match s with
  | EmptyString => EmptyString
  | String c r => String (lower_byte c) (ToLower r)
  end.

(** The second byte of the UTF-8 form C3 xx of a capital letter of
    U+00C0..U+00DE; U+00D7, the multiplication sign, is none. *)
Definition is_latin1_upper_tail (c : ascii) : bool :=
  byte_between 128 158 c && negb (nat_of_ascii c =? 151)%nat.

(** strings.ToLower on UTF-8 text whose code points are below U+0100:
    next to the ASCII letters, the capital letters U+00C0..U+00DE move up
    by 32, as unicode.ToLower maps them. *)
Fixpoint ToLower_latin1 (s : string) : string :=
  match s with
  | EmptyString => EmptyString
  | String c r =>
      match r with
      | String c2 r2 =>
          if (nat_of_ascii c =? 195)%nat && is_latin1_upper_tail c2
          then String c (String (ascii_of_nat (nat_of_ascii c2 + 32)) (ToLower_latin1 r2))
          else String (lower_byte c) (ToLower_latin1 r)
      | EmptyString => String (lower_byte c) EmptyString
      end
  end.

Fixpoint contains_byte (cutset : string) (c : ascii) : bool :=
  match cutset with
  | EmptyString => false
  | String d r => Ascii.eqb c d || contains_byte r c
  end.

Fixpoint TrimLeftFunc (f : ascii -> bool) (s : string) : string :=
  match s with
  | EmptyString => EmptyString
  | String c r => if f c then TrimLeftFunc f r else s
  end.

Fixpoint TrimRightFunc (f : ascii -> bool) (s : string) : string :=
  match s with
  | EmptyString => EmptyString
  | String c r =>
      match TrimRightFunc f r with
      | EmptyString => if f c then EmptyString else String c EmptyString
      | r' => String c r'
      end
  end.

(** strings.Trim(s, cutset) *)
Definition Trim (s cutset : string) : string :=
  TrimRightFunc (contains_byte cutset) (TrimLeftFunc (contains_byte cutset) s).

(** strings.TrimSpace *)
Definition TrimSpace (s : string) : string :=
  TrimRightFunc is_space (TrimLeftFunc is_space s).

Definition upper_byte (c : ascii) : ascii :=
  if is_lower c then ascii_of_nat (nat_of_ascii c - 32) else c.

(** strings.ToUpper *)
Fixpoint ToUpper (s : string) : string :=
  match s with
  | EmptyString => EmptyString
  | String c r => String (upper_byte c) (ToUpper r)
  end.

(** strings.Split(s, sep) for a one-byte separator *)
Fixpoint Split (s : string) (sep : ascii) : list string :=
  match s with
  | EmptyString => [EmptyString]
  | String c r =>
      if Ascii.eqb c sep then EmptyString :: Split r sep
      else match Split r sep with
           | h :: t => String c h :: t
           | [] => [String c EmptyString]
           end
  end.

(** strings.Join *)
Fixpoint Join (elems : list string) (sep : string) : string :=
  match elems with
  | [] => ""
  | [e] => e
  | e :: rest => e ++ sep ++ Join rest sep
  end.

Definition first_char (s : string) : option ascii :=
  match s with
  | EmptyString => None
  | String c _ => Some c
  end.

Fixpoint last_char (s : string) : option ascii :=
  match s with
  | EmptyString => None
  | String c EmptyString => Some c
  | String _ r => last_char r
  end.

(** s[:n] for n within the length of s *)
Definition slice_to (n : nat) (s : string) : string := String.substring 0 n s.

End Strings.

(* ===================================================================== *)
(** ** The CR sync job: object names                                      *)
(* ===================================================================== *)

Module SyncNames.

(** the character class of [dns1123InvalidChars], negated: a-z0-9-. *)
Definition dns1123_char (c : ascii) : bool :=
  Strings.is_lower c || Strings.is_digit c ||
  Ascii.eqb c "-" || Ascii.eqb c ".".

(** [dns1123InvalidChars.ReplaceAllString(s, "-")]: every maximal run of
    bytes outside the class becomes one "-".  [in_run] says that the byte
    before the current one was part of such a run.  A byte above 127 is
    never in the class, so runs of bytes and runs of runes coincide. *)
Fixpoint replace_invalid_runs (in_run : bool) (s : string) : string :=
  match s with
  | EmptyString => EmptyString
  | String c r =>
      if dns1123_char c then String c (replace_invalid_runs false r)
      else if in_run then replace_invalid_runs true r
      else String "-" (replace_invalid_runs true r)
  end.

Definition dns1123InvalidChars_ReplaceAllString (s : string) : string :=
  replace_invalid_runs false s.

Section SanitizeName.
(** Go's [strings.ToLower] and [strings.TrimSpace] work on runes; what
    [sanitizeName] guarantees does not depend on what they return, so
    both are arguments here.  [Strings.ToLower] and [Strings.TrimSpace]
    are their instances on ASCII input. *)
Variables (ToLower TrimSpace : string -> string).

(** what is left of [s] before the length check *)
Definition stripped (s : string) : string :=
  Strings.Trim (dns1123InvalidChars_ReplaceAllString (TrimSpace (ToLower s))) "-.".

Definition sanitizeName (s : string) : string :=
  if String.eqb s "" then "unnamed"
  else
    let s := ToLower s in
    let s := TrimSpace s in
    let s := dns1123InvalidChars_ReplaceAllString s in
    let s := Strings.Trim s "-." in
    if String.eqb s "" then "unnamed"
    else
      let s := if (63 <? String.length s)%nat
               then Strings.Trim (Strings.slice_to 63 s) "-."
               else s in
      if String.eqb s "" then "unnamed" else s.
End SanitizeName.

(** [sanitizeName] on names without bytes above 127, where
    [Strings.ToLower] and [Strings.TrimSpace] are the Go functions *)
Definition sanitizeName_ascii : string -> string :=
  sanitizeName Strings.ToLower Strings.TrimSpace.

(** What a Kubernetes object name produced by the sync job satisfies. *)
Definition dns_label (r : string) : Prop :=
  r <> "" /\
  (String.length r <= 63)%nat /\
  Strings.ToLower r = r /\
  Strings.all_chars dns1123_char r = true /\
  (forall c, Strings.first_char r = Some c -> c <> "-"%char /\ c <> "."%char) /\
  (forall c, Strings.last_char r = Some c -> c <> "-"%char /\ c <> "."%char).

End SyncNames.

(* ===================================================================== *)
(** ** Go values                                                          *)
(* ===================================================================== *)

Module Go.

(** append(slice, x) *)
Definition append {A} (l : list A) (x : A) : list A := (l ++ [x])%list.

(** What a call ends in: a return, or a nil-pointer panic. *)
Inductive outcome (A : Type) : Type :=
| Returned (a : A)
| Panicked.
Arguments Returned {A} a.
Arguments Panicked {A}.

End Go.

(* ===================================================================== *)
(** ** Go errors and [fmt]                                                *)
(* ===================================================================== *)

Module Errors.

(** The sentinel errors the code compares against, errors made with
    [errors.New] or [fmt.Errorf] without %w ([errorString]), and errors
    wrapping another one with %w ([wrapError], whose text is the whole
    formatted message). *)
Inductive error : Type :=
| ErrRecordNotFound          (* gorm.ErrRecordNotFound *)
| ErrProjectNotFound         (* db.ErrProjectNotFound *)
| ErrInviteAlreadyExists     (* fossa.ErrInviteAlreadyExists *)
| ErrUserAlreadyMember       (* fossa.ErrUserAlreadyMember *)
| statusNotFound (msg : string)   (* an API status error with reason NotFound *)
| errorString (msg : string)
| wrapError (msg : string) (inner : error).

#[export] Instance error_eq_dec : EqDecision error.
Proof. solve_decision. Defined.

(** err.Error() *)
Definition Error (e : error) : string :=
  match e with
  | ErrRecordNotFound => "record not found"
  | ErrProjectNotFound => "project not found"
  | ErrInviteAlreadyExists => "fossa: invitation already exists"
  | ErrUserAlreadyMember => "fossa: user is already a member"
  | statusNotFound msg => msg
  | errorString msg => msg
  | wrapError msg _ => msg
  end.

(** errors.Is(err, target) for a sentinel [target] *)
Fixpoint Is (e target : error) : bool :=
  bool_decide (e = target) ||
  match e with
  | wrapError _ inner => Is inner target
  | _ => false
  end.

(** apierrors.IsNotFound(err) *)
Fixpoint IsNotFound (e : error) : bool :=
  match e with
  | statusNotFound _ => true
  | wrapError _ inner => IsNotFound inner
  | _ => false
  end.

(** fmt.Errorf(prefix + ": %w", err) *)
Definition wrapf (prefix : string) (err : error) : error :=
  wrapError (prefix ++ ": " ++ Error err) err.

End Errors.

Import (hints) Errors.

Module Fmt.

(** %d *)
Definition itoa (z : Z) : string := DecimalString.NilZero.string_of_int (Z.to_int z).
Definition utoa (n : N) : string := itoa (Z.of_N n).

End Fmt.

(* ===================================================================== *)
(** ** Programs that call out: store, FOSSA, GitHub, Kubernetes, kcp      *)
(* ===================================================================== *)

(** A handler, a reconciler and a sync loop are finite trees of calls to
    the outside; [Vis e k] performs the call [e] and continues with [k] on
    its answer.  The answers are not chosen by the program: a property
    proved for every handler [h] holds for every behaviour of the API
    servers. *)
Module Prog.

Inductive prog (E : Type -> Type) (R : Type) : Type :=
| Ret (r : R)
| Vis {X : Type} (e : E X) (k : X -> prog E R).
Arguments Ret {E R} r.
Arguments Vis {E R X} e k.

Fixpoint bind {E R S} (p : prog E R) (f : R -> prog E S) : prog E S :=
  match p with
  | Ret r => f r
  | Vis e k => Vis e (fun x => bind (k x) f)
  end.

Definition call {E X} (e : E X) : prog E X := Vis e Ret.

(** One performed call with its answer. *)
Inductive event (E : Type -> Type) : Type :=
| Event {X : Type} (e : E X) (x : X).
Arguments Event {E X} e x.

(** A handler answers calls and keeps a state of its own. *)
Definition handler (E : Type -> Type) (S : Type) : Type :=
  forall X, E X -> S -> X * S.

(** [run h p s]: the result of [p], the handler's final state, and the
    calls made, in order. *)
Fixpoint run {E R S} (h : handler E S) (p : prog E R) (s : S)
  : R * S * list (event E) :=
  match p with
  | Ret r => (r, s, [])
  | Vis e k =>
      let '(x, s1) := h _ e s in
      let '(r, s2, tr) := run h (k x) s1 in
      (r, s2, Event e x :: tr)
  end.

Definition result_of {E R S} (o : R * S * list (event E)) : R := o.1.1.
Definition state_of {E R S} (o : R * S * list (event E)) : S := o.1.2.
Definition trace_of {E R S} (o : R * S * list (event E)) : list (event E) := o.2.

(** Every call a program can make satisfies [P]. *)
Inductive only_calls {E R} (P : forall X, E X -> Prop) : prog E R -> Prop :=
| only_Ret r : only_calls P (Ret r)
| only_Vis X (e : E X) k :
    P X e -> (forall x, only_calls P (k x)) -> only_calls P (Vis e k).

Definition event_sat {E} (P : forall X, E X -> Prop) (ev : event E) : Prop :=
  match ev with Event e _ => P _ e end.


(** Every result the program can return satisfies [Q], whatever the
    calls answer. *)
Fixpoint ensures {E R} (Q : R -> Prop) (p : prog E R) : Prop :=
  match p with
  | Ret r => Q r
  | Vis e k => forall x, ensures Q (k x)
  end.


(** Every run of the program, whatever the calls answer, ends with a
    result and a trace that satisfy [P]. *)
Fixpoint all_runs {E R} (P : R -> list (event E) -> Prop) (p : prog E R) : Prop :=
  match p with
  | Ret r => P r []
  | Vis e k => forall x, all_runs (fun r tr => P r (Event e x :: tr)) (k x)
  end.

End Prog.

#[export] Instance prog_ret {E} : MRet (Prog.prog E) := fun _ r => Prog.Ret r.
#[export] Instance prog_bind {E} : MBind (Prog.prog E) := fun _ _ f p => Prog.bind p f.

(* ===================================================================== *)
(** ** model/main.go: the rows                                            *)
(* ===================================================================== *)

(** [uint] is [N], [int] is [Z], a pointer field is an [option], a
    [time.Time] is a clock reading in [Z]. *)
Module Model.

(** gorm.Model.  CreatedAt and UpdatedAt are clock readings that none of
    the code below reads; they are left out. *)
Record GormModel : Type := mkGormModel { ID : N; DeletedAt : option Z }.

Definition zeroModel : GormModel := {| ID := 0; DeletedAt := None |}.

#[export] Instance GormModel_eq_dec : EqDecision GormModel.
Proof. solve_decision. Defined.

Module Company.
Record t : Type := mk { Model : GormModel; Name : string (* gorm:"uniqueIndex" *) }.
Definition zero : t := {| Model := zeroModel; Name := "" |}.
Definition Name_tag : string := "uniqueIndex".
End Company.

(** [Projects] is never preloaded by the code below and is left out. *)
Module Maintainer.
Record t : Type := mk {
  Model : GormModel;
  Name : string;
  Email : string;
  GitHubAccount : string;
  GitHubEmail : string;
  MaintainerStatus : string;
  ImportWarnings : string;
  RegisteredAt : option Z;
  CompanyID : option N;
  Company : Company.t
}.
End Maintainer.

Module Collaborator.
Record t : Type := mk {
  Model : GormModel;
  Name : string;
  Email : string;
  GitHubEmail : option string;
  GitHubAccount : option string;
  LastLogin : Z;
  RegisteredAt : Z
}.
End Collaborator.

(** [Services] is never preloaded by the code below and is left out. *)
Module Project.
Record t : Type := mk {
  Model : GormModel;
  Name : string;                 (* gorm:"uniqueIndex,not null;check:name <> ''" *)
  ParentProjectID : option N;
  Maturity : string;
  MaintainerRef : string;
  OnboardingIssue : option string;
  MailingList : option string;
  Maintainers : list Maintainer.t
}.
Definition zero : t :=
  {| Model := zeroModel; Name := ""; ParentProjectID := None; Maturity := "";
     MaintainerRef := ""; OnboardingIssue := None; MailingList := None;
     Maintainers := [] |}.
Definition Name_tag : string := "uniqueIndex,not null;check:name <> ''".
End Project.

Module MaintainerProject.
Record t : Type := mk { MaintainerID : N; ProjectID : N }.
End MaintainerProject.

Module Service.
Record t : Type := mk { Model : GormModel; Name : string; Description : string }.
End Service.

Module ServiceTeam.
Record t : Type := mk {
  Model : GormModel;
  ProjectID : N;
  ServiceID : N;
  ServiceTeamID : Z;
  ServiceTeamName : option string;
  ProjectName : option string
}.
End ServiceTeam.

Module ServiceUser.
Record t : Type := mk {
  Model : GormModel;
  ServiceID : N;
  ServiceUserID : Z;
  ServiceEmail : string;
  ServiceRef : string;
  ServiceGitHubName : option string
}.
End ServiceUser.

(** The [ServiceTeam] association field stays at its zero value in every
    use below, so GORM neither loads nor saves it; it is left out. *)
Module ServiceUserTeams.
Record t : Type := mk {
  Model : GormModel;
  ServiceID : N;
  ServiceUserID : Z;
  ServiceTeamID : N;
  MaintainerID : option N;
  CollaboratorID : option N
}.
Definition set_Model (m : GormModel) (r : t) : t :=
  mk m (ServiceID r) (ServiceUserID r) (ServiceTeamID r) (MaintainerID r) (CollaboratorID r).
Definition set_MaintainerID (v : option N) (r : t) : t :=
  mk (Model r) (ServiceID r) (ServiceUserID r) (ServiceTeamID r) v (CollaboratorID r).
Definition set_CollaboratorID (v : option N) (r : t) : t :=
  mk (Model r) (ServiceID r) (ServiceUserID r) (ServiceTeamID r) (MaintainerID r) v.
#[export] Instance eq_dec : EqDecision t.
Proof. solve_decision. Defined.
End ServiceUserTeams.

Definition set_Project_Model (m : GormModel) (p : Project.t) : Project.t :=
  Project.mk m (Project.Name p) (Project.ParentProjectID p) (Project.Maturity p)
    (Project.MaintainerRef p) (Project.OnboardingIssue p) (Project.MailingList p)
    (Project.Maintainers p).
Definition set_Project_Maintainers (ms : list Maintainer.t) (p : Project.t) : Project.t :=
  Project.mk (Project.Model p) (Project.Name p) (Project.ParentProjectID p)
    (Project.Maturity p) (Project.MaintainerRef p) (Project.OnboardingIssue p)
    (Project.MailingList p) ms.
Definition set_Company_Model (m : GormModel) (c : Company.t) : Company.t :=
  Company.mk m (Company.Name c).
Definition set_Maintainer_Company (c : Company.t) (m : Maintainer.t) : Maintainer.t :=
  Maintainer.mk (Maintainer.Model m) (Maintainer.Name m) (Maintainer.Email m)
    (Maintainer.GitHubAccount m) (Maintainer.GitHubEmail m)
    (Maintainer.MaintainerStatus m) (Maintainer.ImportWarnings m)
    (Maintainer.RegisteredAt m) (Maintainer.CompanyID m) c.
Definition set_Maintainer_Model (g : GormModel) (m : Maintainer.t) : Maintainer.t :=
  Maintainer.mk g (Maintainer.Name m) (Maintainer.Email m)
    (Maintainer.GitHubAccount m) (Maintainer.GitHubEmail m)
    (Maintainer.MaintainerStatus m) (Maintainer.ImportWarnings m)
    (Maintainer.RegisteredAt m) (Maintainer.CompanyID m) (Maintainer.Company m).
Definition set_Service_Model (g : GormModel) (s : Service.t) : Service.t :=
  Service.mk g (Service.Name s) (Service.Description s).
Definition set_ServiceTeam_Model (m : GormModel) (r : ServiceTeam.t) : ServiceTeam.t :=
  ServiceTeam.mk m (ServiceTeam.ProjectID r) (ServiceTeam.ServiceID r)
    (ServiceTeam.ServiceTeamID r) (ServiceTeam.ServiceTeamName r) (ServiceTeam.ProjectName r).

(** A struct that embeds gorm.Model. *)
Class Row (A : Type) : Type := {
  row_model : A -> GormModel;
  row_set_model : GormModel -> A -> A
}.

#[export] Instance Company_row : Row Company.t :=
  {| row_model := Company.Model; row_set_model := set_Company_Model |}.
#[export] Instance Project_row : Row Project.t :=
  {| row_model := Project.Model; row_set_model := set_Project_Model |}.
#[export] Instance Maintainer_row : Row Maintainer.t :=
  {| row_model := Maintainer.Model; row_set_model := set_Maintainer_Model |}.
#[export] Instance Service_row : Row Service.t :=
  {| row_model := Service.Model; row_set_model := set_Service_Model |}.
#[export] Instance ServiceTeam_row : Row ServiceTeam.t :=
  {| row_model := ServiceTeam.Model; row_set_model := set_ServiceTeam_Model |}.
#[export] Instance ServiceUserTeams_row : Row ServiceUserTeams.t :=
  {| row_model := ServiceUserTeams.Model; row_set_model := ServiceUserTeams.set_Model |}.

Definition row_ID {A} `{Row A} (r : A) : N := ID (row_model r).

End Model.

Import (hints) Model.

(* ===================================================================== *)
(** ** GORM on SQLite: what the calls in this repository do                *)
(* ===================================================================== *)

Module Sqlite.
(** SQLite's built-in lower() folds the 26 ASCII letters only. *)
Definition LOWER (s : string) : string := Strings.ToLower s.
End Sqlite.

(** How GORM reads the struct tags of [model/main.go] when AutoMigrate
    builds the schema. *)
Module Schema.

(** schema.ParseTagSetting(tag, ";"): the tag is cut at every ';' into
    settings; a setting is cut at ':' into its name, upper-cased and
    trimmed, and its value.  A ',' does not separate settings. *)
Definition setting_name (setting : string) : string :=
  Strings.TrimSpace (Strings.ToUpper (hd "" (Strings.Split setting ":"))).

Definition setting_value (setting : string) : string :=
  match Strings.Split setting ":" with
  | _ :: ((_ :: _) as vs) => Strings.Join vs ":"
  | _ => setting_name setting
  end.

Definition ParseTagSetting (tag : string) (sep : ascii) : list (string * string) :=
  map (fun v => (setting_name v, setting_value v))
      (List.filter (fun v => (1 <? length (Strings.Split v ":"))%nat ||
                             negb (String.eqb (setting_name v) ""))
                   (Strings.Split tag sep)).

Definition TagSettings (tag : string) (name : string) : string :=
  match List.find (fun kv => String.eqb (fst kv) name) (ParseTagSetting tag ";") with
  | Some kv => snd kv
  | None => ""
  end.

(** The options of an index setting: what follows the first ',' of its
    value, as in [index:idx_name,unique]. *)
Definition index_options (setting : string) : list (string * string) :=
  ParseTagSetting
    (Strings.Join (tl (Strings.Split (Strings.Join (tl (Strings.Split setting ":")) ":") ",")) ",")
    ",".

(** schema.ParseIndexes with parseFieldIndexes: a field is looked at when
    TagSettings has INDEX or UNIQUEINDEX, and a setting of it makes a
    unique index when its name is UNIQUEINDEX, or INDEX with the option
    UNIQUE. *)
Definition has_unique_index (tag : string) : bool :=
  (negb (String.eqb (TagSettings tag "INDEX") "") ||
   negb (String.eqb (TagSettings tag "UNIQUEINDEX") "")) &&
  existsb (fun v =>
             String.eqb (setting_name v) "UNIQUEINDEX" ||
             (String.eqb (setting_name v) "INDEX" &&
              existsb (fun kv => String.eqb (fst kv) "UNIQUE") (index_options v)))
          (Strings.Split tag ";").

(** schema.ParseCheckConstraints: the CHECK setting, if any *)
Definition check_constraint (tag : string) : option string :=
  match TagSettings tag "CHECK" with
  | EmptyString => None
  | chk => Some chk
  end.

End Schema.

Module Gorm.
Import Model Errors.

(** The outcome of a query for one row: [.Error] is nil, is
    gorm.ErrRecordNotFound, or is another error. *)
Inductive QueryResult (A : Type) : Type :=
| Found (a : A)
| NotFound
| QueryError (e : error).
Arguments Found {A} a.
Arguments NotFound {A}.
Arguments QueryError {A} e.

Section Tables.
Context {A : Type} `{Row A}.

(** Every query on a struct with gorm.Model adds [deleted_at IS NULL]. *)
Definition live (r : A) : bool :=
  match DeletedAt (row_model r) with
  | None => true
  | Some _ => false
  end.

(** the row with the least primary key, the first of them in table order *)
Fixpoint least_ID (rows : list A) : option A :=
  match rows with
  | [] => None
  | r :: rest =>
      match least_ID rest with
      | None => Some r
      | Some r' => if (row_ID r <=? row_ID r')%N then Some r else Some r'
      end
  end.

(** db.Where(cond).Find(&rows) *)
Definition Find (rows : list A) (cond : A -> bool) : list A :=
  List.filter (fun r => live r && cond r) rows.

(** db.Where(cond).First(&row): ORDER BY primary key LIMIT 1 *)
Definition First (rows : list A) (cond : A -> bool) : QueryResult A :=
  match least_ID (Find rows cond) with
  | Some r => Found r
  | None => NotFound
  end.

(** AUTOINCREMENT: one more than the largest key in the table *)
Definition next_ID (rows : list A) : N :=
  (1 + fold_right N.max 0 (map row_ID rows))%N.

(** The INSERT of db.Create(&row) once the constraints are checked: a row
    with a zero key gets the next one.  Returns the row as written back
    to the struct, and the table. *)
Definition insert_row (rows : list A) (row : A) : A * list A :=
  let row' :=
    if (row_ID row =? 0)%N
    then row_set_model {| ID := next_ID rows; DeletedAt := DeletedAt (row_model row) |} row
    else row in
  (row', (rows ++ [row'])%list).

(** db.Save(&row) for a row with a non-zero key: UPDATE of all columns of
    the live row with that key, and an INSERT when there is none. *)
Definition Save (rows : list A) (row : A) : list A :=
  if existsb (fun r => live r && (row_ID r =? row_ID row)%N) rows
  then map (fun r => if live r && (row_ID r =? row_ID row)%N then row else r) rows
  else snd (insert_row rows row).

End Tables.

(** The database file.  [foreign_keys] is SQLite's per-connection
    [PRAGMA foreign_keys]; [sqlite.Open(dbPath)], as BootstrapSQLite and
    the servers call it, leaves it off. *)
Record DB : Type := mkDB {
  foreign_keys : bool;
  companies : list Company.t;
  projects : list Project.t;
  maintainers : list Maintainer.t;
  maintainer_projects : list MaintainerProject.t;
  services : list Service.t;
  service_teams : list ServiceTeam.t;
  service_user_teams : list ServiceUserTeams.t
}.

Definition empty_DB : DB :=
  {| foreign_keys := false; companies := []; projects := []; maintainers := [];
     maintainer_projects := []; services := []; service_teams := [];
     service_user_teams := [] |}.

Definition set_projects (v : list Project.t) (d : DB) : DB :=
  mkDB (foreign_keys d) (companies d) v (maintainers d) (maintainer_projects d)
       (services d) (service_teams d) (service_user_teams d).
Definition set_companies (v : list Company.t) (d : DB) : DB :=
  mkDB (foreign_keys d) v (projects d) (maintainers d) (maintainer_projects d)
       (services d) (service_teams d) (service_user_teams d).
Definition set_service_teams (v : list ServiceTeam.t) (d : DB) : DB :=
  mkDB (foreign_keys d) (companies d) (projects d) (maintainers d)
       (maintainer_projects d) (services d) v (service_user_teams d).
Definition set_service_user_teams (v : list ServiceUserTeams.t) (d : DB) : DB :=
  mkDB (foreign_keys d) (companies d) (projects d) (maintainers d)
       (maintainer_projects d) (services d) (service_teams d) v.

Definition unique_violation (column : string) : error :=
  errorString ("UNIQUE constraint failed: " ++ column).
Definition check_violation (name : string) : error :=
  errorString ("CHECK constraint failed: " ++ name).
Definition foreign_key_violation : error :=
  errorString "FOREIGN KEY constraint failed".

(** The tag of MailingList is [size:254;default:MML_MISSING]: when the
    field is nil, db.Create puts the default into the statement and into
    the struct. *)
Definition Project_defaults (p : Project.t) : Project.t :=
  match Project.MailingList p with
  | Some _ => p
  | None =>
      Project.mk (Project.Model p) (Project.Name p) (Project.ParentProjectID p)
        (Project.Maturity p) (Project.MaintainerRef p) (Project.OnboardingIssue p)
        (Some "MML_MISSING") (Project.Maintainers p)
  end.

(** db.Create(&project) on the projects table as AutoMigrate made it: the
    constraints are the ones GORM derives from the tag of [Name]. *)
Definition Create_Project (d : DB) (p : Project.t) : DB * Project.t * option error :=
  let p := Project_defaults p in
  if Schema.has_unique_index Project.Name_tag &&
     existsb (fun q => String.eqb (Project.Name q) (Project.Name p)) (projects d)
  then (d, p, Some (unique_violation "projects.name"))
  else match Schema.check_constraint Project.Name_tag with
       | Some _ =>
           (* the one CHECK of the schema: name <> '' *)
           if String.eqb (Project.Name p) ""
           then (d, p, Some (check_violation "chk_projects_name"))
           else let '(p', rows) := insert_row (projects d) p in
                (set_projects rows d, p', None)
       | None =>
           let '(p', rows) := insert_row (projects d) p in
           (set_projects rows d, p', None)
       end.

(** db.Create(&company) on the companies table as AutoMigrate made it *)
Definition Create_Company (d : DB) (c : Company.t) : DB * Company.t * option error :=
  if Schema.has_unique_index Company.Name_tag &&
     existsb (fun q => String.eqb (Company.Name q) (Company.Name c)) (companies d)
  then (d, c, Some (unique_violation "companies.name"))
  else let '(c', rows) := insert_row (companies d) c in
       (set_companies rows d, c', None).

(** db.Create(&link) on service_user_teams: no unique index; the foreign
    key to service_teams(id) is checked when the connection enforces
    foreign keys. *)
Definition Create_ServiceUserTeams (d : DB) (l : ServiceUserTeams.t)
  : DB * ServiceUserTeams.t * option error :=
  if foreign_keys d &&
     negb (existsb (fun st => (row_ID st =? ServiceUserTeams.ServiceTeamID l)%N)
                   (service_teams d))
  then (d, l, Some foreign_key_violation)
  else let '(l', rows) := insert_row (service_user_teams d) l in
       (set_service_user_teams rows d, l', None).

(** db.Where(sql, args...).FirstOrCreate(&dest) with a condition given as
    an SQL string: the condition selects the row to load into [dest]; when
    no row matches, [dest] is inserted as it stands, because only struct
    and map conditions are copied into the new row. *)
Definition FirstOrCreate_ServiceUserTeams (d : DB)
    (cond : ServiceUserTeams.t -> bool) (dest : ServiceUserTeams.t)
  : DB * ServiceUserTeams.t * option error :=
  match First (service_user_teams d) cond with
  | Found r => (d, r, None)
  | NotFound => Create_ServiceUserTeams d dest
  | QueryError e => (d, dest, Some e)
  end.

(** db.Save(&link) on service_user_teams *)
Definition Save_ServiceUserTeams (d : DB) (l : ServiceUserTeams.t) : DB * option error :=
  (set_service_user_teams (Save (service_user_teams d) l) d, None).

End Gorm.

(* ===================================================================== *)
(** ** package db: the store and the FOSSA import                          *)
(* ===================================================================== *)

Module Db.
Import Go Model Errors Gorm.

(** Preload("Company") on one maintainer: the live company its CompanyID
    names, or the zero Company. *)
Definition preload_Company (d : DB) (m : Maintainer.t) : Maintainer.t :=
  match Maintainer.CompanyID m with
  | None => m
  | Some cid =>
      match First (companies d) (fun c => (row_ID c =? cid)%N) with
      | Found c => set_Maintainer_Company c m
      | _ => m
      end
  end.

(** Preload("Maintainers.Company") on one project: the live maintainers
    joined to it through maintainer_projects, each with its company. *)
Definition preload_Maintainers (d : DB) (p : Project.t) : Project.t :=
  set_Project_Maintainers
    (map (preload_Company d)
       (Find (maintainers d)
          (fun m => existsb (fun j => (MaintainerProject.MaintainerID j =? row_ID m)%N &&
                                      (MaintainerProject.ProjectID j =? row_ID p)%N)
                            (maintainer_projects d))))
    p.

(** store.GetMaintainersByProject.  A nil slice is [None]. *)
Definition GetMaintainersByProject (d : DB) (projectID : N)
  : option (list Maintainer.t) * option error :=
  match First (projects d) (fun p => (row_ID p =? projectID)%N) with
  | Found project => (Some (Project.Maintainers (preload_Maintainers d project)), None)
  | NotFound => (None, Some ErrProjectNotFound)
  | QueryError err => (None, Some err)
  end.

(** store.GetProjectMapByName *)
Definition GetProjectMapByName (d : DB) : gmap string Project.t * option error :=
  (fold_left (fun (m : gmap string Project.t) p => <[Project.Name p := p]> m)
     (map (preload_Maintainers d) (Find (projects d) (fun _ => true)))
     ∅,
   None).

(** MapFossaUserToMaintainer.  The function folds its arguments with
    Go's strings.ToLower, the argument [ToLower] here, which works on
    runes; the columns are folded in the query by SQLite's lower(). *)
Definition MapFossaUserToMaintainer (ToLower : string -> string) (d : DB)
    (email github : string) : option Maintainer.t :=
  let by_email :=
    match First (maintainers d)
            (fun m => String.eqb (Sqlite.LOWER (Maintainer.Email m)) (ToLower email) ||
                      String.eqb (Sqlite.LOWER (Maintainer.GitHubEmail m)) (ToLower email)) with
    | Found m => Some m
    | NotFound => None
    | QueryError _ => None
    end in
  if negb (String.eqb github "") then
    match First (maintainers d)
            (fun m => String.eqb (Sqlite.LOWER (Maintainer.GitHubAccount m))
                                 (ToLower github)) with
    | Found m => Some m
    | QueryError _ => None
    | NotFound => by_email
    end
  else by_email.

(** The body of the loop of LinkServiceUserToTeam for one team; the
    result carries the database and the linkErrors collected so far. *)
Definition link_one (su : ServiceUser.t) (maintainer : option Maintainer.t)
    (collaborator : option Collaborator.t)
    (d : DB) (linkErrors : list string) (st : option ServiceTeam.t)
  : outcome (DB * list string) :=
  match st with
  | None => Returned (d, linkErrors)
  | Some st =>
      let serviceUserTeams :=
        {| ServiceUserTeams.Model := zeroModel;
           ServiceUserTeams.ServiceID := 1;
           ServiceUserTeams.ServiceUserID := ServiceUser.ServiceUserID su;
           ServiceUserTeams.ServiceTeamID := 0;
           ServiceUserTeams.MaintainerID := None;
           ServiceUserTeams.CollaboratorID := None |} in
      let '(d, serviceUserTeams, err) :=
        FirstOrCreate_ServiceUserTeams d
          (fun r => (ServiceUserTeams.ServiceID r =? ServiceUser.ServiceID su)%N &&
                    (ServiceUserTeams.ServiceTeamID r =? row_ID st)%N &&
                    (ServiceUserTeams.ServiceUserID r =? ServiceUser.ServiceUserID su)%Z)
          serviceUserTeams in
      match err with
      | None =>
          (* Update if necessary *)
          let '(serviceUserTeams, updated) :=
            match maintainer with
            | Some m =>
                if bool_decide (ServiceUserTeams.MaintainerID serviceUserTeams = None)
                then (ServiceUserTeams.set_CollaboratorID None
                        (ServiceUserTeams.set_MaintainerID (Some (row_ID m)) serviceUserTeams),
                      true)
                else (serviceUserTeams, false)
            | None => (serviceUserTeams, false)
            end in
          let '(serviceUserTeams, updated) :=
            match collaborator with
            | Some c =>
                if bool_decide (ServiceUserTeams.CollaboratorID serviceUserTeams = None)
                then (ServiceUserTeams.set_MaintainerID None
                        (ServiceUserTeams.set_CollaboratorID
                           (Some (ID (Collaborator.Model c))) serviceUserTeams),
                      true)
                else (serviceUserTeams, updated)
            | None => (serviceUserTeams, updated)
            end in
          if updated then
            match Save_ServiceUserTeams d serviceUserTeams with
            | (d, Some err) =>
                Returned (d, append linkErrors
                  ("ERR, db.save failed to update the serviceUserTeams link for user " ++
                   Fmt.itoa (ServiceUser.ServiceUserID su) ++ " to team " ++
                   Fmt.utoa (row_ID st) ++ ": " ++ Error err))
            | (d, None) =>
                (* the log line dereferences st.ServiceTeamName *)
                match ServiceTeam.ServiceTeamName st with
                | Some _ => Returned (d, linkErrors)
                | None => Panicked
                end
            end
          else Returned (d, linkErrors)
      | Some err =>
          if Is err ErrRecordNotFound then
            (* the log line dereferences st.ServiceTeamName *)
            match ServiceTeam.ServiceTeamName st with
            | Some _ =>
                Returned (d, append linkErrors
                  ("lookup failure for link (user " ++ Fmt.itoa (ServiceUser.ServiceUserID su) ++
                   ", team " ++ Fmt.utoa (row_ID st) ++ "): " ++ Error err))
            | None => Panicked
            end
          else
            (* No link exists, create new *)
            let newLink :=
              {| ServiceUserTeams.Model := zeroModel;
                 ServiceUserTeams.ServiceID := ServiceUser.ServiceID su;
                 ServiceUserTeams.ServiceUserID := ServiceUser.ServiceUserID su;
                 ServiceUserTeams.ServiceTeamID := row_ID st;
                 ServiceUserTeams.MaintainerID :=
                   match maintainer with Some m => Some (row_ID m) | None => None end;
                 ServiceUserTeams.CollaboratorID :=
                   match maintainer, collaborator with
                   | None, Some c => Some (ID (Collaborator.Model c))
                   | _, _ => None
                   end |} in
            match Create_ServiceUserTeams d newLink with
            | (d, _, Some err) =>
                Returned (d, append linkErrors
                  ("failed to create link for user " ++ Fmt.itoa (ServiceUser.ServiceUserID su) ++
                   " to team " ++ Fmt.utoa (row_ID st) ++ ": " ++ Error err))
            | (d, _, None) => Returned (d, linkErrors)
            end
      end
  end.

Fixpoint link_loop (su : ServiceUser.t) (maintainer : option Maintainer.t)
    (collaborator : option Collaborator.t)
    (d : DB) (linkErrors : list string) (sTeams : list (option ServiceTeam.t))
  : outcome (DB * list string) :=
  match sTeams with
  | [] => Returned (d, linkErrors)
  | st :: rest =>
      match link_one su maintainer collaborator d linkErrors st with
      | Returned (d, linkErrors) => link_loop su maintainer collaborator d linkErrors rest
      | Panicked => Panicked
      end
  end.

(** LinkServiceUserToTeam *)
Definition LinkServiceUserToTeam (d : DB) (su : option ServiceUser.t)
    (sTeams : list (option ServiceTeam.t))
    (maintainer : option Maintainer.t) (collaborator : option Collaborator.t)
  : outcome (DB * option error) :=
  match su with
  | None => Returned (d, Some (errorString "LinkServiceUserToTeam: service user is nil"))
  | Some su =>
      if (length sTeams =? 0)%nat then
        Returned (d, Some (errorString
          ("LinkServiceUserToTeam: no service teams provided for user " ++
           Fmt.itoa (ServiceUser.ServiceUserID su))))
      else if bool_decide (is_Some maintainer) && bool_decide (is_Some collaborator) then
        Returned (d, Some (errorString
          ("LinkServiceUserToTeam: cannot link both a maintainer and a collaborator for user " ++
           Fmt.itoa (ServiceUser.ServiceUserID su))))
      else
        match link_loop su maintainer collaborator d [] sTeams with
        | Panicked => Panicked
        | Returned (d, linkErrors) =>
            if (0 <? length linkErrors)%nat then
              Returned (d, Some (errorString
                ("LinkServiceUserToTeam: " ++ Fmt.itoa (Z.of_nat (length linkErrors)) ++
                 " linking errors:" ++ String "010" "" ++ Strings.Join linkErrors (String "010" ""))))
            else Returned (d, None)
        end
  end.

(** *** Vocabulary of the statements about the import and the store *)

(** Equal up to the case of ASCII letters. *)
Definition EqualFold (a b : string) : Prop := Strings.ToLower a = Strings.ToLower b.

(** A registered maintainer: a row of the maintainers table that is not
    soft-deleted. *)
Definition registered (d : DB) (m : Maintainer.t) : Prop :=
  In m (maintainers d) /\ live m = true.

Definition handle_matches (github : string) (m : Maintainer.t) : Prop :=
  EqualFold (Maintainer.GitHubAccount m) github.

Definition email_matches (email : string) (m : Maintainer.t) : Prop :=
  EqualFold (Maintainer.Email m) email \/ EqualFold (Maintainer.GitHubEmail m) email.

(** [m] is the first registered maintainer with [P]: none with [P] has a
    smaller primary key. *)
Definition first_registered (d : DB) (P : Maintainer.t -> Prop) (m : Maintainer.t) : Prop :=
  registered d m /\ P m /\
  forall m', registered d m' -> P m' -> (row_ID m <= row_ID m')%N.

(** A Project row with the given ID exists (and is not soft-deleted). *)
Definition project_exists (d : DB) (projectID : N) : Prop :=
  exists p, In p (projects d) /\ live p = true /\ row_ID p = projectID.

(** [row] is a maintainer row associated with the project. *)
Definition associated (d : DB) (projectID : N) (row : Maintainer.t) : Prop :=
  In row (maintainers d) /\ live row = true /\
  exists j, In j (maintainer_projects d) /\
            MaintainerProject.MaintainerID j = row_ID row /\
            MaintainerProject.ProjectID j = projectID.


(** The two WHERE conditions of MapFossaUserToMaintainer *)
Definition handle_cond (ToLower : string -> string) (github : string) (m : Maintainer.t)
  : bool :=
  String.eqb (Sqlite.LOWER (Maintainer.GitHubAccount m)) (ToLower github).

Definition email_cond (ToLower : string -> string) (email : string) (m : Maintainer.t)
  : bool :=
  String.eqb (Sqlite.LOWER (Maintainer.Email m)) (ToLower email) ||
  String.eqb (Sqlite.LOWER (Maintainer.GitHubEmail m)) (ToLower email).

(** The e-mail lookup on its own. *)
Definition by_email (ToLower : string -> string) (d : DB) (email : string)
  : option Maintainer.t :=
  match First (maintainers d) (email_cond ToLower email) with
  | Found m => Some m
  | NotFound => None
  | QueryError _ => None
  end.

(** What Go's strings.ToLower does on a string without bytes above 127:
    it folds the 26 letters byte by byte. *)
Definition folds_ascii (ToLower : string -> string) : Prop :=
  forall s, Strings.is_ascii s = true -> ToLower s = Strings.ToLower s.

(** The handle lookup of the statement finds someone. *)
Definition handle_found (d : DB) (github : string) : Prop :=
  github <> "" /\ exists m, registered d m /\ handle_matches github m.

(** The e-mail lookup of the statement finds someone. *)
Definition email_found (d : DB) (email : string) : Prop :=
  exists m, registered d m /\ email_matches email m.

(** store.getServiceByName *)
Definition getServiceByName (d : DB) (name : string) : Service.t * option error :=
  match First (services d) (fun s => String.eqb (Service.Name s) name) with
  | Found svc => (svc, None)
  | NotFound => (Service.mk zeroModel "" "", Some ErrRecordNotFound)
  | QueryError err => (Service.mk zeroModel "" "", Some err)
  end.

(** store.GetProjectServiceTeamMap; a nil map is the empty map *)
Definition GetProjectServiceTeamMap (d : DB) (serviceName : string)
  : gmap N ServiceTeam.t * option error :=
  match getServiceByName d serviceName with
  | (_, Some err) =>
      (∅, Some (errorString ("failed to get service, " ++ serviceName ++
                             ", by name: " ++ Error err)))
  | (service, None) =>
      let serviceTeams := Find (service_teams d)
                            (fun st => (ServiceTeam.ServiceID st =? row_ID service)%N) in
      (fold_left (fun (result : gmap N ServiceTeam.t) st =>
                    <[ServiceTeam.ProjectID st := st]> result) serviceTeams ∅,
       None)
  end.

(** store.CreateServiceTeam: FirstOrCreate on service_team_id, with the
    team in the struct *)
Definition CreateServiceTeam (d : DB) (projectID : N) (projectName : string)
    (serviceID : Z) (serviceName : string) : DB * option ServiceTeam.t * option error :=
  let st := {| ServiceTeam.Model := zeroModel;
               ServiceTeam.ProjectID := projectID;
               ServiceTeam.ServiceID := 1;
               ServiceTeam.ServiceTeamID := serviceID;
               ServiceTeam.ServiceTeamName := Some serviceName;
               ServiceTeam.ProjectName := Some projectName |} in
  match First (service_teams d) (fun r => (ServiceTeam.ServiceTeamID r =? serviceID)%Z) with
  | Found r => (d, Some r, None)
  | NotFound =>
      let '(st', rows) := insert_row (service_teams d) st in
      (set_service_teams rows d, Some st', None)
  | QueryError err =>
      (d, None, Some (errorString ("CreateServiceTeamsForUser had partial errors:" ++
                                   String "010" "")))
  end.


(** From [d] to [d'] nothing but links changed: every other table is the
    same, and the links of [d] are still there, with their primary keys
    and in their places, possibly followed by new ones. *)
Definition links_added (d d' : DB) : Prop :=
  foreign_keys d' = foreign_keys d /\
  companies d' = companies d /\
  projects d' = projects d /\
  maintainers d' = maintainers d /\
  maintainer_projects d' = maintainer_projects d /\
  services d' = services d /\
  service_teams d' = service_teams d /\
  map row_ID (service_user_teams d) `prefix_of` map row_ID (service_user_teams d').


(** *** The teams of a FOSSA user *)

(** An element of fossa.User.TeamUsers: the role, and the team's ID and
    name. *)
Record TeamUser : Type := mkTeamUser { RoleID : Z; TeamID : Z; TeamName : string }.

(** db.Where("service_team_id = ?", id).FirstOrCreate(st): the team is in
    the struct, so the row inserted when none matches carries it. *)
Definition FirstOrCreate_ServiceTeam (d : DB) (serviceTeamID : Z) (st : ServiceTeam.t)
  : DB * ServiceTeam.t * option error :=
  match First (service_teams d) (fun r => (ServiceTeam.ServiceTeamID r =? serviceTeamID)%Z) with
  | Found r => (d, r, None)
  | NotFound =>
      let '(st', rows) := insert_row (service_teams d) st in
      (set_service_teams rows d, st', None)
  | QueryError err => (d, st, Some err)
  end.

(** The loop of CreateServiceTeamsForUser; [inr] is the return from
    inside the loop, on a team that is not a registered project.
    [&team.Team.Name] and [&project.Name] point to variables of the
    iteration (loop variables are per iteration since Go 1.22, and the
    README asks for Go 1.24.6 or later), so the struct of one iteration
    keeps its names: the pointers are modelled by the values they hold. *)
Fixpoint create_teams_loop (projects : gmap string Project.t) (d : DB)
    (teams : list ServiceTeam.t) (errMessages : list string) (teamUsers : list TeamUser)
  : DB * (list ServiceTeam.t * list string + error) :=
  match teamUsers with
  | [] => (d, inl (teams, errMessages))
  | team :: rest =>
      match projects !! TeamName team with
      | Some project =>
          let st := {| ServiceTeam.Model := zeroModel;
                       ServiceTeam.ProjectID := row_ID project;
                       ServiceTeam.ServiceID := 1;    (* Hardcoded to FOSSA for now *)
                       ServiceTeam.ServiceTeamID := TeamID team;
                       ServiceTeam.ServiceTeamName := Some (TeamName team);
                       ServiceTeam.ProjectName := Some (Project.Name project) |} in
          match FirstOrCreate_ServiceTeam d (TeamID team) st with
          | (d, _, Some err) =>
              let msg := "CreateServiceTeamsForUser: failed for team " ++ Fmt.itoa (TeamID team) ++
                         " (" ++ TeamName team ++ "): " ++ Error err in
              create_teams_loop projects d teams (append errMessages msg) rest
          | (d, st, None) =>
              create_teams_loop projects d (append teams st) errMessages rest
          end
      | None =>
          (d, inr (errorString ("CreateServiceTeamsForUser: ERROR " ++ TeamName team ++
                                " is NOT A registered project")))
      end
  end.

(** What follows the loop: the checks on what it collected.  A nil slice
    is [None]. *)
Definition teams_result (out : DB * (list ServiceTeam.t * list string + error))
  : DB * option (list ServiceTeam.t) * option error :=
  match out with
  | (d, inr err) => (d, None, Some err)
  | (d, inl (teams, errMessages)) =>
      if (length teams =? 0)%nat then
        (d, None, Some (errorString "CreateServiceTeamsForUser: no valid teams created"))
      else if (0 <? length errMessages)%nat then
        (d, Some teams,
         Some (errorString ("CreateServiceTeamsForUser had partial errors:" ++
                            String "010" "" ++ Strings.Join errMessages (String "010" ""))))
      else (d, Some teams, None)
  end.

(** CreateServiceTeamsForUser. *)
Definition CreateServiceTeamsForUser (d : DB) (teamUsers : list TeamUser)
  : DB * option (list ServiceTeam.t) * option error :=
  match GetProjectMapByName d with
  | (_, Some err) =>
      (d, None,
       Some (errorString ("CreateServiceTeamsForUser: GetProjectMapByName failed to get project map: " ++
                          Error err)))
  | (projects, None) => teams_result (create_teams_loop projects d [] [] teamUsers)
  end.

(** *** Vocabulary of the statements about the teams *)

(** Every team row that is not soft-deleted has a name. *)
Definition teams_named (d : DB) : Prop :=
  forall t, In t (service_teams d) -> live t = true -> is_Some (ServiceTeam.ServiceTeamName t).

(** From [d] to [d'] nothing but team rows were added: every other table
    is the same, and the team rows of [d] are the first of [d']. *)
Definition teams_added (d d' : DB) : Prop :=
  foreign_keys d' = foreign_keys d /\
  companies d' = companies d /\
  projects d' = projects d /\
  maintainers d' = maintainers d /\
  maintainer_projects d' = maintainer_projects d /\
  services d' = services d /\
  service_user_teams d' = service_user_teams d /\
  service_teams d `prefix_of` service_teams d'.

(** The rows of [rows'] are those of [rows], followed by rows with
    greater primary keys. *)
Definition grown (rows rows' : list ServiceTeam.t) : Prop :=
  exists extra,
    rows' = (rows ++ extra)%list /\
    forall x y, In x extra -> In y rows -> (row_ID y < row_ID x)%N.

(** The team row that the lookup by FOSSA team ID finds in [d]. *)
Definition team_found (d : DB) (serviceTeamID : Z) (t : ServiceTeam.t) : Prop :=
  First (service_teams d) (fun r => (ServiceTeam.ServiceTeamID r =? serviceTeamID)%Z) = Found t.


(** store.GetServiceTeamByProject: nil and no error when no team matches;
    on another error the pointer to the struct left at its zero value. *)
Definition GetServiceTeamByProject (d : DB) (projectID serviceID : N)
  : option ServiceTeam.t * option error :=
  match First (service_teams d)
          (fun st => (ServiceTeam.ProjectID st =? projectID)%N &&
                     (ServiceTeam.ServiceID st =? serviceID)%N) with
  | Found st => (Some st, None)
  | NotFound => (None, None)
  | QueryError err => (Some (ServiceTeam.mk zeroModel 0 0 0 None None), Some err)
  end.


(** *** Seeding the services *)

Definition Service_Name_tag : string := "uniqueIndex".

Definition set_services (v : list Service.t) (d : DB) : DB :=
  mkDB (foreign_keys d) (companies d) (projects d) (maintainers d) (maintainer_projects d)
       v (service_teams d) (service_user_teams d).

(** db.Create(&service) on the services table as AutoMigrate made it: the
    unique index on the name covers every row, soft-deleted or not. *)
Definition Create_Service (d : DB) (s : Service.t) : DB * Service.t * option error :=
  if Schema.has_unique_index Service_Name_tag &&
     existsb (fun q => String.eqb (Service.Name q) (Service.Name s)) (services d)
  then (d, s, Some (unique_violation "services.name"))
  else let '(s', rows) := insert_row (services d) s in
       (set_services rows d, s', None).

(** tx.FirstOrCreate(&service, model.Service{Name: service.Name}): of a
    struct condition the fields that are not zero count, so an empty name
    is no condition at all; the row created carries the struct. *)
Definition FirstOrCreate_Service (d : DB) (service : Service.t)
  : DB * Service.t * option error :=
  match First (services d)
          (fun s => String.eqb (Service.Name service) "" ||
                    String.eqb (Service.Name s) (Service.Name service)) with
  | Found s => (d, s, None)
  | NotFound => Create_Service d service
  | QueryError err => (d, service, Some err)
  end.

(** db.Transaction(f): what [f] did is kept when it returns nil and rolled
    back when it returns an error. *)
Definition Transaction (d : DB) (f : DB -> DB * option error) : DB * option error :=
  match f d with
  | (d', None) => (d', None)
  | (_, Some err) => (d, Some err)
  end.

(** The services BootstrapSQLite seeds. *)
Definition seed_list : list Service.t :=
  [ Service.mk zeroModel "FOSSA" "Static code check we use to ensure 3rd Party License Policy";
    Service.mk zeroModel "Service Desk" "Jira";
    Service.mk zeroModel "cncf.groups.io" "Mailing list channels";
    Service.mk zeroModel "Snyk"
      "Static code checker for 3rd Party License Policy monitoring and compliance" ].

(** The loop inside the seeding transaction of BootstrapSQLite. *)
Fixpoint seed_loop (tx : DB) (services : list Service.t) : DB * option error :=
  match services with
  | [] => (tx, None)
  | service :: rest =>
      match FirstOrCreate_Service tx service with
      | (tx, _, Some err) =>
          (tx, Some (wrapf ("bootstrap: failed to insert service " ++ Service.Name service) err))
      | (tx, _, None) => seed_loop tx rest
      end
  end.

(** The seeding transaction of BootstrapSQLite, run when [seed] is set. *)
Definition seed_services (d : DB) : DB * option error :=
  Transaction d (fun tx => seed_loop tx seed_list).

(** The row that is not soft-deleted and has the name [name], as the
    lookup by name finds it. *)
Definition service_named (d : DB) (name : string) : QueryResult Service.t :=
  First (services d) (fun s => String.eqb (Service.Name s) name).

(** From [d] to [d'] nothing changed but service rows added at the end of
    their table. *)
Definition services_added (d d' : DB) : Prop :=
  foreign_keys d' = foreign_keys d /\
  companies d' = companies d /\
  projects d' = projects d /\
  maintainers d' = maintainers d /\
  maintainer_projects d' = maintainer_projects d /\
  service_teams d' = service_teams d /\
  service_user_teams d' = service_user_teams d /\
  services d `prefix_of` services d'.

(** Some service row that is not soft-deleted has the name. *)
Definition has_live (d : DB) (name : string) : Prop :=
  exists r, In r (services d) /\ live r = true /\ Service.Name r = name.

(** A seed has a name and is not soft-deleted. *)
Definition seed_ok (service : Service.t) : Prop :=
  Service.Name service <> "" /\ DeletedAt (Service.Model service) = None.

End Db.

(* ===================================================================== *)
(** ** Sample rows, used by the examples                                  *)
(* ===================================================================== *)

Module Sample.
Import Model Gorm.

Definition acme : Company.t := Company.mk (mkGormModel 1 None) "Acme".

Definition alice : Maintainer.t :=
  Maintainer.mk (mkGormModel 1 None) "Alice" "Alice@Example.org" "alice-gh"
    "alice@users.noreply.github.com" "Active" "" None (Some 1%N) Company.zero.

Definition bob : Maintainer.t :=
  Maintainer.mk (mkGormModel 2 None) "Bob" "bob@example.org" "BobHub"
    "bob@example.org" "Active" "" None None Company.zero.

Definition kubernetes : Project.t :=
  Project.mk (mkGormModel 1 None) "kubernetes" None "Graduated" "" None
    (Some "k8s@lists.cncf.io") [].

Definition helm : Project.t :=
  Project.mk (mkGormModel 2 None) "helm" (Some 1%N) "Graduated" "OWNERS"
    (Some "https://github.com/cncf/sandbox/issues/1") None [].

(** a project struct not yet written to the database *)
Definition new_project (name : string) : Project.t :=
  Project.mk zeroModel name None "Sandbox" "" None None [].

Definition fossa_user : ServiceUser.t :=
  ServiceUser.mk (mkGormModel 1 None) 1 7 "alice@example.org" "" (Some "alice-gh").

Definition team5 : ServiceTeam.t :=
  ServiceTeam.mk (mkGormModel 5 None) 1 1 50 (Some "kubernetes") (Some "kubernetes").

Definition team6 : ServiceTeam.t :=
  ServiceTeam.mk (mkGormModel 6 None) 2 1 60 (Some "helm") (Some "helm").

Definition db : DB :=
  {| foreign_keys := false;
     companies := [acme];
     projects := [kubernetes; helm];
     maintainers := [alice; bob];
     maintainer_projects := [MaintainerProject.mk 1 1; MaintainerProject.mk 2 1];
     services := [Service.mk (mkGormModel 1 None) "FOSSA" ""];
     service_teams := [team5; team6];
     service_user_teams := [] |}.

(** A maintainer registered under an e-mail address written in capitals,
    one of them outside ASCII. *)
Definition jose : Maintainer.t :=
  Maintainer.mk (mkGormModel 3 None) "José" "JOSÉ@EXAMPLE.ORG" "jose-gh"
    "jose@users.noreply.github.com" "Active" "" None None Company.zero.

Definition db_jose : DB :=
  {| foreign_keys := false;
     companies := [acme];
     projects := [kubernetes; helm];
     maintainers := [alice; bob; jose];
     maintainer_projects := [MaintainerProject.mk 1 1; MaintainerProject.mk 2 1];
     services := [Service.mk (mkGormModel 1 None) "FOSSA" ""];
     service_teams := [team5; team6];
     service_user_teams := [] |}.




End Sample.

(* ===================================================================== *)
(** ** apis/maintainers/v1alpha1 and the sync job                          *)
(* ===================================================================== *)

Module Apis.

Record ResourceReference : Type := mkRef {
  Name : string;
  Workspace : string;
  UID : string
}.

(** apis.ResourceReference{Name: name} *)
Definition ref (name : string) : ResourceReference :=
  {| Name := name; Workspace := ""; UID := "" |}.

Record ProjectSpec : Type := mkProjectSpec {
  DisplayName : string;
  Maturity : string;
  ParentProjectRef : option ResourceReference;
  MaintainerLeadRef : option ResourceReference;
  OnboardingIssue : string;
  MailingList : string;
  FoundationRef : option ResourceReference;
  MaintainerRefs : list ResourceReference;
  CollaboratorRefs : list ResourceReference;
  ServiceRefs : list ResourceReference;
  Tags : gmap string string
}.

(** The Project custom resource: the name and namespace of its
    ObjectMeta, and its spec; the sync job touches nothing else. *)
Record Project : Type := mkProject {
  ObjectName : string;
  Namespace : string;
  Spec : ProjectSpec
}.

Definition set_Spec (spec : ProjectSpec) (obj : Project) : Project :=
  mkProject (ObjectName obj) (Namespace obj) spec.

End Apis.

Module Sync.
Import Model Errors Prog Apis.

(** client.ObjectKey *)
Record ObjectKey : Type := mkKey { KeyName : string; KeyNamespace : string }.

(** The calls of the controller-runtime client that syncProjects makes.
    [Get] answers with the object or with the error. *)
Inductive K8sE : Type -> Type :=
| Get (key : ObjectKey) : K8sE (Apis.Project + error)
| Create (obj : Apis.Project) : K8sE (option error)
| Update (obj : Apis.Project) : K8sE (option error).

(** projectSpecEqual *)
Definition refs_differ (a b : option ResourceReference) : bool :=
  match a, b with
  | None, None => false
  | Some ra, Some rb => negb (String.eqb (Apis.Name ra) (Apis.Name rb))
  | _, _ => true
  end.

Definition projectSpecEqual (a b : ProjectSpec) : bool :=
  if negb (String.eqb (DisplayName a) (DisplayName b)) ||
     negb (String.eqb (Maturity a) (Maturity b)) ||
     negb (String.eqb (MailingList a) (MailingList b)) ||
     negb (String.eqb (OnboardingIssue a) (OnboardingIssue b)) then false
  else if refs_differ (ParentProjectRef a) (ParentProjectRef b) then false
  else if refs_differ (MaintainerLeadRef a) (MaintainerLeadRef b) then false
  else if negb (length (MaintainerRefs a) =? length (MaintainerRefs b))%nat then false
  else
    (* compare sets by name *)
    let ma : gset string := list_to_set (map Apis.Name (MaintainerRefs a)) in
    forallb (fun r => bool_decide (Apis.Name r ∈ ma)) (MaintainerRefs b).

Section SyncProjects.
(** The two library functions [sanitizeName] is built on, and the order in
    which one execution of [range projectsByName] visits the map. *)
Variables (ToLower TrimSpace : string -> string).
Variable range : gmap string Model.Project.t -> list (string * Model.Project.t).

Definition sanitizeName : string -> string := SyncNames.sanitizeName ToLower TrimSpace.

(** the first loop of syncProjects *)
Definition parentNameByID (projectsByName : gmap string Model.Project.t) : gmap N string :=
  fold_left (fun (m : gmap N string) kv => <[row_ID (snd kv) := Project.Name (snd kv)]> m)
            (range projectsByName) ∅.

(** the spec syncProjects builds for the row [p] *)
Definition desiredSpec (parentNameByID : gmap N string) (p : Model.Project.t) : ProjectSpec :=
  {| DisplayName := Project.Name p;
     Maturity := Project.Maturity p;
     ParentProjectRef :=
       match Project.ParentProjectID p with
       | Some pid =>
           match parentNameByID !! pid with
           | Some parentName => Some (ref (sanitizeName parentName))
           | None => None
           end
       | None => None
       end;
     MaintainerLeadRef :=
       if negb (String.eqb (Project.MaintainerRef p) "")
       then Some (ref (sanitizeName (Project.MaintainerRef p)))
       else None;
     OnboardingIssue :=
       match Project.OnboardingIssue p with Some v => v | None => "" end;
     MailingList :=
       match Project.MailingList p with Some v => v | None => "" end;
     FoundationRef := None;
     MaintainerRefs :=
       map (fun m => ref (sanitizeName (Maintainer.Email m))) (Project.Maintainers p);
     CollaboratorRefs := [];
     ServiceRefs := [];
     Tags := ∅ |}.

(** the body of the second loop for the row [p]; [Some err] is a return
    from syncProjects, [None] goes on with the next row *)
Definition syncProject (ns : string) (parentNameByID : gmap N string)
    (p : Model.Project.t) : prog K8sE (option error) :=
  let name := sanitizeName (Project.Name p) in
  let key := {| KeyName := name; KeyNamespace := ns |} in
  let spec := desiredSpec parentNameByID p in
  got ← call (Get key);
  match got with
  | inr err =>
      if IsNotFound err then
        let obj := {| ObjectName := name; Namespace := ns; Spec := spec |} in
        cerr ← call (Create obj);
        match cerr with
        | Some err => mret (Some (wrapf ("create project " ++ name) err))
        | None => mret None
        end
      else mret (Some err)
  | inl obj =>
      if negb (projectSpecEqual (Spec obj) spec) then
        uerr ← call (Update (set_Spec spec obj));
        match uerr with
        | Some err => mret (Some (wrapf ("update project " ++ name) err))
        | None => mret None
        end
      else mret None
  end.

Fixpoint syncProjects_loop (ns : string) (parentNameByID : gmap N string)
    (ps : list Model.Project.t) : prog K8sE (option error) :=
  match ps with
  | [] => mret None
  | p :: rest =>
      r ← syncProject ns parentNameByID p;
      match r with
      | Some err => mret (Some err)
      | None => syncProjects_loop ns parentNameByID rest
      end
  end.

(** syncProjects, on the database the store reads *)
Definition syncProjects (d : Gorm.DB) (ns : string) : prog K8sE (option error) :=
  match Db.GetProjectMapByName d with
  | (_, Some err) => mret (Some err)
  | (projectsByName, None) =>
      syncProjects_loop ns (parentNameByID projectsByName)
        (map snd (range projectsByName))
  end.

(** *** What a run of syncProjects is expected to look like *)

(** The calls made for the row [p]: a Get of its key; a Create of the CR
    with the desired spec when the Get reports NotFound; an Update that
    overwrites the spec when the Get returned a CR whose spec
    projectSpecEqual tells apart from the desired one; nothing more. *)
Definition project_synced (ns : string) (parentNameByID : gmap N string)
    (p : Model.Project.t) (tr : list (event K8sE)) : Prop :=
  let name := sanitizeName (Project.Name p) in
  let key := {| KeyName := name; KeyNamespace := ns |} in
  let spec := desiredSpec parentNameByID p in
  exists got,
    match got with
    | inr err =>
        if IsNotFound err
        then exists cerr,
               tr = [Event (Get key) got;
                     Event (Create {| ObjectName := name; Namespace := ns; Spec := spec |}) cerr]
        else tr = [Event (Get key) got]
    | inl obj =>
        if projectSpecEqual (Spec obj) spec
        then tr = [Event (Get key) got]
        else exists uerr,
               tr = [Event (Get key) got; Event (Update (set_Spec spec obj)) uerr]
    end.

(** The spec built for [p] copies the row. *)
Definition spec_mirrors (projectsByName : gmap string Model.Project.t)
    (p : Model.Project.t) (spec : ProjectSpec) : Prop :=
  DisplayName spec = Project.Name p /\
  Maturity spec = Project.Maturity p /\
  (forall v, Project.MailingList p = Some v -> MailingList spec = v) /\
  (forall v, Project.OnboardingIssue p = Some v -> OnboardingIssue spec = v) /\
  MaintainerRefs spec =
    map (fun m => ref (sanitizeName (Maintainer.Email m))) (Project.Maintainers p) /\
  (is_Some (ParentProjectRef spec) <->
   exists pid name q, Project.ParentProjectID p = Some pid /\
                      projectsByName !! name = Some q /\ row_ID q = pid).

End SyncProjects.

(** An API server that stores Project CRs by namespace and name, for the
    examples. *)
Definition cluster_handler : handler K8sE (gmap (string * string) Apis.Project) :=
  fun X (e : K8sE X) =>
    match e in K8sE X return gmap (string * string) Apis.Project ->
                             X * gmap (string * string) Apis.Project with
    | Get key => fun c =>
        match c !! (KeyNamespace key, KeyName key) with
        | Some obj => (inl obj, c)
        | None => (inr (statusNotFound ("projects " ++ KeyName key ++ " not found")), c)
        end
    | Create obj => fun c =>
        match c !! (Namespace obj, ObjectName obj) with
        | Some _ => (Some (errorString ("projects " ++ ObjectName obj ++ " already exists")), c)
        | None => (None, <[(Namespace obj, ObjectName obj) := obj]> c)
        end
    | Update obj => fun c =>
        match c !! (Namespace obj, ObjectName obj) with
        | Some _ => (None, <[(Namespace obj, ObjectName obj) := obj]> c)
        | None => (Some (statusNotFound ("projects " ++ ObjectName obj ++ " not found")), c)
        end
    end.

(** syncProjects on names and e-mail addresses without bytes above 127,
    where [Strings.ToLower] and [Strings.TrimSpace] are the Go functions,
    ranging in key order *)
Definition syncProjects_ascii (d : Gorm.DB) (ns : string) : prog K8sE (option error) :=
  syncProjects Strings.ToLower Strings.TrimSpace map_to_list d ns.


(** *** Vocabulary of the statements about projectSpecEqual and re-runs *)

(** The name a reference points to, if there is a reference. *)
Definition ref_name (r : option ResourceReference) : option string :=
  Apis.Name <$> r.

(** Two specs agree on what the sync job writes: the display name,
    maturity, mailing list and onboarding issue, the names of the parent
    and of the maintainer lead, and the names of the maintainers up to
    their order. *)
Definition specs_agree (a b : ProjectSpec) : Prop :=
  DisplayName a = DisplayName b /\
  Maturity a = Maturity b /\
  MailingList a = MailingList b /\
  OnboardingIssue a = OnboardingIssue b /\
  ref_name (ParentProjectRef a) = ref_name (ParentProjectRef b) /\
  ref_name (MaintainerLeadRef a) = ref_name (MaintainerLeadRef b) /\
  map Apis.Name (MaintainerRefs a) ≡ₚ map Apis.Name (MaintainerRefs b).

Definition is_get (ev : event K8sE) : bool :=
  match ev with
  | Event (Get _) _ => true
  | _ => false
  end.

(** Every object of the cluster is stored under its own namespace and
    name. *)
Definition well_keyed (c : gmap (string * string) Apis.Project) : Prop :=
  forall ns name obj, c !! (ns, name) = Some obj -> Namespace obj = ns /\ ObjectName obj = name.


(** The cluster holds a Project CR for the row [p] that projectSpecEqual
    does not tell apart from the spec the sync job builds for [p]. *)
Definition in_sync (ToLower TrimSpace : string -> string) (ns : string)
    (parentNameByID : gmap N string) (c : gmap (string * string) Apis.Project)
    (p : Model.Project.t) : Prop :=
  exists obj,
    c !! (ns, sanitizeName ToLower TrimSpace (Project.Name p)) = Some obj /\
    projectSpecEqual (Spec obj) (desiredSpec ToLower TrimSpace parentNameByID p) = true.




(** A call that ended the run: a Get answered with an error other than
    NotFound, or a Create or Update answered with an error. *)
Definition answer_failed (ev : event K8sE) : bool :=
  match ev with
  | Event e x =>
      match e in K8sE X return X -> bool with
      | Get _ => fun got => match got with inr err => negb (IsNotFound err) | inl _ => false end
      | Create _ | Update _ => fun err => match err with Some _ => true | None => false end
      end x
  end.

(** The rows a run handled, by their calls: a run that returns nil handled
    all [n] rows and no call failed; a run that returns an error stopped
    at the row whose call failed, after rows none of whose calls did. *)
Definition stopped_by_failure (n k : nat) (result : option error)
    (trs : list (list (event K8sE))) : Prop :=
  match result with
  | None => k = n /\ Forall (fun tr => existsb answer_failed tr = false) trs
  | Some _ =>
      exists before tr,
        trs = (before ++ [tr])%list /\
        Forall (fun tr => existsb answer_failed tr = false) before /\
        existsb answer_failed tr = true
  end.

End Sync.

(* ===================================================================== *)
(** ** package onboarding: the webhook server                              *)
(* ===================================================================== *)

Module Onboarding.
Import Model Errors Prog.

Definition nl : string := String "010" EmptyString.

(** fossa.Team, as far as the handler reads it *)
Record Team : Type := mkTeam { TeamID : Z; TeamName : string }.

(** go-github's IssuesEvent as the handler reads it, through the nil-safe
    getters: a missing title, name, login or number reads as "" or 0.
    [Issue] itself is a pointer the handler also dereferences directly. *)
Record Issue : Type := mkIssue {
  Title : string;          (* GetTitle() *)
  URL : string;            (* GetURL() *)
  Number : Z;              (* GetNumber() *)
  Labels : list string     (* GetName() of each label *)
}.

Record IssuesEvent : Type := mkIssuesEvent {
  Action : string;             (* GetAction() *)
  EventIssue : option Issue;   (* Issue *)
  RepoOwnerLogin : string;     (* GetRepo().GetOwner().GetLogin() *)
  RepoName : string            (* GetRepo().GetName() *)
}.

(** What github.ParseWebHook returns: the one type the handler switches
    on, or any other event. *)
Inductive WebhookEvent : Type :=
| IsIssuesEvent (e : IssuesEvent)
| OtherEvent.

(** The calls the handler makes: the store, the FOSSA client, and the
    GitHub client. *)
Inductive WebhookE : Type -> Type :=
| StoreGetMaintainersByProject (projectID : N)
    : WebhookE (option (list Maintainer.t) * option error)
| StoreGetProjectServiceTeamMap (serviceName : string)
    : WebhookE (gmap N ServiceTeam.t * option error)
| StoreCreateServiceTeam (projectID : N) (projectName : string)
                         (serviceID : Z) (serviceName : string)
    : WebhookE (option error)
| FossaCreateTeam (name : string) : WebhookE (Team + error)
| FossaSendUserInvitation (email : string) : WebhookE (option error)
| GitHubCreateComment (owner repo : string) (number : Z) (body : string)
    : WebhookE (option error).

Definition is_comment {X} (e : WebhookE X) : bool :=
  match e with
  | GitHubCreateComment _ _ _ _ => true
  | _ => false
  end.

(** What is written to the http.ResponseWriter. *)
Record Response : Type := mkResponse { StatusCode : Z; Body : string }.

Definition StatusOK : Z := 200.
Definition StatusBadRequest : Z := 400.
Definition StatusUnauthorized : Z := 401.

(** http.Error(w, msg, code) *)
Definition http_Error (msg : string) (code : Z) : Response :=
  {| StatusCode := code; Body := msg ++ nl |}.

Section Listener.
(** go-github: [github.ValidatePayload] checks the HMAC signature of the
    request body against the secret and returns the payload;
    [github.WebHookType] reads the event-type header;
    [github.ParseWebHook] decodes the payload. *)
Context {Request Payload : Type}.
Variable ValidatePayload : Request -> string -> Payload + error.
Variable WebHookType : Request -> string.
Variable ParseWebHook : string -> Payload -> WebhookEvent + error.
(** GetProjectNameFromProjectTitle is code of this repository that is not
    among the sources; the handler only depends on whether it fails. *)
Variable GetProjectNameFromProjectTitle : string -> string + error.
(** fmt's %v of a model.Project *)
Variable fmt_v_Project : Project.t -> string.

Record EventListener : Type := mkEventListener {
  Secret : string;
  Projects : gmap string Project.t
}.

(** the loop over the maintainers at the end of signProjectUpForFOSSA *)
Fixpoint send_invitations (maintainers : list Maintainer.t) (actions : list string)
  : prog WebhookE (list string) :=
  match maintainers with
  | [] => mret actions
  | maintainer :: rest =>
      err ← call (FossaSendUserInvitation (Maintainer.Email maintainer));
      match err with
      | Some err =>
          if Is err ErrInviteAlreadyExists then
            send_invitations rest (Go.append actions
              ("@" ++ Maintainer.GitHubAccount maintainer ++
               " : you have a pending invitation to join CNCF FOSSA. Please check your registered email and accept the invitation within 48 hours."))
          else if Is err ErrUserAlreadyMember then
            send_invitations rest actions
          else
            send_invitations rest (Go.append actions
              ("@" ++ Maintainer.GitHubAccount maintainer ++
               " : there was a problem sending a CNCF FOSSA invitation to you."))
      | None => send_invitations rest actions
      end
  end.

Definition team_url (id : Z) : string :=
  "https://app.fossa.com/account/settings/organization/teams/" ++ Fmt.itoa id.

(** signProjectUpForFOSSA *)
Definition signProjectUpForFOSSA (project : Project.t)
  : prog WebhookE (list string * option error) :=
  let actions : list string := [] in
  (* Check for maintainers registered for this project *)
  '(maintainers, err) ← call (StoreGetMaintainersByProject (row_ID project));
  match err with
  | Some _ =>
      mret (Go.append actions
              (":x: " ++ Project.Name project ++ " maintainers are not yet registered."),
            Some (errorString
              ("signProjectUpForFOSSA: no maintainers found for project " ++
               fmt_v_Project project ++ ", project ID")))
  | None =>
      let maintainers := default [] maintainers in
      let actions := Go.append actions
        ("✅  " ++ Project.Name project ++ " has " ++
         Fmt.itoa (Z.of_nat (length maintainers)) ++ " registered maintainers") in
      (* Do we have a team already in FOSSA for @project? *)
      '(serviceTeams, err) ← call (StoreGetProjectServiceTeamMap "FOSSA");
      let actions :=
        match err with
        | Some err =>
            Go.append actions (":warning: Problem retrieving serviceTeams.  " ++ Error err)
        | None => actions
        end in
      actions ←
        match serviceTeams !! row_ID project with
        | Some st =>
            mret (Go.append actions
                    ("👥 [" ++ Project.Name project ++ " team](" ++
                     team_url (ServiceTeam.ServiceTeamID st) ++ ") was already in FOSSA"))
        | None =>
            (* create the team on FOSSA, add the team to the ServiceTeams *)
            created ← call (FossaCreateTeam (Project.Name project));
            match created with
            | inr err =>
                mret (Go.append actions
                        (":x: Problem creating team on FOSSA for " ++ Project.Name project ++
                         ": " ++ Error err))
            | inl team =>
                _ ← call (StoreCreateServiceTeam (row_ID project) (Project.Name project)
                            (TeamID team) (TeamName team));
                mret (Go.append actions
                        ("👥  [" ++ TeamName team ++ " team](" ++ team_url (TeamID team) ++
                         ") has been created in FOSSA"))
            end
        end;
      if (length maintainers =? 0)%nat then
        mret (Go.append actions
                ("Maintainers not yet registered, for project " ++ Project.Name project),
              Some (errorString (":x: no maintainers found for project " ++
                                 Fmt.utoa (row_ID project))))
      else
        actions ← send_invitations maintainers actions;
        mret (actions, None)
  end.

(** the Markdown comment built from the result of the sign-up *)
Definition report_header : string :=
  "###  🧪 maintainerd - CNCF FOSSA Onboarding Report" ++ nl ++ nl ++
  "#### :spiral_notepad: Actions taken during onboarding..." ++ nl ++ nl.

Definition bullets (actions : list string) : string :=
  fold_left (fun comment action => comment ++ "- " ++ action ++ nl) actions "".

Definition error_line (err : error) : string :=
  nl ++ "❌ Onboarding encountered some problems: `" ++ Error err ++ "`" ++ nl.

Definition instructions (projectName : string) : string :=
  "---" ++ nl ++ nl ++
  "Once accepted:" ++ nl ++ nl ++
  "- 👤 The CNCF Projects Team *must first* add you to the " ++ projectName ++
  " team as a **Team Admin** ([FOSSA RBAC](https://docs.fossa.com/docs/role-based-access-control#team-roles))." ++ nl ++ nl ++
  "- 📦 Then, _and only then_, can you start importing your code and documentation repositories into FOSSA: [Getting Started Guide](https://docs.fossa.com/docs/getting-started#importing-a-project)." ++ nl ++ nl.

Definition report (projectName : string) (actions : list string) (err : option error) : string :=
  report_header ++ bullets actions ++
  match err with
  | Some err => error_line err
  | None => instructions projectName
  end.

(** the body of the loop over the labels, for one label *)
Definition on_label (s : EventListener) (e : IssuesEvent) (issue : Issue) (name : string)
  : prog WebhookE unit :=
  if String.eqb name "fossa" then
    match GetProjectNameFromProjectTitle (Title issue) with
    | inr _ => mret tt
    | inl projectName =>
        (* Get Project from db *)
        let project := default Project.zero (Projects s !! projectName) in
        '(actions, err) ← signProjectUpForFOSSA project;
        (* Format the steps as a Markdown comment *)
        let comment := report projectName actions err in
        _ ← call (GitHubCreateComment (RepoOwnerLogin e) (RepoName e) (Number issue) comment);
        mret tt
    end
  else mret tt.

Fixpoint on_labels (s : EventListener) (e : IssuesEvent) (issue : Issue) (labels : list string)
  : prog WebhookE unit :=
  match labels with
  | [] => mret tt
  | name :: rest => _ ← on_label s e issue name; on_labels s e issue rest
  end.

(** handleWebhook *)
Definition handleWebhook (s : EventListener) (r : Request)
  : prog WebhookE (Go.outcome Response) :=
  match ValidatePayload r (Secret s) with
  | inr _ =>
      mret (Go.Returned
              (http_Error "handleWebhook: github.ValidatePayload, invalid signature"
                          StatusUnauthorized))
  | inl payload =>
      match ParseWebHook (WebHookType r) payload with
      | inr _ =>
          mret (Go.Returned (http_Error "handleWebhook: could not parse event" StatusBadRequest))
      | inl event =>
          match event with
          | IsIssuesEvent e =>
              if negb (String.eqb (Action e) "labeled") then
                mret (Go.Returned {| StatusCode := StatusOK; Body := "" |})
              else
                match EventIssue e with
                | None => mret Go.Panicked      (* e.Issue.Labels on a nil Issue *)
                | Some issue =>
                    _ ← on_labels s e issue (Labels issue);
                    mret (Go.Returned {| StatusCode := StatusOK; Body := "" |})
                end
          | OtherEvent => mret (Go.Returned {| StatusCode := StatusOK; Body := "" |})
          end
      end
  end.

End Listener.

(** *** Vocabulary of the statements about the webhook *)

(** how often the issue carries the label *)
Definition label_count (name : string) (issue : Issue) : nat :=
  length (List.filter (String.eqb name) (Labels issue)).

(** one Markdown bullet per action *)
Definition bullet_list (actions : list string) : string :=
  String.concat "" (map (fun action => "- " ++ action ++ nl) actions).

Definition event_is_comment (ev : event WebhookE) : bool :=
  match ev with Event e _ => is_comment e end.

Definition not_comment (X : Type) (e : WebhookE X) : Prop := is_comment e = false.

(** *** A listener to run the examples on *)

(** A request whose signature is the secret itself and whose body is the
    event already decoded, or nothing that decodes. *)
Record SampleRequest : Type := mkSampleRequest {
  signature : string;
  event_type : string;
  body : option WebhookEvent
}.

Definition sample_ValidatePayload (r : SampleRequest) (secret : string)
  : option WebhookEvent + error :=
  if String.eqb (signature r) secret then inl (body r)
  else inr (errorString "payload signature check failed").

Definition sample_ParseWebHook (typ : string) (payload : option WebhookEvent)
  : WebhookEvent + error :=
  match payload with
  | Some ev => inl ev
  | None => inr (errorString ("unknown X-Github-Event in message: " ++ typ))
  end.

(** the title format of the onboarding issues in the tests *)
Definition sample_GetProjectNameFromProjectTitle (title : string) : string + error :=
  let tag := "[PROJECT ONBOARDING] " in
  if String.prefix tag title
  then inl (String.substring (String.length tag) (String.length title - String.length tag) title)
  else inr (errorString "title does not name a project").

(** The store on a database, a FOSSA that creates every team and accepts
    every invitation, and a GitHub that accepts every comment. *)
Definition sample_handler : handler WebhookE Gorm.DB :=
  fun X (e : WebhookE X) =>
    match e in WebhookE X return Gorm.DB -> X * Gorm.DB with
    | StoreGetMaintainersByProject projectID => fun d =>
        (Db.GetMaintainersByProject d projectID, d)
    | StoreGetProjectServiceTeamMap serviceName => fun d =>
        (Db.GetProjectServiceTeamMap d serviceName, d)
    | StoreCreateServiceTeam projectID projectName serviceID serviceName => fun d =>
        let '(d', _, err) := Db.CreateServiceTeam d projectID projectName serviceID serviceName in
        (err, d')
    | FossaCreateTeam name => fun d => (inl {| TeamID := 100; TeamName := name |}, d)
    | FossaSendUserInvitation email => fun d => (None, d)
    | GitHubCreateComment _ _ _ _ => fun d => (None, d)
    end.

Definition sample_listener : EventListener :=
  {| Secret := "s3cret"; Projects := fst (Db.GetProjectMapByName Sample.db) |}.

Definition sample_handleWebhook (r : SampleRequest) : prog WebhookE (Go.outcome Response) :=
  handleWebhook sample_ValidatePayload event_type sample_ParseWebHook
    sample_GetProjectNameFromProjectTitle Project.Name sample_listener r.

Definition labeled_event (title : string) (labels : list string) : WebhookEvent :=
  IsIssuesEvent
    {| Action := "labeled";
       EventIssue := Some {| Title := title; URL := ""; Number := 42; Labels := labels |};
       RepoOwnerLogin := "cncf"; RepoName := "onboarding" |}.


(** *** Vocabulary of the statements about the sign-up *)

(** The e-mail addresses invitations were sent to, in order. *)
Definition invited (tr : list (event WebhookE)) : list string :=
  omap (fun ev => match ev with
                  | Event (FossaSendUserInvitation email) _ => Some email
                  | _ => None
                  end) tr.

(** What the store answered to the first call, the lookup of the
    maintainers. *)
Definition maintainers_read (tr : list (event WebhookE))
  : option (option (list Maintainer.t) * option error) :=
  match tr with
  | Event e x :: _ =>
      match e in WebhookE X return X -> option (option (list Maintainer.t) * option error) with
      | StoreGetMaintainersByProject _ => fun answer => Some answer
      | _ => fun _ => None
      end x
  | [] => None
  end.

(** The service-team maps the store answered with, in order. *)
Definition teams_read (tr : list (event WebhookE)) : list (gmap N ServiceTeam.t) :=
  omap (fun ev => match ev with
                  | Event e x =>
                      match e in WebhookE X return X -> option (gmap N ServiceTeam.t) with
                      | StoreGetProjectServiceTeamMap _ => fun answer => Some (fst answer)
                      | _ => fun _ => None
                      end x
                  end) tr.

(** The calls that concern the project's FOSSA team: its creation on
    FOSSA, with the answer, and its recording in the store. *)
Inductive team_call : Type :=
| TeamCreated (name : string) (answer : Team + error)
| TeamRecorded (projectID : N) (projectName : string) (serviceID : Z) (serviceName : string).

Definition team_calls (tr : list (event WebhookE)) : list team_call :=
  omap (fun ev => match ev with
                  | Event e x =>
                      match e in WebhookE X return X -> option team_call with
                      | FossaCreateTeam name => fun answer => Some (TeamCreated name answer)
                      | StoreCreateServiceTeam pid pname sid sname => fun _ =>
                          Some (TeamRecorded pid pname sid sname)
                      | _ => fun _ => None
                      end x
                  end) tr.

(** The comments posted, in order: repository owner and name, issue
    number and body. *)
Definition comments (tr : list (event WebhookE)) : list (string * string * Z * string) :=
  omap (fun ev => match ev with
                  | Event (GitHubCreateComment owner repo number body) _ =>
                      Some (owner, repo, number, body)
                  | _ => None
                  end) tr.


(** What the calls of one sign-up of [project] are, sorted by what they
    concern; [r] is what the sign-up returns. *)
Definition sign_up_calls (project : Project.t)
    (r : list string * option error) (tr : list (event WebhookE)) : Prop :=
  match maintainers_read tr with
  | Some (_, Some _) => length tr = 1%nat /\ is_Some (snd r)
  | Some (maintainers, None) =>
      invited tr = map Maintainer.Email (default [] maintainers) /\
      (snd r = None <-> default [] maintainers <> []) /\
      exists serviceTeams,
        teams_read tr = [serviceTeams] /\
        match serviceTeams !! row_ID project with
        | Some _ => team_calls tr = []
        | None =>
            exists answer,
              team_calls tr =
                TeamCreated (Project.Name project) answer ::
                match answer with
                | inl team => [TeamRecorded (row_ID project) (Project.Name project)
                                 (TeamID team) (TeamName team)]
                | inr _ => []
                end
        end
  | None => False
  end.

(** Where a comment goes: repository owner and name, and issue number. *)
Definition comment_target (c : string * string * Z * string) : string * string * Z :=
  (c.1.1.1, c.1.1.2, c.1.2).


(** What the labels of an issue lead to when [n] of them are "fossa": [n]
    comments on the issue when its title names a project, and no call at
    all when it does not. *)
Definition label_runs (GetProjectNameFromProjectTitle : string -> string + error)
    (e : IssuesEvent) (issue : Issue) (n : nat) (tr : list (event WebhookE)) : Prop :=
  match GetProjectNameFromProjectTitle (Title issue) with
  | inl _ =>
      map comment_target (comments tr) =
      repeat (RepoOwnerLogin e, RepoName e, Number issue) n
  | inr _ => tr = []
  end.


(** *** The store on a database *)

(** signProjectUpForFOSSA is handed the SQLStore: its calls to the store
    are answered on the database, and its calls to FOSSA and GitHub by
    [outside], which keeps a state of its own and is asked nothing
    else. *)
Definition store_handler {S : Type} (outside : handler WebhookE S)
  : handler WebhookE (Gorm.DB * S) :=
  fun X (e : WebhookE X) =>
    match e in WebhookE X return Gorm.DB * S -> X * (Gorm.DB * S) with
    | StoreGetMaintainersByProject projectID => fun ds =>
        (Db.GetMaintainersByProject ds.1 projectID, ds)
    | StoreGetProjectServiceTeamMap serviceName => fun ds =>
        (Db.GetProjectServiceTeamMap ds.1 serviceName, ds)
    | StoreCreateServiceTeam projectID projectName serviceID serviceName => fun ds =>
        let '(d', _, err) :=
          Db.CreateServiceTeam ds.1 projectID projectName serviceID serviceName in
        (err, (d', ds.2))
    | FossaCreateTeam name => fun ds =>
        let '(x, s') := outside _ (FossaCreateTeam name) ds.2 in (x, (ds.1, s'))
    | FossaSendUserInvitation email => fun ds =>
        let '(x, s') := outside _ (FossaSendUserInvitation email) ds.2 in (x, (ds.1, s'))
    | GitHubCreateComment owner repo number body => fun ds =>
        let '(x, s') := outside _ (GitHubCreateComment owner repo number body) ds.2 in
        (x, (ds.1, s'))
    end.

(** A FOSSA that numbers the teams it creates from its state on and
    accepts every invitation, and a GitHub that accepts every comment. *)
Definition sample_outside : handler WebhookE Z :=
  fun X (e : WebhookE X) =>
    match e in WebhookE X return Z -> X * Z with
    | StoreGetMaintainersByProject _ => fun n => ((None, None), n)
    | StoreGetProjectServiceTeamMap _ => fun n => ((∅, None), n)
    | StoreCreateServiceTeam _ _ _ _ => fun n => (None, n)
    | FossaCreateTeam name => fun n => (inl {| TeamID := n; TeamName := name |}, (n + 1)%Z)
    | FossaSendUserInvitation email => fun n => (None, n)
    | GitHubCreateComment _ _ _ _ => fun n => (None, n)
    end.

(** Whether FOSSA answered a request to create a team with an error. *)
Definition team_refused (tr : list (event WebhookE)) : bool :=
  existsb (fun c => match c with
                    | TeamCreated _ (inr _) => true
                    | _ => false
                    end) (team_calls tr).


(** The project whose maintainers the first call looks up. *)
Definition first_lookup (tr : list (event WebhookE)) : option N :=
  match tr with
  | Event (StoreGetMaintainersByProject projectID) _ :: _ => Some projectID
  | _ => None
  end.

End Onboarding.

(* ===================================================================== *)
(** ** kdp-workspaces: the kcp client and the Project controller           *)
(* ===================================================================== *)

Module Kcp.
Import Go Errors Prog.

Definition DefaultWorkspaceType : string := "kdp-organization".
(** seconds *)
Definition WorkspaceReadyTimeout : Z := 120.
Definition WorkspaceCheckInterval : Z := 5.
(** corev1alpha1.LogicalClusterPhaseReady *)
Definition LogicalClusterPhaseReady : string := "Ready".

Record WorkspaceInfo : Type := mkWorkspaceInfo {
  Name : string;
  URL : string;
  Phase : string;
  Ready : bool
}.

(** tenancyv1alpha1.Workspace, as far as the client writes and reads it *)
Record Workspace : Type := mkWorkspace {
  WsName : string;
  WsAnnotations : list (string * string);
  WsTypeName : string;
  WsTypePath : string;
  WsURL : string;         (* Spec.URL *)
  WsPhase : string        (* Status.Phase *)
}.

Record Config : Type := mkConfig {
  KCPURL : string;
  WorkspacePath : string;
  Kubeconfig : string
}.

(** rest.Config: the host, and the rest of the parsed kubeconfig *)
Record RestConfig : Type := mkRestConfig { Host : string; Credentials : string }.

Record Client : Type := mkClient {
  clusterClient : RestConfig;
  workspacePath : string
}.

(** types.NamespacedName *)
Record NamespacedName : Type := mkNamespacedName { KeyName : string; KeyNamespace : string }.

(** metav1.PartialObjectMetadata of a Project *)
Record ProjectMeta : Type := mkProjectMeta {
  PName : string;
  PNamespace : string;
  PGeneration : Z;
  PAnnotations : list (string * string)
}.

(** metav1.Condition without LastTransitionTime, a clock reading *)
Record Condition : Type := mkCondition {
  Type_ : string;
  Status : string;
  Reason : string;
  Message : string;
  ObservedGeneration : Z
}.

Definition ConditionTrue : string := "True".
Definition ConditionFalse : string := "False".

(** What an [interface{}] inside an unstructured object can hold: the
    types json.Unmarshal produces, and, once updateCondition has stored
    it, a [[]metav1.Condition]. *)
#[local] Unset Elimination Schemes.
Inductive value : Type :=
| VNull
| VString (s : string)
| VInt64 (z : Z)
| VBool (b : bool)
| VMap (m : list (string * value))      (* map[string]interface{} *)
| VSlice (l : list value)               (* []interface{} *)
| VConditions (cs : list Condition).    (* []metav1.Condition *)
#[local] Set Elimination Schemes.

(** unstructured.Unstructured: its Object map *)
Record Unstructured : Type := mkUnstructured { Object : list (string * value) }.

(** m[key], nil when absent *)
Fixpoint index (m : list (string * value)) (key : string) : value :=
  match m with
  | [] => VNull
  | (k, v) :: rest => if String.eqb k key then v else index rest key
  end.

(** m[key] = v *)
Fixpoint assign (m : list (string * value)) (key : string) (v : value)
  : list (string * value) :=
  match m with
  | [] => [(key, v)]
  | (k, w) :: rest => if String.eqb k key then (k, v) :: rest else (k, w) :: assign rest key v
  end.

(** runtime.DeepCopyJSONValue returns a copy of a JSON value and panics
    ("cannot deep copy %T") on any other type: [json_value v] says that
    [v] is one it copies. *)
Fixpoint json_value (v : value) : bool :=
  match v with
  | VNull | VString _ | VInt64 _ | VBool _ => true
  | VMap m => forallb (fun kv => json_value (snd kv)) m
  | VSlice l => forallb json_value l
  | VConditions _ => false
  end.

(** unstructured.SetNestedField(obj, value, field) for one field name *)
Definition SetNestedField (obj : list (string * value)) (v : value) (field : string)
  : outcome (list (string * value)) :=
  if json_value v then Returned (assign obj field v) else Panicked.

(** The calls made by the controller and by the kcp client: the
    controller-runtime client, client-go's kubeconfig loader, the kcp
    clientset, and the timer of wait.PollUntilContextTimeout ([PollTick]
    answers [false] when the timeout or the context ends the wait). *)
Inductive OperatorE : Type -> Type :=
| K8sGetProject (key : NamespacedName) : OperatorE (ProjectMeta + error)
| K8sGetConfigMap (key : NamespacedName) : OperatorE (list (string * string) + error)
| K8sGetSecret (key : NamespacedName) : OperatorE (list (string * string) + error)
| K8sGetUnstructured (key : NamespacedName) : OperatorE (Unstructured + error)
| K8sUpdate (project : ProjectMeta) : OperatorE (option error)
| K8sStatusUpdate (obj : Unstructured) : OperatorE (option error)
| RESTConfigFromKubeConfig (kubeconfig : string) : OperatorE (RestConfig + error)
| NewForConfig (cfg : RestConfig) : OperatorE (option error)
| WorkspacesGet (path name : string) : OperatorE (Workspace + error)
| WorkspacesCreate (path : string) (ws : Workspace) : OperatorE (Workspace + error)
| PollTick : OperatorE bool.

(** data[key] of a ConfigMap or Secret, "" when absent *)
Fixpoint data_index (m : list (string * string)) (key : string) : string :=
  match m with
  | [] => ""
  | (k, v) :: rest => if String.eqb k key then v else data_index rest key
  end.

(** NewClient *)
Definition NewClient (cfg : option Config) : prog OperatorE (option Client * option error) :=
  match cfg with
  | None => mret (None, Some (errorString "config cannot be nil"))
  | Some cfg =>
      if (String.length (Kubeconfig cfg) =? 0)%nat then
        mret (None, Some (errorString "kubeconfig cannot be empty"))
      else
        (* Create rest.Config from kubeconfig *)
        parsed ← call (RESTConfigFromKubeConfig (Kubeconfig cfg));
        match parsed with
        | inr err =>
            mret (None, Some (wrapf "failed to create rest config from kubeconfig" err))
        | inl restConfig =>
            (* Override the host if KCPURL is provided *)
            let restConfig :=
              if negb (String.eqb (KCPURL cfg) "")
              then {| Host := KCPURL cfg; Credentials := Credentials restConfig |}
              else restConfig in
            (* Create kcp cluster client *)
            made ← call (NewForConfig restConfig);
            match made with
            | Some err => mret (None, Some (wrapf "failed to create kcp cluster client" err))
            | None =>
                let workspacePath :=
                  if String.eqb (WorkspacePath cfg) "" then "root" else WorkspacePath cfg in
                mret (Some {| clusterClient := restConfig; workspacePath := workspacePath |},
                      None)
            end
        end
  end.

(** LoadConfigFromCluster *)
Definition LoadConfigFromCluster (configMapName secretName namespace : string)
  : prog OperatorE (option Config * option error) :=
  (* Load ConfigMap *)
  configMap ← call (K8sGetConfigMap {| KeyName := configMapName; KeyNamespace := namespace |});
  match configMap with
  | inr err =>
      mret (None, Some (wrapf ("failed to get ConfigMap " ++ namespace ++ "/" ++ configMapName) err))
  | inl configMapData =>
      (* Load Secret *)
      secret ← call (K8sGetSecret {| KeyName := secretName; KeyNamespace := namespace |});
      match secret with
      | inr err =>
          mret (None, Some (wrapf ("failed to get Secret " ++ namespace ++ "/" ++ secretName) err))
      | inl secretData =>
          (* Extract configuration *)
          let kcpURL := data_index configMapData "kcp-url" in
          let workspacePath := data_index configMapData "kcp-workspace-path" in
          let kubeconfig := data_index secretData "kubeconfig" in
          if (String.length kubeconfig =? 0)%nat then
            mret (None, Some (errorString ("kubeconfig not found in secret " ++
                                           namespace ++ "/" ++ secretName)))
          else
            mret (Some {| KCPURL := kcpURL; WorkspacePath := workspacePath;
                          Kubeconfig := kubeconfig |}, None)
      end
  end.

Definition info_of (ws : Workspace) : WorkspaceInfo :=
  {| Name := WsName ws; URL := WsURL ws; Phase := WsPhase ws;
     Ready := String.eqb (WsPhase ws) LogicalClusterPhaseReady |}.

(** Client.CreateWorkspace *)
Definition CreateWorkspace (c : Client)
    (projectName projectNamespace projectResourceName workspaceType : string)
  : prog OperatorE (option WorkspaceInfo * option error) :=
  if String.eqb projectName "" then
    mret (None, Some (errorString "project name cannot be empty"))
  else
    let workspaceType :=
      if String.eqb workspaceType "" then DefaultWorkspaceType else workspaceType in
    let workspace :=
      {| WsName := projectName;
         WsAnnotations := [("managed-by", "kdp-workspace-operator");
                           ("project-namespace", projectNamespace);
                           ("project-name", projectResourceName)];
         WsTypeName := workspaceType;
         WsTypePath := "root";
         WsURL := "";
         WsPhase := "" |} in
    created ← call (WorkspacesCreate (workspacePath c) workspace);
    match created with
    | inr err => mret (None, Some (wrapf ("failed to create workspace " ++ projectName) err))
    | inl createdWs => mret (Some (info_of createdWs), None)
    end.

(** Client.GetWorkspace: (nil, nil) when the workspace does not exist *)
Definition GetWorkspace (c : Client) (workspaceName : string)
  : prog OperatorE (option WorkspaceInfo * option error) :=
  if String.eqb workspaceName "" then
    mret (None, Some (errorString "workspace name cannot be empty"))
  else
    got ← call (WorkspacesGet (workspacePath c) workspaceName);
    match got with
    | inr err =>
        if IsNotFound err then mret (None, None)
        else mret (None, Some (wrapf ("failed to get workspace " ++ workspaceName) err))
    | inl ws => mret (Some (info_of ws), None)
    end.

(** The polls that fit into the timeout: one at once, then one per
    interval. *)
Definition max_polls : nat := S (Z.to_nat (WorkspaceReadyTimeout / WorkspaceCheckInterval)).

Definition DeadlineExceeded : error := errorString "context deadline exceeded".

(** wait.PollUntilContextTimeout with the condition of
    WaitForWorkspaceReady; returns lastInfo and the error of the wait *)
Fixpoint poll_ready (polls : nat) (c : Client) (workspaceName : string)
    (lastInfo : option WorkspaceInfo) : prog OperatorE (option WorkspaceInfo * option error) :=
  match polls with
  | O => mret (lastInfo, Some DeadlineExceeded)
  | S polls =>
      '(info, err) ← GetWorkspace c workspaceName;
      match err with
      | Some err => mret (lastInfo, Some err)
      | None =>
          match info with
          | None => mret (lastInfo, Some (errorString ("workspace " ++ workspaceName ++ " not found")))
          | Some info =>
              if Ready info then mret (Some info, None)
              else
                again ← call PollTick;
                if again : bool then poll_ready polls c workspaceName (Some info)
                else mret (Some info, Some DeadlineExceeded)
          end
      end
  end.

(** Client.WaitForWorkspaceReady *)
Definition WaitForWorkspaceReady (c : Client) (workspaceName : string)
  : prog OperatorE (option WorkspaceInfo * option error) :=
  if String.eqb workspaceName "" then
    mret (None, Some (errorString "workspace name cannot be empty"))
  else
    '(lastInfo, err) ← poll_ready max_polls c workspaceName None;
    match err with
    | Some err =>
        match lastInfo with
        | Some info =>
            mret (Some info,
                  Some (wrapf ("workspace " ++ workspaceName ++
                               " not ready after timeout, current phase: " ++ Phase info) err))
        | None =>
            mret (None, Some (wrapf ("failed to wait for workspace " ++ workspaceName ++
                                     " to be ready") err))
        end
    | None => mret (lastInfo, None)
    end.

End Kcp.

Module Controller.
Import Go Errors Prog Kcp.

Definition WorkspaceReadyCondition : string := "WorkspaceReady".
Definition AnnotationWorkspaceName : string := "kdp-workspaces.cncf.io/workspace-name".
Definition AnnotationWorkspaceURL : string := "kdp-workspaces.cncf.io/workspace-url".
Definition AnnotationWorkspacePhase : string := "kdp-workspaces.cncf.io/workspace-phase".

Record ProjectReconciler : Type := mkProjectReconciler {
  KCPConfigMapName : string;
  KCPConfigMapNamespace : string;
  KCPSecretName : string;
  KCPSecretNamespace : string;
  WorkspaceType : string
}.

(** ctrl.Result: RequeueAfter in seconds, 0 for none *)
Record Result : Type := mkResult { RequeueAfter : Z }.

(** the conditions parsed back from status.conditions *)
Definition as_string (v : value) : string :=
  match v with VString s => s | _ => "" end.

Definition parse_condition (condRaw : value) : option Condition :=
  match condRaw with
  | VMap condMap =>
      Some {| Type_ := as_string (index condMap "type");
              Status := as_string (index condMap "status");
              Reason := as_string (index condMap "reason");
              Message := as_string (index condMap "message");
              ObservedGeneration := 0 |}
  | _ => None
  end.

Definition parse_conditions (obj : list (string * value)) : list Condition :=
  match index obj "status" with
  | VMap statusMap =>
      match index statusMap "conditions" with
      | VSlice conditionsRaw => omap parse_condition conditionsRaw
      | _ => []
      end
  | _ => []
  end.

(** meta.SetStatusCondition *)
Fixpoint SetStatusCondition (conditions : list Condition) (newCondition : Condition)
  : list Condition :=
  match conditions with
  | [] => [newCondition]
  | existing :: rest =>
      if String.eqb (Type_ existing) (Type_ newCondition)
      then {| Type_ := Type_ existing;
              Status := Status newCondition;
              Reason := Reason newCondition;
              Message := Message newCondition;
              ObservedGeneration := ObservedGeneration newCondition |} :: rest
      else existing :: SetStatusCondition rest newCondition
  end.

(** updateCondition *)
Definition updateCondition (project : ProjectMeta) (condition : Condition)
  : prog OperatorE (outcome (option error)) :=
  (* Get the current project using unstructured to access status *)
  got ← call (K8sGetUnstructured {| KeyName := PName project; KeyNamespace := PNamespace project |});
  match got with
  | inr err => mret (Returned (Some (wrapf "failed to get current project" err)))
  | inl currentProject =>
      (* Extract conditions from status if they exist *)
      let conditions := parse_conditions (Object currentProject) in
      (* Set or update the condition *)
      let conditions := SetStatusCondition conditions condition in
      (* Update the status *)
      let statusMap :=
        match index (Object currentProject) "status" with
        | VMap status => status
        | _ => []
        end in
      let statusMap := assign statusMap "conditions" (VConditions conditions) in
      match SetNestedField (Object currentProject) (VMap statusMap) "status" with
      | Panicked => mret Panicked
      | Returned obj =>
          err ← call (K8sStatusUpdate {| Object := obj |});
          match err with
          | Some err => mret (Returned (Some (wrapf "failed to update status" err)))
          | None => mret (Returned None)
          end
      end
  end.

(** updateWorkspaceStatus *)
Definition set_annotation (m : list (string * string)) (key v : string)
  : list (string * string) :=
  (key, v) :: List.filter (fun kv => negb (String.eqb (fst kv) key)) m.

Definition updateWorkspaceStatus (project : ProjectMeta) (info : WorkspaceInfo)
  : prog OperatorE (outcome (option error)) :=
  (* Update annotations with workspace details *)
  let annotations := set_annotation (PAnnotations project) AnnotationWorkspaceName (Name info) in
  let annotations := set_annotation annotations AnnotationWorkspaceURL (URL info) in
  let annotations := set_annotation annotations AnnotationWorkspacePhase (Phase info) in
  let project := {| PName := PName project; PNamespace := PNamespace project;
                    PGeneration := PGeneration project; PAnnotations := annotations |} in
  err ← call (K8sUpdate project);
  match err with
  | Some err => mret (Returned (Some (wrapf "failed to update annotations" err)))
  | None =>
      (* Update condition based on workspace readiness *)
      let condition :=
        if Ready info then
          {| Type_ := WorkspaceReadyCondition; Status := ConditionTrue;
             Reason := "WorkspaceReady";
             Message := "Workspace " ++ Name info ++ " is ready at " ++ URL info;
             ObservedGeneration := PGeneration project |}
        else
          {| Type_ := WorkspaceReadyCondition; Status := ConditionFalse;
             Reason := "WorkspaceNotReady";
             Message := "Workspace " ++ Name info ++ " is in phase " ++ Phase info;
             ObservedGeneration := PGeneration project |} in
      updateCondition project condition
  end.

(** the condition Reconcile records on a failure *)
Definition failure_condition (reason message : string) : Condition :=
  {| Type_ := WorkspaceReadyCondition; Status := ConditionFalse;
     Reason := reason; Message := message; ObservedGeneration := 0 |}.

(** [if updateErr := r.updateCondition(...); updateErr != nil { log }]
    followed by the return of [res]: the error of the update is logged
    and dropped, a panic is not. *)
Definition record_then_return (project : ProjectMeta) (condition : Condition)
    (res : Result * option error) : prog OperatorE (outcome (Result * option error)) :=
  updated ← updateCondition project condition;
  match updated with
  | Panicked => mret Panicked
  | Returned _ => mret (Returned res)
  end.

Section Reconcile.
(** strings.ToLower *)
Variable ToLower : string -> string.

(** Reconcile, from the workspace check on *)
Definition reconcile_workspace (r : ProjectReconciler) (project : ProjectMeta)
    (kcpClient : Client) : prog OperatorE (outcome (Result * option error)) :=
  (* Derive workspace name from Project name (must be DNS-1123 compliant) *)
  let workspaceName := ToLower (PName project) in
  (* Check if workspace already exists *)
  '(workspaceInfo, err) ← GetWorkspace kcpClient workspaceName;
  match err with
  | Some err =>
      record_then_return project
        (failure_condition "WorkspaceCheckError" ("Failed to check workspace: " ++ Error err))
        ({| RequeueAfter := 60 |}, Some err)
  | None =>
      match workspaceInfo with
      | Some workspaceInfo =>
          (* Workspace already exists: update status with workspace details *)
          updated ← updateWorkspaceStatus project workspaceInfo;
          match updated with
          | Panicked => mret Panicked
          | Returned (Some err) => mret (Returned ({| RequeueAfter := 0 |}, Some err))
          | Returned None =>
              (* Requeue if workspace is not ready yet *)
              if negb (Ready workspaceInfo)
              then mret (Returned ({| RequeueAfter := 5 |}, None))
              else mret (Returned ({| RequeueAfter := 0 |}, None))
          end
      | None =>
          (* Workspace doesn't exist, create it.
             Update condition to indicate creation in progress *)
          updated ← updateCondition project
                      {| Type_ := WorkspaceReadyCondition; Status := ConditionFalse;
                         Reason := "Creating"; Message := "Creating workspace in kcp";
                         ObservedGeneration := 0 |};
          match updated with
          | Panicked => mret Panicked
          | Returned _ =>
              let workspaceType :=
                if String.eqb (WorkspaceType r) "" then DefaultWorkspaceType
                else WorkspaceType r in
              '(createdInfo, err) ← CreateWorkspace kcpClient workspaceName
                                      (PNamespace project) (PName project) workspaceType;
              match err with
              | Some err =>
                  record_then_return project
                    (failure_condition "CreationFailed"
                       ("Workspace creation failed: " ++ Error err))
                    ({| RequeueAfter := 30 |}, Some err)
              | None =>
                  match createdInfo with
                  | None => mret Panicked       (* createdInfo.Phase *)
                  | Some createdInfo =>
                      (* Wait for workspace to be ready (with timeout) *)
                      '(readyInfo, err) ← WaitForWorkspaceReady kcpClient workspaceName;
                      match err with
                      | Some err =>
                          (* Update status with current info *)
                          updated ← updateWorkspaceStatus project createdInfo;
                          match updated with
                          | Panicked => mret Panicked
                          | Returned _ => mret (Returned ({| RequeueAfter := 30 |}, Some err))
                          end
                      | None =>
                          match readyInfo with
                          | None => mret Panicked   (* info.Name in updateWorkspaceStatus *)
                          | Some readyInfo =>
                              (* Update status with workspace details *)
                              updated ← updateWorkspaceStatus project readyInfo;
                              match updated with
                              | Panicked => mret Panicked
                              | Returned (Some err) =>
                                  mret (Returned ({| RequeueAfter := 0 |}, Some err))
                              | Returned None => mret (Returned ({| RequeueAfter := 0 |}, None))
                              end
                          end
                      end
                  end
              end
          end
      end
  end.

(** Reconcile, once the Project is fetched *)
Definition reconcile_project (r : ProjectReconciler) (project : ProjectMeta)
  : prog OperatorE (outcome (Result * option error)) :=
  (* Load kcp configuration from ConfigMap and Secret *)
  '(kcpConfig, err) ← LoadConfigFromCluster (KCPConfigMapName r) (KCPSecretName r)
                        (KCPConfigMapNamespace r);
  match err with
  | Some err =>
      record_then_return project
        (failure_condition "ConfigurationError"
           ("Failed to load kcp configuration: " ++ Error err))
        ({| RequeueAfter := 60 |}, Some err)
  | None =>
      (* Create kcp client *)
      '(kcpClient, err) ← NewClient kcpConfig;
      match err with
      | Some err =>
          record_then_return project
            (failure_condition "KCPConnectionError"
               ("Failed to create kcp client: " ++ Error err))
            ({| RequeueAfter := 60 |}, Some err)
      | None =>
          match kcpClient with
          | None => mret Panicked              (* a method call on a nil *Client *)
          | Some kcpClient => reconcile_workspace r project kcpClient
          end
      end
  end.

(** Reconcile *)
Definition Reconcile (r : ProjectReconciler) (req : NamespacedName)
  : prog OperatorE (outcome (Result * option error)) :=
  (* Fetch the Project resource *)
  got ← call (K8sGetProject req);
  match got with
  | inr err =>
      if IsNotFound err then mret (Returned ({| RequeueAfter := 0 |}, None))
      else mret (Returned ({| RequeueAfter := 0 |}, Some err))
  | inl project => reconcile_project r project
  end.

End Reconcile.

(** *** One workspace per project, as a property of the calls *)

(** What a reconcile has done so far towards the workspace: nothing;
    fetched the Project, whose workspace is to be called [name]; been told
    by kcp that [name] is absent under [path]; or settled the matter (the
    workspace exists, was created, or an error ended the attempt). *)
Inductive progress : Type :=
| Started
| Fetched (name : string)
| Absent (path name : string)
| Settled.

Section Monitor.
Variable ToLower : string -> string.

(** The calls a reconcile may make in each state; [None] is a violation.
    A workspace is looked up by the lowercased Project name; it is created
    only right after kcp reported it absent, under that name, once. *)
Definition allowed (st : progress) (ev : event OperatorE) : option progress :=
  match ev with
  | Event e x =>
      match e in OperatorE X return X -> option progress with
      | K8sGetProject _ => fun x =>
          match st, x with
          | Started, inl project => Some (Fetched (ToLower (PName project)))
          | Started, inr _ => Some Settled
          | _, _ => None
          end
      | WorkspacesGet path name => fun x =>
          match st with
          | Fetched expected =>
              if String.eqb name expected then
                match x with
                | inl _ => Some Settled
                | inr err => if IsNotFound err then Some (Absent path name) else Some Settled
                end
              else None
          | Settled => Some Settled
          | Started | Absent _ _ => None
          end
      | WorkspacesCreate path ws => fun _ =>
          match st with
          | Absent path' name =>
              if String.eqb path path' && String.eqb (WsName ws) name
              then Some Settled else None
          | _ => None
          end
      | _ => fun _ => Some st
      end x
  end.

Fixpoint accepted (st : progress) (tr : list (event OperatorE)) : bool :=
  match tr with
  | [] => true
  | ev :: tr =>
      match allowed st ev with
      | Some st' => accepted st' tr
      | None => false
      end
  end.

(** A program all of whose runs are accepted from [st]. *)
Fixpoint safe {R : Type} (st : progress) (p : prog OperatorE R) : Prop :=
  match p with
  | Ret _ => True
  | Vis e k =>
      forall x, match allowed st (Event e x) with
                | Some st' => safe st' (k x)
                | None => False
                end
  end.

End Monitor.

(** Calls that concern neither the Project fetch nor kcp workspaces. *)
Definition quiet (X : Type) (e : OperatorE X) : Prop :=
  match e with
  | K8sGetProject _ | WorkspacesGet _ _ | WorkspacesCreate _ _ => False
  | _ => True
  end.

(** Calls that are quiet or read a workspace. *)
Definition reads_only (X : Type) (e : OperatorE X) : Prop :=
  match e with
  | K8sGetProject _ | WorkspacesCreate _ _ => False
  | _ => True
  end.

Definition is_status_update (ev : event OperatorE) : bool :=
  match ev with
  | Event (K8sStatusUpdate _) _ => true
  | _ => false
  end.

Definition no_status_update (X : Type) (e : OperatorE X) : Prop :=
  match e with
  | K8sStatusUpdate _ => False
  | _ => True
  end.

(** *** A kcp that stores workspaces, next to any other API behaviour *)

(** The workspaces under each path, in creation order.  Create stores
    whatever it is given: nothing in this kcp refuses a second workspace
    of the same name. *)
Definition workspaces : Type := list (string * Workspace).

Definition find_workspace (wss : workspaces) (path name : string) : option Workspace :=
  snd <$> List.find (fun pw => String.eqb (fst pw) path && String.eqb (WsName (snd pw)) name) wss.

Definition workspace_keys (wss : workspaces) : list (string * string) :=
  map (fun pw => (fst pw, WsName (snd pw))) wss.

Definition with_kcp {S : Type} (h : handler OperatorE S) : handler OperatorE (S * workspaces) :=
  fun X (e : OperatorE X) =>
    match e in OperatorE X return S * workspaces -> X * (S * workspaces) with
    | WorkspacesGet path name => fun s =>
        match find_workspace (snd s) path name with
        | Some ws => (inl ws, s)
        | None => (inr (statusNotFound ("workspaces " ++ name ++ " not found")), s)
        end
    | WorkspacesCreate path ws => fun s =>
        let created := mkWorkspace (WsName ws) (WsAnnotations ws) (WsTypeName ws)
                         (WsTypePath ws) ("https://kcp/clusters/" ++ path ++ ":" ++ WsName ws)
                         "Initializing" in
        (inl created, (fst s, (snd s ++ [(path, created)])%list))
    | e' => fun s => let '(x, s1) := h _ e' (fst s) in (x, (s1, snd s))
    end.

(** What the stored workspaces satisfy at each stage of a reconcile: no
    (path, name) twice, and, while kcp's "absent" answer stands, none
    under that path and name. *)
Definition workspaces_ok (st : progress) (wss : workspaces) : Prop :=
  NoDup (workspace_keys wss) /\
  match st with
  | Absent path name => (path, name) ∉ workspace_keys wss
  | _ => True
  end.

(** *** An API server to run the examples on *)

(** The Project "Demo" exists; the kcp ConfigMap exists when
    [config_present]; the Project can be read back as unstructured when
    [status_readable]; every write succeeds.  Workspaces are left to
    [with_kcp]. *)
Definition sample_api (config_present status_readable : bool) : handler OperatorE unit :=
  fun X (e : OperatorE X) =>
    match e in OperatorE X return unit -> X * unit with
    | K8sGetProject key => fun s =>
        (inl {| PName := "Demo"; PNamespace := KeyNamespace key; PGeneration := 1;
                PAnnotations := [] |}, s)
    | K8sGetConfigMap key => fun s =>
        (if config_present
         then inl [("kcp-url", "https://kcp.example.org"); ("kcp-workspace-path", "root:cncf")]
         else inr (statusNotFound ("configmaps " ++ KeyName key ++ " not found")), s)
    | K8sGetSecret _ => fun s => (inl [("kubeconfig", "apiVersion: v1")], s)
    | K8sGetUnstructured key => fun s =>
        (if status_readable
         then inl {| Object := [("kind", VString "Project")] |}
         else inr (errorString "projects.maintainer-d.cncf.io is forbidden"), s)
    | K8sUpdate _ => fun s => (None, s)
    | K8sStatusUpdate _ => fun s => (None, s)
    | RESTConfigFromKubeConfig kubeconfig => fun s =>
        (inl {| Host := "https://localhost"; Credentials := kubeconfig |}, s)
    | NewForConfig _ => fun s => (None, s)
    | WorkspacesGet _ name => fun s => (inr (statusNotFound name), s)
    | WorkspacesCreate _ ws => fun s => (inl ws, s)
    | PollTick => fun s => (false, s)
    end.

Definition sample_reconciler : ProjectReconciler :=
  {| KCPConfigMapName := "kdp-workspaces-config";
     KCPConfigMapNamespace := "kdp-workspaces-system";
     KCPSecretName := "kdp-workspace-kubeconfig";
     KCPSecretNamespace := "kdp-workspaces-system";
     WorkspaceType := "" |}.

Definition sample_request : NamespacedName :=
  {| KeyName := "Demo"; KeyNamespace := "maintainerd" |}.

(** Reconcile on Project names without bytes above 127, where
    [Strings.ToLower] is strings.ToLower *)
Definition Reconcile_ascii : ProjectReconciler -> NamespacedName ->
                             prog OperatorE (outcome (Result * option error)) :=
  Reconcile Strings.ToLower.


(** *** Vocabulary of the statements about the calls to kcp *)

Definition is_workspaces_get (ev : event OperatorE) : bool :=
  match ev with
  | Event (WorkspacesGet _ _) _ => true
  | _ => false
  end.

Definition is_workspaces_create (ev : event OperatorE) : bool :=
  match ev with
  | Event (WorkspacesCreate _ _) _ => true
  | _ => false
  end.

(** A nil error comes with a value, an error with none. *)
Definition value_xor_error {A : Type} (r : option A * option error) : Prop :=
  match r with
  | (Some _, None) | (None, Some _) => True
  | _ => False
  end.


(** What a wait that ends without an error has seen last: a workspace in
    phase Ready, which is the one it returns. *)
Definition ready_last {St : Type} (c : Client) (name : string)
    (out : (option WorkspaceInfo * option error) * St * list (event OperatorE)) : Prop :=
  match result_of out with
  | (Some info, None) =>
      Ready info = true /\
      exists ws, last (trace_of out) = Some (Event (WorkspacesGet (workspacePath c) name) (inl ws)) /\
                 info = info_of ws
  | (None, None) => False
  | (_, Some _) => True
  end.


(** *** Vocabulary of the statements about Reconcile *)

(** The Project that the first call of a reconcile fetched. *)
Definition fetched_project (tr : list (event OperatorE)) : option ProjectMeta :=
  match tr with
  | Event (K8sGetProject _) (inl project) :: _ => Some project
  | _ => None
  end.

(** A reconcile that did not end well: it panicked or returned an error. *)
Definition failed (o : outcome (Result * option error)) : Prop :=
  match o with
  | Panicked => True
  | Returned (_, Some _) => True
  | Returned (_, None) => False
  end.

(** An update of a condition or of the workspace status that did not end
    well. *)
Definition update_failed (o : outcome (option error)) : Prop :=
  match o with
  | Panicked => True
  | Returned (Some _) => True
  | Returned None => False
  end.

(** The workspace a reconcile of [project] by [r] may ask kcp to create:
    named by the lowercased Project name, of the configured type or the
    default one, annotated with where the Project lives. *)
Definition created_for (ToLower : string -> string) (r : ProjectReconciler)
    (project : ProjectMeta) (X : Type) (e : OperatorE X) : Prop :=
  match e with
  | WorkspacesCreate _ ws =>
      WsName ws = ToLower (PName project) /\
      WsTypeName ws = (if String.eqb (WorkspaceType r) "" then DefaultWorkspaceType
                       else WorkspaceType r) /\
      WsTypeName ws <> "" /\
      WsAnnotations ws = [("managed-by", "kdp-workspace-operator");
                          ("project-namespace", PNamespace project);
                          ("project-name", PName project)]
  | _ => True
  end.


(** The Project that an update of the annotations writes first. *)
Definition first_update (tr : list (event OperatorE)) : option ProjectMeta :=
  match tr with
  | Event (K8sUpdate project) _ :: _ => Some project
  | _ => None
  end.

(** The kubeconfig that the first call hands to client-go's parser. *)
Definition first_parsed (tr : list (event OperatorE)) : option string :=
  match tr with
  | Event (RESTConfigFromKubeConfig kubeconfig) _ :: _ => Some kubeconfig
  | _ => None
  end.


(** The read of the Project as unstructured, by which updateCondition
    starts, answered with an error. *)
Definition status_get_failed (ev : event OperatorE) : bool :=
  match ev with
  | Event e x =>
      match e in OperatorE X return X -> bool with
      | K8sGetUnstructured _ => fun got => match got with inr _ => true | inl _ => false end
      | _ => fun _ => false
      end x
  end.

(** A run in which a workspace is created has seen that read fail. *)
Definition creates_only_unrecorded (tr : list (event OperatorE)) : Prop :=
  existsb is_workspaces_create tr = false \/ existsb status_get_failed tr = true.

(** kcp reported the workspace [name] absent. *)
Definition reported_absent (name : string) (ev : event OperatorE) : bool :=
  match ev with
  | Event e x =>
      match e in OperatorE X return X -> bool with
      | WorkspacesGet _ name' => fun got =>
          String.eqb name' name &&
          match got with inr err => IsNotFound err | inl _ => false end
      | _ => fun _ => false
      end x
  end.

End Controller.

(* ===================================================================== *)
(** ** package db: reading the maintainers worksheet                       *)
(* ===================================================================== *)

Module Sheets.
Import Errors.

Definition ProjectHdr : string := "Project".
Definition StatusHdr : string := "Status".

Section ReadSheetRows.
(** A cell of the worksheet is an [interface{}]; [Sprint] is fmt.Sprint
    on it, [TrimSpace] is strings.TrimSpace. *)
Context {Cell : Type}.
Variable Sprint : Cell -> string.
Variable TrimSpace : string -> string.

(** First row → headers *)
Definition header_cells (row0 : list Cell) : list string :=
  map (fun cell => TrimSpace (Sprint cell)) row0.

(** Find the column indexes for "Project" and "Status": the loop over
    [headers] from index [i] on, with the indexes found so far. *)
Fixpoint header_indexes (headers : list string) (i : nat) (projIdx statIdx : Z) : Z * Z :=
  match headers with
  | [] => (projIdx, statIdx)
  | h :: rest =>
      if String.eqb h "Project" then header_indexes rest (S i) (Z.of_nat i) statIdx
      else if String.eqb h "Status" then header_indexes rest (S i) projIdx (Z.of_nat i)
      else header_indexes rest (S i) projIdx statIdx
  end.

(** read raw cell if present *)
Definition cell_value (r : list Cell) (i : nat) : string :=
  match r !! i with
  | Some cell => TrimSpace (Sprint cell)
  | None => ""
  end.

(** The loop over the headers for one row [r], from index [i] on. *)
Fixpoint fill_row (headers : list string) (i : nat) (r : list Cell) (projIdx statIdx : Z)
    (rowMap : gmap string string) (lastProject lastStatus : string)
  : gmap string string * string * string :=
  match headers with
  | [] => (rowMap, lastProject, lastStatus)
  | h :: rest =>
      let cellVal := cell_value r i in
      if (Z.of_nat i =? projIdx)%Z then
        let lastProject := if negb (String.eqb cellVal "") then cellVal else lastProject in
        fill_row rest (S i) r projIdx statIdx (<[h := lastProject]> rowMap)
                 lastProject lastStatus
      else if (Z.of_nat i =? statIdx)%Z then
        let lastStatus := if negb (String.eqb cellVal "") then cellVal else lastStatus in
        fill_row rest (S i) r projIdx statIdx (<[h := lastStatus]> rowMap)
                 lastProject lastStatus
      else
        fill_row rest (S i) r projIdx statIdx (<[h := cellVal]> rowMap)
                 lastProject lastStatus
  end.

(** Remaining rows → maps *)
Fixpoint rows_loop (headers : list string) (projIdx statIdx : Z)
    (values : list (list Cell)) (lastProject lastStatus : string)
  : list (gmap string string) :=
  match values with
  | [] => []
  | r :: rest =>
      let '(rowMap, lastProject, lastStatus) :=
        fill_row headers 0 r projIdx statIdx ∅ lastProject lastStatus in
      rowMap :: rows_loop headers projIdx statIdx rest lastProject lastStatus
  end.

(** readSheetRows, on what the Sheets API answered for the range
    "Active!A:J": the values, or an error.  A nil slice is []. *)
Definition readSheetRows (spreadsheetID : string) (resp : list (list Cell) + error)
  : list (gmap string string) * option error :=
  match resp with
  | inr err =>
      ([], Some (wrapError ("db: Using " ++ spreadsheetID ++
                            " unable to retrieve worksheet data: " ++ Error err) err))
  | inl [] => ([], Some (errorString ("db: " ++ spreadsheetID ++ " worksheet is empty")))
  | inl (row0 :: data) =>
      let headers := header_cells row0 in
      let '(projIdx, statIdx) := header_indexes headers 0 (-1) (-1) in
      (rows_loop headers projIdx statIdx data "" "", None)
  end.

(** *** Vocabulary of the statements about the worksheet *)

(** The last cell of column [col] that is not blank, in the rows given;
    "" when all are blank. *)
Definition last_filled (col : nat) (rows : list (list Cell)) : string :=
  default "" (last (List.filter (fun v => negb (String.eqb v ""))
                                (map (fun r => cell_value r col) rows))).

(** The header [name] stands in column [col] and in no other. *)
Definition only_column (headers : list string) (name : string) (col : nat) : Prop :=
  forall i, headers !! i = Some name <-> i = col.

End ReadSheetRows.

(** A worksheet of strings, for the examples: a Project column that is
    filled in on the first row of each project only. *)
Definition sample_sheet : list (list string) :=
  [ ["Status"; " Project "; "Maintainer Name"; "Emails"];
    ["Graduated"; "kubernetes"; "Alice"; "alice@example.org"];
    [""; ""; "Bob"; "bob@example.org"];
    ["Sandbox"; "helm"; "Carol"];
    [""; " "; "Dave"; "dave@example.org"] ].

End Sheets.

(* ===================================================================== *)
(** ** model/main.go: the string types stored as text                      *)
(* ===================================================================== *)

Module Driver.

(** What database/sql hands to a Scanner and takes from a Valuer: an
    [interface{}] holding one of these. *)
Inductive Value : Type :=
| Int64 (z : Z)
| Float64 (bits : Z)
| Bool (b : bool)
| Bytes (b : string)
| Text (s : string)        (* a Go string *)
| Time (nanos : Z)
| Nil.

(** fmt's %T *)
Definition type_name (v : Value) : string :=
  match v with
  | Int64 _ => "int64"
  | Float64 _ => "float64"
  | Bool _ => "bool"
  | Bytes _ => "[]uint8"
  | Text _ => "string"
  | Time _ => "time.Time"
  | Nil => "<nil>"
  end.

End Driver.

Module ModelTypes.
Import Errors.

(** type MaintainerStatus string *)
Module MaintainerStatus.

Definition ActiveMaintainer : string := "Active".
Definition EmeritusMaintainer : string := "Emeritus".
Definition RetiredMaintainer : string := "Retired".

(** IsValid returns true id MaintainerStatus is known *)
Definition IsValid (s : string) : bool :=
  String.eqb s ActiveMaintainer || String.eqb s EmeritusMaintainer ||
  String.eqb s RetiredMaintainer.

(** Scan: the status read, or the error *)
Definition Scan (value : Driver.Value) : string + error :=
  match value with
  | Driver.Text v => inl v
  | _ => inr (errorString ("cannot scan " ++ Driver.type_name value ++
                           " into MaintainerStatus"))
  end.

(** Value; [Quote] is strconv.Quote, which %q applies *)
Definition Value (Quote : string -> string) (s : string) : Driver.Value + error :=
  if negb (IsValid s) then inr (errorString ("invalid MaintainerStatus " ++ Quote s))
  else inl (Driver.Text s).

End MaintainerStatus.

(** type Maturity string *)
Module Maturity.

Definition Sandbox : string := "Sandbox".
Definition Incubating : string := "Incubating".
Definition Graduated : string := "Graduated".
Definition Archived : string := "Archived".

Definition IsValid (m : string) : bool :=
  String.eqb m Sandbox || String.eqb m Incubating || String.eqb m Graduated ||
  String.eqb m Archived.

Definition Scan (value : Driver.Value) : string + error :=
  match value with
  | Driver.Text v => inl v
  | _ => inr (errorString ("cannot scan " ++ Driver.type_name value ++ " into Maturity"))
  end.

Definition Value (Quote : string -> string) (m : string) : Driver.Value + error :=
  if negb (IsValid m) then inr (errorString ("invalid Maturity " ++ Quote m))
  else inl (Driver.Text m).

End Maturity.

End ModelTypes.


(* ===================================================================== *)
(** * Theorems                                                            *)
(* ===================================================================== *)

(** ** Object names *)

Section StringFacts.
Import Strings.

Lemma all_chars_TrimLeftFunc p f s :
  all_chars p s = true -> all_chars p (TrimLeftFunc f s) = true.
Proof.
  induction s as [|c r IH]; simpl; [done|].
  intros [Hc Hr]%andb_true_iff.
  destruct (f c); [auto|]. simpl. by rewrite Hc, Hr.
Qed.

Lemma all_chars_TrimRightFunc p f s :
  all_chars p s = true -> all_chars p (TrimRightFunc f s) = true.
Proof.
  induction s as [|c r IH]; simpl; [done|].
  intros [Hc Hr]%andb_true_iff. specialize (IH Hr).
  destruct (TrimRightFunc f r) as [|d r'] eqn:E.
  - destruct (f c); simpl; [done|]. by rewrite Hc.
  - change (all_chars p (String c (String d r')) = true).
    simpl in *. by rewrite Hc, IH.
Qed.

Lemma all_chars_substring p s : forall n m,
  all_chars p s = true -> all_chars p (String.substring n m s) = true.
Proof.
  induction s as [|c r IH]; intros n m H.
  - by destruct n, m.
  - simpl in H. apply andb_true_iff in H as [Hc Hr].
    destruct n as [|n]; simpl.
    + destruct m as [|m]; simpl; [done|]. rewrite Hc. simpl. by apply IH.
    + by apply IH.
Qed.

Lemma all_chars_impl (p q : ascii -> bool) s :
  (forall c, p c = true -> q c = true) ->
  all_chars p s = true -> all_chars q s = true.
Proof.
  intros Hpq. induction s as [|c r IH]; simpl; [done|].
  intros [Hc Hr]%andb_true_iff. by rewrite (Hpq _ Hc), IH.
Qed.

Lemma length_substring_le s : forall m, (String.length (String.substring 0 m s) <= m)%nat.
Proof.
  induction s as [|c r IH]; intros [|m]; simpl; try lia.
  specialize (IH m). lia.
Qed.

Lemma first_char_TrimLeftFunc f s c :
  first_char (TrimLeftFunc f s) = Some c -> f c = false.
Proof.
  induction s as [|d r IH]; simpl; [done|].
  destruct (f d) eqn:E; [done|]. simpl. by intros [= <-].
Qed.

Lemma last_char_TrimRightFunc f s c :
  last_char (TrimRightFunc f s) = Some c -> f c = false.
Proof.
  induction s as [|d r IH]; simpl; [done|].
  destruct (TrimRightFunc f r) as [|e r'] eqn:E.
  - destruct (f d) eqn:Ed; simpl; [done|]. by intros [= <-].
  - intros H. apply IH. exact H.
Qed.

(** Trimming on the right keeps a first byte that is not trimmed. *)
Lemma first_char_TrimRightFunc f s c :
  first_char s = Some c -> f c = false ->
  first_char (TrimRightFunc f s) = Some c.
Proof.
  destruct s as [|d r]; simpl; [done|]. intros [= ->] Hc.
  destruct (TrimRightFunc f r); [by rewrite Hc|done].
Qed.

Lemma first_char_substring s m c :
  first_char s = Some c -> first_char (String.substring 0 (S m) s) = Some c.
Proof. destruct s; simpl; [done|]. by intros [= ->]. Qed.

Lemma first_char_nonempty s c : first_char s = Some c -> s <> "".
Proof. by destruct s. Qed.

Lemma first_char_Trim s cutset c :
  first_char (Trim s cutset) = Some c -> contains_byte cutset c = false.
Proof.
  unfold Trim. set (f := contains_byte cutset).
  set (t := TrimLeftFunc f s).
  pose proof (first_char_TrimLeftFunc f s) as HL. fold t in HL.
  destruct t as [|d r]; simpl; [done|].
  specialize (HL d eq_refl).
  destruct (TrimRightFunc f r); [rewrite HL|]; simpl; by intros [= <-].
Qed.

Lemma last_char_Trim s cutset c :
  last_char (Trim s cutset) = Some c -> contains_byte cutset c = false.
Proof. apply last_char_TrimRightFunc. Qed.

Lemma all_chars_Trim p s cutset :
  all_chars p s = true -> all_chars p (Trim s cutset) = true.
Proof. intros H. by apply all_chars_TrimRightFunc, all_chars_TrimLeftFunc. Qed.

Lemma length_TrimRightFunc f s :
  (String.length (TrimRightFunc f s) <= String.length s)%nat.
Proof.
  induction s as [|d r IH]; simpl; [lia|].
  destruct (TrimRightFunc f r).
  - destruct (f d); simpl; lia.
  - simpl in *. lia.
Qed.

Lemma length_TrimLeftFunc f s :
  (String.length (TrimLeftFunc f s) <= String.length s)%nat.
Proof.
  induction s as [|d r IH]; simpl; [lia|].
  destruct (f d); simpl; lia.
Qed.

Lemma length_Trim s cutset : (String.length (Trim s cutset) <= String.length s)%nat.
Proof.
  unfold Trim. etransitivity; [apply length_TrimRightFunc|apply length_TrimLeftFunc].
Qed.

End StringFacts.

Section SanitizeFacts.
Import Strings SyncNames.

Lemma replace_invalid_runs_valid b s :
  all_chars dns1123_char (replace_invalid_runs b s) = true.
Proof.
  revert b. induction s as [|c r IH]; intros b; simpl; [done|].
  destruct (dns1123_char c) eqn:E; simpl.
  - by rewrite E, IH.
  - destruct b; simpl; by rewrite ?IH.
Qed.

Lemma dns1123_char_not_upper c : dns1123_char c = true -> is_upper c = false.
Proof.
  destruct c as [[] [] [] [] [] [] [] []]; vm_compute; congruence.
Qed.

Lemma ToLower_fixed s : all_chars (fun c => negb (is_upper c)) s = true -> ToLower s = s.
Proof.
  induction s as [|c r IH]; simpl; [done|].
  intros [Hc Hr]%andb_true_iff. unfold lower_byte.
  apply negb_true_iff in Hc. rewrite Hc. by rewrite IH.
Qed.
End SanitizeFacts.

Example sanitizeName_email :
  SyncNames.sanitizeName_ascii "  Jane.Doe@Example.COM " = "jane.doe-example.com".
Proof. reflexivity. Qed.

Example sanitizeName_dots : SyncNames.sanitizeName_ascii "--..--" = "unnamed".
Proof. reflexivity. Qed.

Example sanitizeName_runs : SyncNames.sanitizeName_ascii "a  __  b" = "a-b".
Proof. reflexivity. Qed.
Section SanitizeName_label.
Import Strings SyncNames.

Lemma contains_dash_dot c :
  contains_byte "-." c = false -> c <> "-"%char /\ c <> "."%char.
Proof.
  simpl. rewrite !orb_false_iff. intros (H1 & H2 & _).
  apply Ascii.eqb_neq in H1, H2. done.
Qed.

Lemma dns_label_unnamed : dns_label "unnamed".
Proof.
  unfold dns_label. split_and!; try done; try (simpl; lia);
    intros c [= <-]; done.
Qed.

(** A trimmed, non-empty string over the class that fits in 63 bytes. *)
Lemma dns_label_Trim s :
  all_chars dns1123_char s = true ->
  Trim s "-." <> "" ->
  (String.length (Trim s "-.") <= 63)%nat ->
  dns_label (Trim s "-.").
Proof.
  intros Hs Hne Hlen. unfold dns_label. split_and!; try done.
  - apply ToLower_fixed.
    apply (all_chars_impl dns1123_char); [|by apply all_chars_Trim].
    intros c Hc. by rewrite (dns1123_char_not_upper c Hc).
  - by apply all_chars_Trim.
  - intros c Hc. by apply contains_dash_dot, (first_char_Trim s).
  - intros c Hc. by apply contains_dash_dot, (last_char_Trim s).
Qed.

(** Cutting a trimmed string at 63 bytes and trimming again leaves its
    first byte in place, so the second "unnamed" fallback is never taken. *)
Lemma Trim_slice_nonempty s :
  Trim s "-." <> "" ->
  Trim (slice_to 63 (Trim s "-.")) "-." <> "".
Proof.
  intros Hne. set (t := Trim s "-.") in *.
  destruct (first_char t) as [c|] eqn:Hc; [|by destruct t].
  pose proof (first_char_Trim s "-." c Hc) as Hcut.
  pose proof (first_char_substring t 62 c Hc) as Hsub.
  unfold slice_to. set (u := String.substring 0 63 t) in *.
  apply (first_char_nonempty _ c).
  unfold Trim. apply first_char_TrimRightFunc; [|done].
  destruct u as [|d r]; [done|]. simpl in Hsub. injection Hsub as ->.
  change (first_char (if contains_byte "-." c
                      then TrimLeftFunc (contains_byte "-.") r
                      else String c r) = Some c).
  by rewrite Hcut.
Qed.
End SanitizeName_label.

(** C9.  For every input string, [sanitizeName] returns a non-empty string
    of at most 63 characters that is lowercase, contains only characters
    from [a-z0-9.-], and neither starts nor ends with '-' or '.'; inputs
    that are empty or reduce to nothing after stripping map to "unnamed".
    The statement holds whatever [strings.ToLower] and [strings.TrimSpace]
    return, hence for their Unicode-aware versions too. *)
Theorem sanitizeName_dns_label (ToLower TrimSpace : string -> string) (s : string) :
  SyncNames.dns_label (SyncNames.sanitizeName ToLower TrimSpace s) /\
  (s = "" \/ SyncNames.stripped ToLower TrimSpace s = "" ->
   SyncNames.sanitizeName ToLower TrimSpace s = "unnamed").
Proof.
  unfold SyncNames.sanitizeName, SyncNames.stripped.
  set (t := SyncNames.dns1123InvalidChars_ReplaceAllString (TrimSpace (ToLower s))).
  assert (Ht : Strings.all_chars SyncNames.dns1123_char t = true)
    by apply replace_invalid_runs_valid.
  destruct (String.eqb_spec s "") as [->|Hs].
  { split; [apply dns_label_unnamed|done]. }
  destruct (String.eqb_spec (Strings.Trim t "-.") "") as [He|Hne].
  { split; [apply dns_label_unnamed|done]. }
  split; [|by intros [?|?]].
  destruct (63 <? String.length (Strings.Trim t "-."))%nat eqn:Hlen.
  - pose proof (Trim_slice_nonempty t Hne) as Hne2.
    destruct (String.eqb_spec (Strings.Trim (Strings.slice_to 63 (Strings.Trim t "-.")) "-.") "");
      [done|].
    apply dns_label_Trim; [|done|].
    + apply all_chars_substring. by apply all_chars_Trim.
    + etransitivity; [apply length_Trim|apply length_substring_le].
  - destruct (String.eqb_spec (Strings.Trim t "-.") ""); [done|].
    apply dns_label_Trim; [done|done|].
    apply Nat.ltb_ge in Hlen. exact Hlen.
Qed.

(** ** GORM queries *)

Section FirstFacts.
Import Model Errors Gorm.
Context {A : Type} `{Row A}.

Lemma least_ID_None (rows : list A) : least_ID rows = None <-> rows = [].
Proof.
  destruct rows as [|r rest]; simpl; [done|].
  split; [|done]. destruct (least_ID rest) as [r'|]; [|done].
  by destruct (row_ID r <=? row_ID r')%N.
Qed.

Lemma least_ID_Some (rows : list A) (r : A) :
  least_ID rows = Some r ->
  In r rows /\ forall r', In r' rows -> (row_ID r <= row_ID r')%N.
Proof.
  revert r. induction rows as [|a rest IH]; intros r; simpl; [done|].
  destruct (least_ID rest) as [b|] eqn:E.
  - destruct (IH b eq_refl) as [Hin Hle].
    destruct (N.leb_spec (row_ID a) (row_ID b)); intros [= <-].
    + split; [by left|]. intros r' [<-|Hr']; [lia|]. specialize (Hle r' Hr'). lia.
    + split; [by right|]. intros r' [<-|Hr']; [lia|]. by apply Hle.
  - intros [= <-]. apply least_ID_None in E as ->.
    split; [by left|]. intros r' [<-|[]]. lia.
Qed.

Lemma Find_In (rows : list A) (cond : A -> bool) (r : A) :
  In r (Find rows cond) <-> In r rows /\ live r = true /\ cond r = true.
Proof. unfold Find. rewrite filter_In, andb_true_iff. tauto. Qed.

(** What [First] finds is a live matching row with the least primary key. *)
Lemma First_Found (rows : list A) (cond : A -> bool) (r : A) :
  First rows cond = Found r ->
  In r rows /\ live r = true /\ cond r = true /\
  forall r', In r' rows -> live r' = true -> cond r' = true -> (row_ID r <= row_ID r')%N.
Proof.
  unfold First. destruct (least_ID (Find rows cond)) as [x|] eqn:E; [|done].
  intros [= <-]. apply least_ID_Some in E as [Hin Hle].
  apply Find_In in Hin as (? & ? & ?). split_and!; try done.
  intros r' ? ? ?. apply Hle, Find_In. done.
Qed.

(** [First] reports ErrRecordNotFound exactly when no live row matches. *)
Lemma First_NotFound (rows : list A) (cond : A -> bool) :
  First rows cond = NotFound <->
  forall r, In r rows -> live r = true -> cond r = false.
Proof.
  unfold First. destruct (least_ID (Find rows cond)) as [x|] eqn:E.
  - split; [done|]. intros Hno. apply least_ID_Some in E as [Hin _].
    apply Find_In in Hin as (Hx & Hl & Hc). rewrite (Hno x Hx Hl) in Hc. done.
  - split; [|done]. intros _ r Hr Hl. apply least_ID_None in E.
    destruct (cond r) eqn:Hc; [|done].
    assert (In r (Find rows cond)) as Hin by by apply Find_In.
    rewrite E in Hin. destruct Hin.
Qed.

Lemma First_no_error (rows : list A) (cond : A -> bool) (e : error) :
  First rows cond <> QueryError e.
Proof. unfold First. by destruct (least_ID (Find rows cond)). Qed.

Lemma First_cases (rows : list A) (cond : A -> bool) :
  (exists r, First rows cond = Found r) \/ First rows cond = NotFound.
Proof. unfold First. destruct (least_ID (Find rows cond)); eauto. Qed.
End FirstFacts.

(** ** Matching a FOSSA user to a registered maintainer *)

Section MapFossaUser.
Import Model Errors Gorm Db.

Variable ToLower : string -> string.

Lemma handle_cond_spec github m :
  ToLower github = Strings.ToLower github ->
  handle_cond ToLower github m = true <-> handle_matches github m.
Proof.
  intros H. unfold handle_cond, handle_matches, EqualFold, Sqlite.LOWER. rewrite H.
  apply String.eqb_eq.
Qed.

Lemma email_cond_spec email m :
  ToLower email = Strings.ToLower email ->
  email_cond ToLower email m = true <-> email_matches email m.
Proof.
  intros H. unfold email_cond, email_matches, EqualFold, Sqlite.LOWER. rewrite H.
  by rewrite orb_true_iff, !String.eqb_eq.
Qed.

Lemma First_first_registered d (cond : Maintainer.t -> bool) (P : Maintainer.t -> Prop) m :
  (forall x, cond x = true <-> P x) ->
  First (maintainers d) cond = Found m -> first_registered d P m.
Proof.
  intros HP [Hin [Hl [Hc Hle]]]%First_Found.
  split; [done|]. split; [by apply HP|].
  intros m' [Hin' Hl'] HP'. apply Hle; [done|done|by apply HP].
Qed.

Lemma First_none_registered d (cond : Maintainer.t -> bool) (P : Maintainer.t -> Prop) :
  (forall x, cond x = true <-> P x) ->
  First (maintainers d) cond = NotFound <-> ~ exists m, registered d m /\ P m.
Proof.
  intros HP. rewrite First_NotFound. split.
  - intros Hno (m & [Hin Hl] & Hm). apply HP in Hm. by rewrite (Hno m Hin Hl) in Hm.
  - intros Hno m Hin Hl. destruct (cond m) eqn:E; [|done].
    exfalso. apply Hno. exists m. split; [done|by apply HP].
Qed.

Lemma MapFossaUserToMaintainer_unfold d email github :
  MapFossaUserToMaintainer ToLower d email github =
  if negb (String.eqb github "") then
    match First (maintainers d) (handle_cond ToLower github) with
    | Found m => Some m
    | QueryError _ => None
    | NotFound => by_email ToLower d email
    end
  else by_email ToLower d email.
Proof. reflexivity. Qed.

Lemma by_email_Some d email :
  ToLower email = Strings.ToLower email ->
  (exists m, registered d m /\ email_matches email m) ->
  exists m, by_email ToLower d email = Some m /\ first_registered d (email_matches email) m.
Proof.
  intros Hlow Hex. unfold by_email.
  destruct (First_cases (maintainers d) (email_cond ToLower email)) as [[m Hm]|Hn].
  - rewrite Hm. exists m. split; [done|].
    by apply (First_first_registered d (email_cond ToLower email));
      [intros x; apply email_cond_spec|].
  - apply (First_none_registered d _ (email_matches email)) in Hn; [done|].
    intros x. by apply email_cond_spec.
Qed.

Lemma by_email_None d email :
  ToLower email = Strings.ToLower email ->
  by_email ToLower d email = None <-> ~ exists m, registered d m /\ email_matches email m.
Proof.
  intros Hlow. unfold by_email.
  rewrite <- (First_none_registered d (email_cond ToLower email))
    by (intros x; by apply email_cond_spec).
  destruct (First (maintainers d) (email_cond ToLower email)) eqn:E; try done.
  by apply First_no_error in E.
Qed.

(** On an e-mail address and a handle without bytes above 127 the lookup
    is the one the specification describes, case being folded on the ASCII
    letters: the handle, when it is not empty, is looked up first and the
    first registered maintainer whose GitHubAccount matches is returned;
    otherwise the first whose Email or GitHubEmail matches the e-mail; nil
    exactly when neither lookup matches. *)
Lemma MapFossaUserToMaintainer_ascii (d : DB) (email github : string) :
  folds_ascii ToLower ->
  Strings.is_ascii email = true ->
  Strings.is_ascii github = true ->
  (handle_found d github ->
   exists m, MapFossaUserToMaintainer ToLower d email github = Some m /\
             first_registered d (handle_matches github) m) /\
  (~ handle_found d github -> email_found d email ->
   exists m, MapFossaUserToMaintainer ToLower d email github = Some m /\
             first_registered d (email_matches email) m) /\
  (MapFossaUserToMaintainer ToLower d email github = None <->
   ~ handle_found d github /\ ~ email_found d email).
Proof.
  intros Hfold He Hg. pose proof (Hfold email He) as Hemail.
  pose proof (Hfold github Hg) as Hgithub. unfold email_found.
  set (found := handle_found d github).
  rewrite MapFossaUserToMaintainer_unfold.
  pose proof (First_first_registered d (handle_cond ToLower github) (handle_matches github))
    as HF.
  pose proof (First_none_registered d (handle_cond ToLower github) (handle_matches github)
                (fun x => handle_cond_spec github x Hgithub)) as HN.
  destruct (String.eqb_spec github "") as [->|Hne]; simpl.
  - assert (~ found) as Hnh by (intros [? _]; done).
    split_and!; [done| |].
    + intros _ Hex. by apply by_email_Some.
    + rewrite by_email_None by done. unfold found in *. tauto.
  - destruct (First (maintainers d) (handle_cond ToLower github)) as [m| |e] eqn:E.
    + assert found as Hh.
      { split; [done|]. exists m.
        destruct (HF m (fun x => handle_cond_spec github x Hgithub) eq_refl) as (? & ? & _).
        done. }
      split_and!.
      * intros _. exists m. split; [done|].
        by apply HF; [intros x; apply handle_cond_spec|].
      * done.
      * split; [done|]. by intros [? _].
    + assert (~ found) as Hnh.
      { intros [_ Hex]. by apply HN in Hex. }
      split_and!; [done| |].
      * intros _ Hex. by apply by_email_Some.
      * rewrite by_email_None by done. unfold found in *. tauto.
    + by apply First_no_error in E.
Qed.
End MapFossaUser.

Section ToLowerFacts.
Import Strings.

Lemma is_ascii_byte_not_195 c : is_ascii_byte c = true -> (nat_of_ascii c =? 195)%nat = false.
Proof.
  unfold is_ascii_byte. intros H%Nat.ltb_lt. apply Nat.eqb_neq. lia.
Qed.

(** On a string without bytes above 127 the Latin-1 instance is the
    byte-wise fold, as Go's function is. *)
Lemma ToLower_latin1_ascii : Db.folds_ascii ToLower_latin1.
Proof.
  intros s. induction s as [|c r IH]; [done|].
  cbn [is_ascii all_chars]. intros [Hc Hr]%andb_true_iff. specialize (IH Hr).
  cbn [ToLower_latin1 ToLower]. destruct r as [|c2 r2]; [done|].
  rewrite (is_ascii_byte_not_195 c Hc). cbn [andb]. by rewrite IH.
Qed.
End ToLowerFacts.

(** ** The store *)

Section StoreFacts.
Import Model Errors Gorm Db.

Lemma joined_spec d (projectID : N) (m : Maintainer.t) :
  existsb (fun j => (MaintainerProject.MaintainerID j =? row_ID m)%N &&
                    (MaintainerProject.ProjectID j =? projectID)%N)
          (maintainer_projects d) = true <->
  exists j, In j (maintainer_projects d) /\
            MaintainerProject.MaintainerID j = row_ID m /\
            MaintainerProject.ProjectID j = projectID.
Proof.
  rewrite existsb_exists. split; intros (j & Hj & H); exists j; split; try done.
  - apply andb_true_iff in H as [H1 H2]. by apply N.eqb_eq in H1, H2.
  - destruct H as [-> ->]. by rewrite !N.eqb_refl.
Qed.

Lemma preload_Maintainers_In d (p : Project.t) (m : Maintainer.t) :
  In m (Project.Maintainers (preload_Maintainers d p)) <->
  exists row, associated d (row_ID p) row /\ m = preload_Company d row.
Proof.
  unfold preload_Maintainers. simpl. rewrite in_map_iff. unfold associated.
  split.
  - intros (row & <- & Hrow). exists row. rewrite Find_In, joined_spec in Hrow. tauto.
  - intros (row & (? & ? & ?) & ->). exists row. rewrite Find_In, joined_spec. tauto.
Qed.

Lemma project_exists_First d projectID :
  project_exists d projectID <->
  exists p, First (projects d) (fun p => (row_ID p =? projectID)%N) = Found p.
Proof.
  split.
  - intros (p & Hin & Hl & Hid).
    destruct (First_cases (projects d) (fun p => (row_ID p =? projectID)%N)) as [?|Hn]; [done|].
    rewrite First_NotFound in Hn. specialize (Hn p Hin Hl). simpl in Hn.
    apply N.eqb_neq in Hn. done.
  - intros (p & (Hin & Hl & Hid & _)%First_Found). exists p.
    by apply N.eqb_eq in Hid.
Qed.
End StoreFacts.

(** C10.  [GetMaintainersByProject] returns (nil, ErrProjectNotFound)
    exactly when no Project row with the given ID exists; when the project
    exists it returns the project's associated maintainers (an empty,
    non-nil slice when it has none) with a nil error.  Rows count as GORM
    sees them: soft-deleted ones do not. *)
Theorem GetMaintainersByProject_result (d : Gorm.DB) (projectID : N) :
  (Db.GetMaintainersByProject d projectID = (None, Some Errors.ErrProjectNotFound) <->
   ~ Db.project_exists d projectID) /\
  (Db.project_exists d projectID ->
   exists ms, Db.GetMaintainersByProject d projectID = (Some ms, None) /\
     (forall m, In m ms <->
                exists row, Db.associated d projectID row /\ m = Db.preload_Company d row) /\
     ((~ exists row, Db.associated d projectID row) -> ms = [])).
Proof.
  rewrite project_exists_First. unfold Db.GetMaintainersByProject.
  destruct (Gorm.First (Gorm.projects d) (fun p => (Model.row_ID p =? projectID)%N))
    as [p| |e] eqn:E.
  - split; [split; [done|]; intros []; eauto|].
    intros _. eexists. split; [done|].
    apply First_Found in E as (_ & _ & Hid & _). apply N.eqb_eq in Hid. subst projectID.
    split; [apply preload_Maintainers_In|].
    intros Hnone.
    destruct (Model.Project.Maintainers (Db.preload_Maintainers d p)) as [|m ms] eqn:Hms; [done|].
    exfalso. apply Hnone.
    destruct (proj1 (preload_Maintainers_In d p m)) as (row & Hrow & _); [|by exists row].
    rewrite Hms. by left.
  - split; [|by intros [? ?]]. split; [|done]. by intros _ [? ?].
  - by apply First_no_error in E.
Qed.

Example MapFossaUserToMaintainer_by_handle :
  Db.MapFossaUserToMaintainer Strings.ToLower_latin1 Sample.db "nobody@example.org" "bobhub"
  = Some Sample.bob.
Proof. reflexivity. Qed.

Example MapFossaUserToMaintainer_by_email :
  Db.MapFossaUserToMaintainer Strings.ToLower_latin1 Sample.db "ALICE@example.ORG" ""
  = Some Sample.alice.
Proof. reflexivity. Qed.

(** An e-mail address whose capitals are ASCII letters is matched whatever
    its case. *)
Example MapFossaUserToMaintainer_ascii_sample :
  Db.MapFossaUserToMaintainer Strings.ToLower_latin1 Sample.db "ALICE@example.ORG" "bobhub"
    = None <->
  ~ Db.handle_found Sample.db "bobhub" /\ ~ Db.email_found Sample.db "ALICE@example.ORG".
Proof.
  apply (MapFossaUserToMaintainer_ascii Strings.ToLower_latin1 Sample.db
           "ALICE@example.ORG" "bobhub");
    [apply ToLower_latin1_ascii|reflexivity|reflexivity].
Qed.

(** C2, at a failing input.  The specification: when the handle lookup
    does not match, the first Maintainer whose Email or GitHubEmail equals
    the user's e-mail case-insensitively is returned, and nil only when
    neither lookup matches.  The code lower-cases both sides, the column
    with SQLite's lower(), which folds the 26 ASCII letters and leaves
    every other byte as it is, and the argument with Go's strings.ToLower,
    which folds the letters outside ASCII too.  For a registered
    maintainer whose Email is "JOSÉ@EXAMPLE.ORG" and a FOSSA user with the
    very same address and no GitHub name, the column folds to
    "josÉ@example.org", the argument to "josé@example.org", and nil is
    returned: the maintainer is not matched to their own address. *)
Theorem MapFossaUserToMaintainer_misses_same_email (ToLower : string -> string) :
  ToLower "JOSÉ@EXAMPLE.ORG" = "josé@example.org" ->
  Db.registered Sample.db_jose Sample.jose /\
  Model.Maintainer.Email Sample.jose = "JOSÉ@EXAMPLE.ORG" /\
  Sqlite.LOWER (Model.Maintainer.Email Sample.jose) = "josÉ@example.org" /\
  Db.MapFossaUserToMaintainer ToLower Sample.db_jose "JOSÉ@EXAMPLE.ORG" "" = None.
Proof.
  intros Hlow. split_and!.
  - split; [|reflexivity]. cbn. auto.
  - reflexivity.
  - reflexivity.
  - unfold Db.MapFossaUserToMaintainer. cbn [String.eqb negb]. rewrite Hlow.
    vm_compute. reflexivity.
Qed.

Lemma MapFossaUserToMaintainer_misses_same_email_witness :
  Strings.ToLower_latin1 "JOSÉ@EXAMPLE.ORG" = "josé@example.org" /\
  Db.MapFossaUserToMaintainer Strings.ToLower_latin1 Sample.db_jose "JOSÉ@EXAMPLE.ORG" ""
  = None.
Proof.
  split; [reflexivity|].
  apply (MapFossaUserToMaintainer_misses_same_email Strings.ToLower_latin1).
  reflexivity.
Defined.

Example GetMaintainersByProject_kubernetes :
  Db.GetMaintainersByProject Sample.db 1 =
  (Some [Model.set_Maintainer_Company Sample.acme Sample.alice; Sample.bob], None).
Proof. reflexivity. Qed.

Example GetMaintainersByProject_helm : Db.GetMaintainersByProject Sample.db 2 = (Some [], None).
Proof. reflexivity. Qed.

Example GetMaintainersByProject_missing :
  Db.GetMaintainersByProject Sample.db 99999 = (None, Some Errors.ErrProjectNotFound).
Proof. reflexivity. Qed.

(** ** Linking a service user to its teams *)

(** C3, at a failing input.  The specification: a second run of
    [LinkServiceUserToTeam] with the same arguments inserts no further
    ServiceUserTeams row, and at most one row exists per (service, service
    team, service user).  The code: the row that FirstOrCreate inserts has
    ServiceTeamID 0, because the struct handed to it carries no team and
    the SQL-string condition is not copied into it; the lookup of the next
    run, by the team's ID, misses that row, and a second one is inserted
    with the same triple. *)
Theorem LinkServiceUserToTeam_second_run_inserts :
  exists d1 d2 l1 l2,
    Db.LinkServiceUserToTeam Sample.db (Some Sample.fossa_user) [Some Sample.team5] None None
      = Go.Returned (d1, None) /\
    Db.LinkServiceUserToTeam d1 (Some Sample.fossa_user) [Some Sample.team5] None None
      = Go.Returned (d2, None) /\
    Gorm.service_user_teams d1 = [l1] /\
    Gorm.service_user_teams d2 = [l1; l2] /\
    Model.row_ID l1 <> Model.row_ID l2 /\
    Model.ServiceUserTeams.ServiceTeamID l1 = 0%N /\
    (Model.ServiceUserTeams.ServiceID l1, Model.ServiceUserTeams.ServiceTeamID l1,
     Model.ServiceUserTeams.ServiceUserID l1) =
    (Model.ServiceUserTeams.ServiceID l2, Model.ServiceUserTeams.ServiceTeamID l2,
     Model.ServiceUserTeams.ServiceUserID l2).
Proof.
  do 4 eexists. split_and!; [vm_compute; reflexivity ..| | |]; [|reflexivity..].
  vm_compute. discriminate.
Qed.

(** One run over two teams already leaves two rows with the same triple. *)
Example LinkServiceUserToTeam_two_teams :
  exists d1,
    Db.LinkServiceUserToTeam Sample.db (Some Sample.fossa_user)
      [Some Sample.team5; Some Sample.team6] None None = Go.Returned (d1, None) /\
    map (fun l => (Model.ServiceUserTeams.ServiceID l, Model.ServiceUserTeams.ServiceTeamID l,
                   Model.ServiceUserTeams.ServiceUserID l)) (Gorm.service_user_teams d1)
    = [(1%N, 0%N, 7%Z); (1%N, 0%N, 7%Z)].
Proof. eexists. split; vm_compute; reflexivity. Qed.

(** ** Uniqueness in the schema *)

Lemma Company_Name_unique_index : Schema.has_unique_index Model.Company.Name_tag = true.
Proof. reflexivity. Qed.

(** The tag of Project.Name holds one setting named "UNIQUEINDEX,NOT NULL"
    and the CHECK; no setting is named UNIQUEINDEX. *)
Lemma Project_Name_settings :
  map fst (Schema.ParseTagSetting Model.Project.Name_tag ";") = ["UNIQUEINDEX,NOT NULL"; "CHECK"] /\
  Schema.has_unique_index Model.Project.Name_tag = false.
Proof. split; reflexivity. Qed.

(** The Company half of C6: a second company with an existing name is
    refused with a uniqueness violation and the database is unchanged. *)
Lemma Create_Company_duplicate_refused (d : Gorm.DB) (c : Model.Company.t) :
  (exists q, In q (Gorm.companies d) /\ Model.Company.Name q = Model.Company.Name c) ->
  Gorm.Create_Company d c = (d, c, Some (Gorm.unique_violation "companies.name")).
Proof.
  intros (q & Hq & Hname). unfold Gorm.Create_Company.
  rewrite Company_Name_unique_index. simpl.
  assert (existsb (fun q => String.eqb (Model.Company.Name q) (Model.Company.Name c))
                  (Gorm.companies d) = true) as ->; [|done].
  apply existsb_exists. exists q. split; [done|]. by apply String.eqb_eq.
Qed.

(** C6, at a failing input.  The specification: inserting a second Project row
    with the Name of an existing project fails with a uniqueness violation
    and leaves the rows unchanged.  The code: the tag on Project.Name
    separates uniqueIndex from "not null" with a comma, GORM reads the two
    as one setting, AutoMigrate creates no unique index on projects.name,
    and the second insert succeeds. *)
Theorem Create_Project_duplicate_name_accepted :
  exists d1 d2 p1 p2,
    Gorm.Create_Project Gorm.empty_DB (Sample.new_project "kubernetes") = (d1, p1, None) /\
    Gorm.Create_Project d1 (Sample.new_project "kubernetes") = (d2, p2, None) /\
    Gorm.projects d2 = [p1; p2] /\
    Model.row_ID p1 <> Model.row_ID p2 /\
    Model.Project.Name p1 = "kubernetes" /\ Model.Project.Name p2 = "kubernetes".
Proof.
  do 4 eexists. split_and!; [vm_compute; reflexivity ..| | |]; [|reflexivity..].
  vm_compute. discriminate.
Qed.

(** ** Programs and their runs *)

Section ProgFacts.
Import Prog.
Context {E : Type -> Type}.

Lemma run_bind {R T S} (h : handler E S) (p : prog E R) (f : R -> prog E T) (s : S) :
  run h (bind p f) s =
  let '(r, s1, tr1) := run h p s in
  let '(t, s2, tr2) := run h (f r) s1 in
  (t, s2, (tr1 ++ tr2)%list).
Proof.
  revert s. induction p as [r|X e k IH]; intros s; simpl.
  - by destruct (run h (f r) s) as [[? ?] ?].
  - destruct (h X e s) as [x s1]. rewrite IH.
    destruct (run h (k x) s1) as [[r s2] tr1].
    by destruct (run h (f r) s2) as [[? ?] ?].
Qed.

Lemma only_calls_bind {R T} (P : forall X, E X -> Prop) (p : prog E R) (f : R -> prog E T) :
  only_calls P p -> (forall r, only_calls P (f r)) -> only_calls P (bind p f).
Proof.
  intros Hp Hf. induction Hp as [r|X e k He Hk IH]; simpl; [apply Hf|].
  by constructor.
Qed.

Lemma only_calls_run {R S} (P : forall X, E X -> Prop) (h : handler E S) (p : prog E R) (s : S) :
  only_calls P p -> Forall (event_sat P) (trace_of (run h p s)).
Proof.
  intros Hp. revert s. induction Hp as [r|X e k He Hk IH]; intros s; simpl.
  - constructor.
  - destruct (h X e s) as [x s1]. specialize (IH x s1).
    destruct (run h (k x) s1) as [[r s2] tr]. simpl in *. by constructor.
Qed.
End ProgFacts.

(** ** The sync job mirrors projects *)

Section SyncFacts.
Import Model Errors Prog Apis Sync.
Variables (ToLower TrimSpace : string -> string).
Variable range : gmap string Model.Project.t -> list (string * Model.Project.t).
Hypothesis range_perm : forall m, range m ≡ₚ map_to_list m.

Local Abbreviation project_synced := (Sync.project_synced ToLower TrimSpace).
Local Abbreviation syncProject := (Sync.syncProject ToLower TrimSpace).
Local Abbreviation syncProjects_loop := (Sync.syncProjects_loop ToLower TrimSpace).
Local Abbreviation desiredSpec := (Sync.desiredSpec ToLower TrimSpace).

Lemma syncProject_synced {St} (h : handler K8sE St) (s : St) ns byID p :
  project_synced ns byID p (trace_of (run h (syncProject ns byID p) s)).
Proof.
  unfold Sync.project_synced, Sync.syncProject. cbn.
  destruct (h _ (Get _) s) as [got s1]. exists got.
  destruct got as [obj|err].
  - destruct (projectSpecEqual (Spec obj) _) eqn:Heq; cbn; [done|].
    destruct (h _ (Update _) s1) as [uerr s2]. exists uerr. by destruct uerr.
  - destruct (IsNotFound err); cbn; [|done].
    destruct (h _ (Create _) s1) as [cerr s2]. exists cerr. by destruct cerr.
Qed.

(** A row returns an error exactly when one of its calls failed. *)
Lemma syncProject_failed {St} (h : handler K8sE St) (s : St) ns byID p :
  let out := run h (syncProject ns byID p) s in
  existsb answer_failed (trace_of out) =
  match result_of out with Some _ => true | None => false end.
Proof.
  cbv zeta. unfold Sync.syncProject. cbn.
  destruct (h _ (Get _) s) as [got s1]. destruct got as [obj|err].
  - destruct (projectSpecEqual (Spec obj) _) eqn:Heq; cbn; [done|].
    destruct (h _ (Update _) s1) as [uerr s2]. by destruct uerr.
  - destruct (IsNotFound err) eqn:Hnf; cbn; rewrite ?Hnf; [|done].
    destruct (h _ (Create _) s1) as [cerr s2]. destruct cerr; cbn; by rewrite ?Hnf.
Qed.

(** A run of the loop handles the rows in order, each as [project_synced]
    says, up to the first row one of whose calls fails; it returns an
    error exactly then. *)
Lemma syncProjects_loop_synced {St} (h : handler K8sE St) ns byID ps : forall (s : St),
  exists k trs,
    trace_of (run h (syncProjects_loop ns byID ps) s) = concat trs /\
    Forall2 (project_synced ns byID) (take k ps) trs /\
    stopped_by_failure (length ps) k
      (result_of (run h (syncProjects_loop ns byID ps) s)) trs.
Proof.
  induction ps as [|p rest IH]; intros s.
  - exists 0%nat, []. by cbn.
  - cbn [Sync.syncProjects_loop]. unfold mbind, prog_bind. rewrite run_bind.
    pose proof (syncProject_synced h s ns byID p) as Hp.
    pose proof (syncProject_failed h s ns byID p) as Hf. cbv zeta in Hf.
    destruct (run h (syncProject ns byID p) s) as [[r s1] tr1]. cbn in Hp, Hf.
    destruct r as [err|].
    + exists 1%nat, [tr1]. cbn. rewrite app_nil_r. split_and!; [done| |].
      * by repeat constructor.
      * exists [], tr1. split_and!; [done|constructor|done].
    + destruct (IH s1) as (k & trs & Htr & Hall & Hk).
      destruct (run h (syncProjects_loop ns byID rest) s1) as [[r2 s2] tr2].
      cbn in *. exists (S k), (tr1 :: trs). cbn. split_and!.
      * by rewrite Htr.
      * by constructor.
      * unfold stopped_by_failure in *. destruct r2 as [err|].
        -- destruct Hk as (before & tr & -> & Hbefore & Htr').
           exists (tr1 :: before), tr. split_and!; [done|by constructor|done].
        -- destruct Hk as [-> Hok]. split; [done|]. by constructor.
Qed.

Lemma fold_insert_lookup (l : list (string * Model.Project.t)) (pid : N) :
  forall m0 : gmap N string,
  is_Some (fold_left (fun (m : gmap N string) kv =>
                        <[row_ID (snd kv) := Project.Name (snd kv)]> m) l m0 !! pid) <->
  is_Some (m0 !! pid) \/ exists kv, In kv l /\ row_ID (snd kv) = pid.
Proof.
  induction l as [|kv l IH]; intros m0; cbn.
  - split; [by left|]. intros [?|(? & [] & _)]. done.
  - rewrite IH. rewrite lookup_insert_is_Some. split.
    + intros [[Heq|[_ ?]]|(kv' & ? & ?)].
      * right. exists kv. split; [by left|done].
      * by left.
      * right. exists kv'. split; [by right|done].
    + intros [?|(kv' & [Heq|?] & Hid)].
      * destruct (decide (row_ID kv.2 = pid)); [left; by left|left; by right].
      * subst kv'. left. by left.
      * right. by exists kv'.
Qed.

Lemma range_In (m : gmap string Model.Project.t) name p :
  In (name, p) (range m) <-> m !! name = Some p.
Proof.
  rewrite <- list_elem_of_In, (range_perm m). apply elem_of_map_to_list.
Qed.

Lemma parentNameByID_known (m : gmap string Model.Project.t) (pid : N) :
  is_Some (Sync.parentNameByID range m !! pid) <->
  exists name q, m !! name = Some q /\ row_ID q = pid.
Proof.
  unfold Sync.parentNameByID. rewrite fold_insert_lookup. split.
  - intros [[? Hempty]|([name q] & Hin & Hid)]; [by rewrite lookup_empty in Hempty|].
    exists name, q. by rewrite <- range_In.
  - intros (name & q & Hq & Hid). right. exists (name, q). by rewrite range_In.
Qed.

Lemma desiredSpec_mirrors (m : gmap string Model.Project.t) (p : Model.Project.t) :
  Sync.spec_mirrors ToLower TrimSpace m p (desiredSpec (Sync.parentNameByID range m) p).
Proof.
  unfold Sync.spec_mirrors. cbn. split_and!; try done.
  - by intros v ->.
  - by intros v ->.
  - destruct (Project.ParentProjectID p) as [pid|].
    + pose proof (parentNameByID_known m pid) as Hk.
      destruct (Sync.parentNameByID range m !! pid) as [parentName|].
      * split; [|by eauto]. intros _.
        destruct (proj1 Hk) as (name & q & ? & ?); [by eauto|]. by exists pid, name, q.
      * split; [by intros [? ?]|]. intros (pid' & name & q & [= <-] & ? & ?).
        destruct (proj2 Hk) as [? ?]; [by eauto|done].
    + split; [by intros [? ?]|]. by intros (? & ? & ? & ? & _).
Qed.
End SyncFacts.

(** What the sync job does for the projects the store returns, one per
    name.  For every Project of the store's map, [syncProjects] computes a
    ProjectSpec whose DisplayName and Maturity are the row's, whose
    MailingList and OnboardingIssue are the row's when present, with one
    MaintainerRef (named by the sanitized e-mail) per associated
    maintainer, and a ParentProjectRef exactly when ParentProjectID
    resolves to a known project.  In every run, whatever the API server
    answers and in whatever order the map is ranged over, the rows are
    handled in turn: a Get; a Create of the CR with this spec when the Get
    reports the CR absent; an Update overwriting the CR's spec exactly when
    projectSpecEqual reports a difference.  A run that returns nil has
    handled every row and none of its calls failed; a run that returns an
    error stopped at the first row one of whose calls failed. *)
Theorem syncProjects_mirrors (ToLower TrimSpace : string -> string)
    (range : gmap string Model.Project.t -> list (string * Model.Project.t))
    {St : Type} (h : Prog.handler Sync.K8sE St) (s : St) (d : Gorm.DB) (ns : string) :
  (forall m, range m ≡ₚ map_to_list m) ->
  let projectsByName := fst (Db.GetProjectMapByName d) in
  let byID := Sync.parentNameByID range projectsByName in
  (forall name p, projectsByName !! name = Some p ->
     Sync.spec_mirrors ToLower TrimSpace projectsByName p
       (Sync.desiredSpec ToLower TrimSpace byID p)) /\
  exists k trs,
    Prog.trace_of (Prog.run h (Sync.syncProjects ToLower TrimSpace range d ns) s) = concat trs /\
    Forall2 (Sync.project_synced ToLower TrimSpace ns byID)
            (take k (map snd (range projectsByName))) trs /\
    Sync.stopped_by_failure (length (range projectsByName)) k
      (Prog.result_of (Prog.run h (Sync.syncProjects ToLower TrimSpace range d ns) s)) trs.
Proof.
  intros Hperm projectsByName byID. split.
  - intros name p _. by apply desiredSpec_mirrors.
  - unfold Sync.syncProjects. subst projectsByName byID.
    destruct (Db.GetProjectMapByName d) as [m err] eqn:Hm.
    assert (err = None) as -> by (unfold Db.GetProjectMapByName in Hm; congruence).
    cbn [fst].
    destruct (syncProjects_loop_synced ToLower TrimSpace h ns
                (Sync.parentNameByID range m) (map snd (range m)) s)
      as (k & trs & ? & ? & Hk).
    exists k, trs. split_and!; [done|done|].
    by rewrite length_map in Hk.
Qed.

Lemma syncProjects_mirrors_witness :
  (forall m : gmap string Model.Project.t, map_to_list m ≡ₚ map_to_list m) /\
  exists k trs,
    Prog.trace_of (Prog.run Sync.cluster_handler
                     (Sync.syncProjects_ascii Sample.db "maintainerd") ∅) = concat trs /\
    Forall2 (Sync.project_synced Strings.ToLower Strings.TrimSpace "maintainerd"
               (Sync.parentNameByID map_to_list (fst (Db.GetProjectMapByName Sample.db))))
            (take k (map snd (map_to_list (fst (Db.GetProjectMapByName Sample.db))))) trs /\
    Sync.stopped_by_failure
      (length (map_to_list (fst (Db.GetProjectMapByName Sample.db)))) k
      (Prog.result_of (Prog.run Sync.cluster_handler
                         (Sync.syncProjects_ascii Sample.db "maintainerd") ∅)) trs.
Proof.
  split; [done|].
  apply (syncProjects_mirrors Strings.ToLower Strings.TrimSpace map_to_list
           Sync.cluster_handler ∅ Sample.db "maintainerd").
  done.
Defined.

(** On an empty cluster the two sample projects are created; a second run
    finds them equal and only reads. *)
Example syncProjects_twice :
  let r1 := Prog.run Sync.cluster_handler (Sync.syncProjects_ascii Sample.db "maintainerd") ∅ in
  let r2 := Prog.run Sync.cluster_handler (Sync.syncProjects_ascii Sample.db "maintainerd")
              (Prog.state_of r1) in
  Prog.result_of r1 = None /\ length (Prog.trace_of r1) = 4%nat /\
  Prog.result_of r2 = None /\ length (Prog.trace_of r2) = 2%nat.
Proof. vm_compute. done. Qed.

(** ** The webhook handler *)

(** C1.  For every request to /webhook whose body fails the HMAC-signature
    validation against the configured secret, [handleWebhook] responds 401
    Unauthorized and makes no call at all: no FOSSA call, no database
    write, no GitHub comment.  A request whose signature validates but
    whose payload cannot be parsed as a GitHub event receives 400 Bad
    Request. *)
Theorem handleWebhook_rejects {Request Payload St : Type}
    (ValidatePayload : Request -> string -> Payload + Errors.error)
    (WebHookType : Request -> string)
    (ParseWebHook : string -> Payload -> Onboarding.WebhookEvent + Errors.error)
    (GetProjectNameFromProjectTitle : string -> string + Errors.error)
    (fmt_v_Project : Model.Project.t -> string)
    (h : Prog.handler Onboarding.WebhookE St) (st : St)
    (s : Onboarding.EventListener) (r : Request) :
  let run_handler :=
    Prog.run h (Onboarding.handleWebhook ValidatePayload WebHookType ParseWebHook
                  GetProjectNameFromProjectTitle fmt_v_Project s r) st in
  (forall err, ValidatePayload r (Onboarding.Secret s) = inr err ->
     exists resp, Prog.result_of run_handler = Go.Returned resp /\
                  Onboarding.StatusCode resp = 401%Z /\
                  Prog.trace_of run_handler = [] /\ Prog.state_of run_handler = st) /\
  (forall payload err,
     ValidatePayload r (Onboarding.Secret s) = inl payload ->
     ParseWebHook (WebHookType r) payload = inr err ->
     exists resp, Prog.result_of run_handler = Go.Returned resp /\
                  Onboarding.StatusCode resp = 400%Z /\
                  Prog.trace_of run_handler = []).
Proof.
  cbv zeta. unfold Onboarding.handleWebhook. split.
  - intros err ->. cbn. eexists. done.
  - intros payload err -> ->. cbn. eexists. done.
Qed.

Section OnboardingFacts.
Import Model Errors Prog Onboarding.
Context {Request Payload St : Type}.
Variable ValidatePayload : Request -> string -> Payload + error.
Variable WebHookType : Request -> string.
Variable ParseWebHook : string -> Payload -> WebhookEvent + error.
Variable GetProjectNameFromProjectTitle : string -> string + error.
Variable fmt_v_Project : Project.t -> string.
Variable h : handler WebhookE St.

Local Abbreviation on_label := (Onboarding.on_label GetProjectNameFromProjectTitle fmt_v_Project).
Local Abbreviation on_labels := (Onboarding.on_labels GetProjectNameFromProjectTitle fmt_v_Project).
Local Abbreviation signProjectUpForFOSSA := (Onboarding.signProjectUpForFOSSA fmt_v_Project).

Lemma append_empty_r (s : string) : s ++ "" = s.
Proof.
  induction s as [|c s IH]; [done|].
  change (String c (s ++ "") = String c s). by rewrite IH.
Qed.

Lemma append_assoc (a b c : string) : (a ++ b) ++ c = a ++ (b ++ c).
Proof.
  induction a as [|x a IH]; [done|].
  change (String x ((a ++ b) ++ c) = String x (a ++ (b ++ c))). by rewrite IH.
Qed.

Lemma concat_empty_cons (x : string) (l : list string) :
  String.concat "" (x :: l) = x ++ String.concat "" l.
Proof.
  destruct l; [|done].
  change (x = x ++ ""). by rewrite append_empty_r.
Qed.

(** The loop that appends "- action\n" per action writes the bullet list. *)
Lemma bullets_bullet_list (actions : list string) : bullets actions = bullet_list actions.
Proof.
  unfold bullets, bullet_list.
  assert (forall acc, fold_left (fun comment action => comment ++ "- " ++ action ++ nl) actions acc
                      = acc ++ String.concat "" (map (fun action => "- " ++ action ++ nl) actions))
    as Hgen; [|by rewrite Hgen].
  induction actions as [|a actions IH]; intros acc.
  - cbn. by rewrite append_empty_r.
  - cbn [fold_left map]. rewrite IH, concat_empty_cons. by rewrite append_assoc.
Qed.

Lemma send_invitations_no_comment maintainers : forall actions,
  only_calls not_comment (send_invitations maintainers actions).
Proof.
  induction maintainers as [|m rest IH]; intros actions; cbn.
  - constructor.
  - constructor; [done|]. intros [err|]; cbn; [|apply IH].
    destruct (Is err ErrInviteAlreadyExists); [apply IH|].
    destruct (Is err ErrUserAlreadyMember); apply IH.
Qed.

(** signProjectUpForFOSSA posts no comment itself. *)
Lemma signProjectUpForFOSSA_no_comment project :
  only_calls not_comment (signProjectUpForFOSSA project).
Proof.
  unfold Onboarding.signProjectUpForFOSSA. cbn.
  constructor; [done|]. intros [maintainers [err|]]; cbn; [constructor|].
  constructor; [done|]. intros [serviceTeams err]; cbn.
  destruct (serviceTeams !! row_ID project) as [st|]; cbn.
  - destruct (length (default [] maintainers) =? 0)%nat; [constructor|].
    apply only_calls_bind; [apply send_invitations_no_comment|]. intros; constructor.
  - constructor; [done|]. intros [team|cerr]; cbn.
    + constructor; [done|]. intros _. cbn.
      destruct (length (default [] maintainers) =? 0)%nat; [constructor|].
      apply only_calls_bind; [apply send_invitations_no_comment|]. intros; constructor.
    + destruct (length (default [] maintainers) =? 0)%nat; [constructor|].
      apply only_calls_bind; [apply send_invitations_no_comment|]. intros; constructor.
Qed.

Lemma on_label_other s e issue name :
  String.eqb "fossa" name = false -> on_label s e issue name = Ret tt.
Proof. intros H. unfold Onboarding.on_label. by rewrite String.eqb_sym, H. Qed.

Lemma on_labels_none s e issue labels :
  List.filter (String.eqb "fossa") labels = [] -> on_labels s e issue labels = Ret tt.
Proof.
  induction labels as [|name rest IH]; [done|].
  cbn [List.filter Onboarding.on_labels].
  destruct (String.eqb "fossa" name) eqn:E; [done|].
  intros Hrest. by rewrite (on_label_other _ _ _ _ E), IH.
Qed.

(** The label "fossa" on an issue whose title names a project: the sign-up
    runs, then one comment is posted with the report. *)
Lemma run_on_label_fossa s e issue projectName (st : St) :
  GetProjectNameFromProjectTitle (Title issue) = inl projectName ->
  let project := default Project.zero (Projects s !! projectName) in
  let sign := run h (signProjectUpForFOSSA project) st in
  let comment := GitHubCreateComment (RepoOwnerLogin e) (RepoName e) (Number issue)
                   (report projectName (result_of sign).1 (result_of sign).2) in
  run h (on_label s e issue "fossa") st =
  (tt, (h _ comment (state_of sign)).2,
   (trace_of sign ++ [Event comment (h _ comment (state_of sign)).1])%list).
Proof.
  intros Hname. cbv zeta. unfold Onboarding.on_label. rewrite String.eqb_refl.
  rewrite Hname. unfold mbind, prog_bind. rewrite run_bind.
  destruct (run h (signProjectUpForFOSSA _) st) as [[[actions err] st1] tr]. cbn.
  by destruct (h _ _ st1) as [answer st2].
Qed.

Lemma run_on_labels_once s e issue projectName labels : forall (st : St),
  GetProjectNameFromProjectTitle (Title issue) = inl projectName ->
  length (List.filter (String.eqb "fossa") labels) = 1%nat ->
  run h (on_labels s e issue labels) st = run h (on_label s e issue "fossa") st.
Proof.
  induction labels as [|name rest IH]; intros st Hname; cbn [List.filter]; [done|].
  destruct (String.eqb_spec "fossa" name) as [<-|Hne].
  - cbn [length]. intros [= Hrest]. apply length_zero_iff_nil in Hrest.
    cbn [Onboarding.on_labels]. unfold mbind, prog_bind. rewrite run_bind.
    rewrite (on_labels_none _ _ _ _ Hrest).
    destruct (run h (on_label s e issue "fossa") st) as [[[] st1] tr].
    change (run h (Ret ()) st1) with ((), st1, @nil (event WebhookE)).
    cbv beta iota. by rewrite app_nil_r.
  - intros Hrest. cbn [Onboarding.on_labels].
    rewrite on_label_other by by apply String.eqb_neq.
    change (run h (on_labels s e issue rest) st = run h (on_label s e issue "fossa") st).
    by apply IH.
Qed.
End OnboardingFacts.

(** C8.  For every issues event with action "labeled" that carries a label
    named "fossa" (once, as an issue carries a label) and whose issue title
    parses to a project name, the webhook handler calls
    signProjectUpForFOSSA and then posts exactly one GitHub comment on that
    issue's repository and number; its body begins with the
    onboarding-report header and contains one Markdown bullet per action
    returned, followed by an error line when signProjectUpForFOSSA returned
    an error and by the post-acceptance instructions otherwise.  Events with
    any other action, or whose issue does not carry the label, produce no
    comment (and no call at all). *)
Theorem handleWebhook_fossa_label {Request Payload St : Type}
    (ValidatePayload : Request -> string -> Payload + Errors.error)
    (WebHookType : Request -> string)
    (ParseWebHook : string -> Payload -> Onboarding.WebhookEvent + Errors.error)
    (GetProjectNameFromProjectTitle : string -> string + Errors.error)
    (fmt_v_Project : Model.Project.t -> string)
    (h : Prog.handler Onboarding.WebhookE St) (st : St)
    (s : Onboarding.EventListener) (r : Request) (payload : Payload)
    (e : Onboarding.IssuesEvent) :
  ValidatePayload r (Onboarding.Secret s) = inl payload ->
  ParseWebHook (WebHookType r) payload = inl (Onboarding.IsIssuesEvent e) ->
  let out :=
    Prog.run h (Onboarding.handleWebhook ValidatePayload WebHookType ParseWebHook
                  GetProjectNameFromProjectTitle fmt_v_Project s r) st in
  (forall issue projectName,
     Onboarding.Action e = "labeled" ->
     Onboarding.EventIssue e = Some issue ->
     Onboarding.label_count "fossa" issue = 1%nat ->
     GetProjectNameFromProjectTitle (Onboarding.Title issue) = inl projectName ->
     let project := default Model.Project.zero (Onboarding.Projects s !! projectName) in
     let sign := Prog.run h (Onboarding.signProjectUpForFOSSA fmt_v_Project project) st in
     let actions := fst (Prog.result_of sign) in
     let err := snd (Prog.result_of sign) in
     let body :=
       Onboarding.report_header ++ Onboarding.bullet_list actions ++
       match err with
       | Some err => Onboarding.error_line err
       | None => Onboarding.instructions projectName
       end in
     exists answer,
       Prog.trace_of out =
         (Prog.trace_of sign ++
          [Prog.Event (Onboarding.GitHubCreateComment (Onboarding.RepoOwnerLogin e)
                         (Onboarding.RepoName e) (Onboarding.Number issue) body) answer])%list /\
       Forall (fun ev => Onboarding.event_is_comment ev = false) (Prog.trace_of sign) /\
       Prog.result_of out = Go.Returned {| Onboarding.StatusCode := 200; Onboarding.Body := "" |}) /\
  ((Onboarding.Action e <> "labeled" \/
    forall issue, Onboarding.EventIssue e = Some issue ->
                  Onboarding.label_count "fossa" issue = 0%nat) ->
   Prog.trace_of out = []).
Proof.
  intros Hv Hp. cbv zeta. unfold Onboarding.handleWebhook. rewrite Hv, Hp. split.
  - intros issue projectName -> -> Hcount Hname.
    rewrite String.eqb_refl. cbn [negb]. unfold mbind, prog_bind. rewrite run_bind.
    rewrite (run_on_labels_once _ _ h s e issue projectName _ st Hname Hcount).
    rewrite (run_on_label_fossa _ _ h s e issue projectName st Hname).
    pose proof (bullets_bullet_list
                  (Prog.result_of (Prog.run h (Onboarding.signProjectUpForFOSSA fmt_v_Project
                     (default Model.Project.zero (Onboarding.Projects s !! projectName))) st)).1)
      as Hb.
    unfold Onboarding.report. rewrite Hb.
    set (sign := Prog.run h _ st).
    set (cm := Onboarding.GitHubCreateComment _ _ _ _).
    destruct (h _ cm (Prog.state_of sign)) as [answer st2].
    cbn. exists answer. split_and!.
    + by rewrite app_nil_r.
    + subst sign. pose proof (only_calls_run Onboarding.not_comment h _ st
                    (signProjectUpForFOSSA_no_comment fmt_v_Project
                       (default Model.Project.zero (Onboarding.Projects s !! projectName))))
        as Hno.
      eapply Forall_impl; [exact Hno|]. by intros [X ev x].
    + done.
  - intros [Hact|Hlab].
    + apply String.eqb_neq in Hact. by rewrite Hact.
    + destruct (negb (String.eqb (Onboarding.Action e) "labeled")); [done|].
      destruct (Onboarding.EventIssue e) as [issue|]; [|done].
      specialize (Hlab issue eq_refl). apply length_zero_iff_nil in Hlab.
      unfold mbind, prog_bind. rewrite run_bind.
      by rewrite (on_labels_none _ _ s e issue _ Hlab).
Qed.

Lemma handleWebhook_fossa_label_witness :
  let issue := {| Onboarding.Title := "[PROJECT ONBOARDING] kubernetes"; Onboarding.URL := "";
                  Onboarding.Number := 42; Onboarding.Labels := ["bug"; "fossa"] |} in
  let e := {| Onboarding.Action := "labeled"; Onboarding.EventIssue := Some issue;
              Onboarding.RepoOwnerLogin := "cncf"; Onboarding.RepoName := "onboarding" |} in
  let r := Onboarding.mkSampleRequest "s3cret" "issues" (Some (Onboarding.IsIssuesEvent e)) in
  let out := Prog.run Onboarding.sample_handler (Onboarding.sample_handleWebhook r) Sample.db in
  let sign := Prog.run Onboarding.sample_handler
                (Onboarding.signProjectUpForFOSSA Model.Project.Name
                   (default Model.Project.zero
                      (Onboarding.Projects Onboarding.sample_listener !! "kubernetes")))
                Sample.db in
  Onboarding.sample_ValidatePayload r (Onboarding.Secret Onboarding.sample_listener)
    = inl (Onboarding.body r) /\
  Onboarding.sample_ParseWebHook (Onboarding.event_type r) (Onboarding.body r)
    = inl (Onboarding.IsIssuesEvent e) /\
  Onboarding.Action e = "labeled" /\
  Onboarding.EventIssue e = Some issue /\
  Onboarding.label_count "fossa" issue = 1%nat /\
  Onboarding.sample_GetProjectNameFromProjectTitle (Onboarding.Title issue) = inl "kubernetes" /\
  exists answer,
    Prog.trace_of out =
      (Prog.trace_of sign ++
       [Prog.Event
          (Onboarding.GitHubCreateComment "cncf" "onboarding" 42
             (Onboarding.report_header ++
              Onboarding.bullet_list (fst (Prog.result_of sign)) ++
              match snd (Prog.result_of sign) with
              | Some err => Onboarding.error_line err
              | None => Onboarding.instructions "kubernetes"
              end)) answer])%list.
Proof.
  intros issue e r out sign. split_and!; try reflexivity.
  destruct (proj1 (handleWebhook_fossa_label Onboarding.sample_ValidatePayload
                     Onboarding.event_type Onboarding.sample_ParseWebHook
                     Onboarding.sample_GetProjectNameFromProjectTitle
                     Model.Project.Name Onboarding.sample_handler Sample.db
                     Onboarding.sample_listener r (Onboarding.body r) e eq_refl eq_refl)
                  issue "kubernetes" eq_refl eq_refl eq_refl eq_refl)
    as (answer & Htrace & _).
  exists answer. exact Htrace.
Defined.

(** The same request run: the comment is the last of five calls. *)
Example fossa_label_run :
  let r := Onboarding.mkSampleRequest "s3cret" "issues"
             (Some (Onboarding.labeled_event "[PROJECT ONBOARDING] kubernetes" ["bug"; "fossa"])) in
  let out := Prog.run Onboarding.sample_handler (Onboarding.sample_handleWebhook r) Sample.db in
  map Onboarding.event_is_comment (Prog.trace_of out) = [false; false; false; false; true] /\
  Prog.result_of out = Go.Returned {| Onboarding.StatusCode := 200; Onboarding.Body := "" |}.
Proof. vm_compute. done. Qed.

Lemma handleWebhook_rejects_witness :
  let r := Onboarding.mkSampleRequest "forged" "issues"
             (Some (Onboarding.labeled_event "[PROJECT ONBOARDING] kubernetes" ["fossa"])) in
  Onboarding.sample_ValidatePayload r (Onboarding.Secret Onboarding.sample_listener)
    = inr (Errors.errorString "payload signature check failed") /\
  exists resp,
    Prog.result_of (Prog.run Onboarding.sample_handler (Onboarding.sample_handleWebhook r) Sample.db)
      = Go.Returned resp /\
    Onboarding.StatusCode resp = 401%Z /\
    Prog.trace_of (Prog.run Onboarding.sample_handler (Onboarding.sample_handleWebhook r) Sample.db)
      = [] /\
    Prog.state_of (Prog.run Onboarding.sample_handler (Onboarding.sample_handleWebhook r) Sample.db)
      = Sample.db.
Proof.
  cbv zeta. split; [reflexivity|].
  eapply (proj1 (handleWebhook_rejects Onboarding.sample_ValidatePayload Onboarding.event_type
            Onboarding.sample_ParseWebHook Onboarding.sample_GetProjectNameFromProjectTitle
            Model.Project.Name Onboarding.sample_handler Sample.db
            Onboarding.sample_listener _)).
  reflexivity.
Defined.

Example handleWebhook_unparsable :
  let r := Onboarding.mkSampleRequest "s3cret" "bogus" None in
  let out := Prog.run Onboarding.sample_handler (Onboarding.sample_handleWebhook r) Sample.db in
  Prog.result_of out =
    Go.Returned (Onboarding.http_Error "handleWebhook: could not parse event" 400) /\
  Prog.trace_of out = [].
Proof. vm_compute. done. Qed.

(** ** The workspace operator *)

Section ControllerFacts.
Import Go Errors Prog Kcp Controller.
Variable ToLower : string -> string.

Local Abbreviation allowed := (Controller.allowed ToLower).
Local Abbreviation accepted := (Controller.accepted ToLower).
Local Abbreviation safe := (Controller.safe ToLower).

Lemma safe_run {R St} (p : prog OperatorE R) : forall st (h : handler OperatorE St) (s : St),
  safe st p -> accepted st (trace_of (run h p s)) = true.
Proof.
  induction p as [r|X e k IH]; intros st h s Hsafe; [done|].
  cbn [Controller.safe] in Hsafe. cbn [run].
  destruct (h X e s) as [x s1]. specialize (Hsafe x).
  specialize (IH x). destruct (run h (k x) s1) as [[r s2] tr] eqn:Hrun.
  unfold trace_of. cbn [snd Controller.accepted].
  destruct (Controller.allowed ToLower st (Event e x)) as [st'|]; [|done].
  specialize (IH st' h s1 Hsafe). by rewrite Hrun in IH.
Qed.

Lemma only_calls_weaken {R} (P Q : forall X, OperatorE X -> Prop) (p : prog OperatorE R) :
  (forall X e, P X e -> Q X e) -> only_calls P p -> only_calls Q p.
Proof. intros HPQ Hp. induction Hp; constructor; auto. Qed.

Lemma quiet_allowed st X (e : OperatorE X) (x : X) :
  quiet X e -> allowed st (Event e x) = Some st.
Proof. by destruct e. Qed.

Lemma reads_only_allowed X (e : OperatorE X) (x : X) :
  reads_only X e -> allowed Settled (Event e x) = Some Settled.
Proof. by destruct e. Qed.

(** Quiet calls leave the progress where it is. *)
Lemma safe_bind_quiet {R T} st (p : prog OperatorE R) (f : R -> prog OperatorE T) :
  only_calls quiet p -> (forall r, safe st (f r)) -> safe st (bind p f).
Proof.
  intros Hp Hf. induction Hp as [r|X e k He Hk IH]; [apply Hf|].
  cbn [bind Controller.safe].
  intros x. rewrite (quiet_allowed st X e x He). apply IH.
Qed.

(** Once the matter is settled, reading workspaces changes nothing. *)
Lemma safe_bind_reads {R T} (p : prog OperatorE R) (f : R -> prog OperatorE T) :
  only_calls reads_only p -> (forall r, safe Settled (f r)) -> safe Settled (bind p f).
Proof.
  intros Hp Hf. induction Hp as [r|X e k He Hk IH]; [apply Hf|].
  cbn [bind Controller.safe].
  intros x. rewrite (reads_only_allowed X e x He). apply IH.
Qed.

Lemma only_calls_safe_quiet {R} st (p : prog OperatorE R) : only_calls quiet p -> safe st p.
Proof.
  intros Hp. induction Hp as [r|X e k He Hk IH]; [done|].
  cbn [Controller.safe].
  intros x. rewrite (quiet_allowed st X e x He). apply IH.
Qed.

Lemma only_calls_safe_reads {R} (p : prog OperatorE R) : only_calls reads_only p -> safe Settled p.
Proof.
  intros Hp. induction Hp as [r|X e k He Hk IH]; [done|].
  cbn [Controller.safe].
  intros x. rewrite (reads_only_allowed X e x He). apply IH.
Qed.

(** Which calls the parts of the controller and of the client make. *)
Lemma LoadConfigFromCluster_quiet a b c : only_calls quiet (LoadConfigFromCluster a b c).
Proof.
  unfold LoadConfigFromCluster. cbn. constructor; [done|]. intros [cm|err]; cbn; [|constructor].
  constructor; [done|]. intros [sec|err]; cbn; [|constructor].
  destruct (String.length _ =? 0)%nat; constructor.
Qed.

Lemma NewClient_quiet cfg : only_calls quiet (NewClient cfg).
Proof.
  unfold NewClient. destruct cfg as [cfg|]; [|constructor].
  destruct (String.length _ =? 0)%nat; [constructor|]. cbn.
  constructor; [done|]. intros [rc|err]; cbn; [|constructor].
  constructor; [done|]. intros [err|]; cbn; constructor.
Qed.

Lemma updateCondition_quiet project condition : only_calls quiet (updateCondition project condition).
Proof.
  unfold updateCondition. cbn. constructor; [done|]. intros [cur|err]; cbn; [|constructor].
  destruct (SetNestedField _ _ _); cbn; [|constructor].
  constructor; [done|]. intros [err|]; constructor.
Qed.

Lemma updateWorkspaceStatus_quiet project info :
  only_calls quiet (updateWorkspaceStatus project info).
Proof.
  unfold updateWorkspaceStatus. cbn. constructor; [done|]. intros [err|]; [constructor|].
  destruct (Ready info); apply updateCondition_quiet.
Qed.

Lemma record_then_return_quiet project condition res :
  only_calls quiet (record_then_return project condition res).
Proof.
  unfold record_then_return. apply only_calls_bind; [apply updateCondition_quiet|].
  intros [?|]; constructor.
Qed.

Lemma GetWorkspace_reads c name : only_calls reads_only (GetWorkspace c name).
Proof.
  unfold GetWorkspace. destruct (String.eqb name ""); [constructor|]. cbn.
  constructor; [done|]. intros [ws|err]; cbn; [constructor|].
  destruct (IsNotFound err); constructor.
Qed.

Lemma poll_ready_reads polls c name : forall lastInfo,
  only_calls reads_only (poll_ready polls c name lastInfo).
Proof.
  induction polls as [|polls IH]; intros lastInfo; cbn [poll_ready]; [constructor|].
  apply only_calls_bind; [apply GetWorkspace_reads|].
  intros [info [err|]]; [constructor|]. destruct info as [info|]; [|constructor].
  destruct (Ready info); [constructor|]. cbn. constructor; [done|].
  intros [|]; [apply IH|constructor].
Qed.

Lemma WaitForWorkspaceReady_reads c name : only_calls reads_only (WaitForWorkspaceReady c name).
Proof.
  unfold WaitForWorkspaceReady. destruct (String.eqb name ""); [constructor|].
  apply only_calls_bind; [apply poll_ready_reads|].
  intros [lastInfo [err|]]; [|constructor]. destruct lastInfo; constructor.
Qed.
End ControllerFacts.

Section ReconcileFacts.
Import Go Errors Prog Kcp Controller.
Variable ToLower : string -> string.

Local Abbreviation safe := (Controller.safe ToLower).
#[local] Arguments updateCondition : simpl never.
#[local] Arguments updateWorkspaceStatus : simpl never.
#[local] Arguments record_then_return : simpl never.
#[local] Arguments WaitForWorkspaceReady : simpl never.
#[local] Arguments LoadConfigFromCluster : simpl never.
#[local] Arguments NewClient : simpl never.
#[local] Arguments String.eqb : simpl never.
#[local] Arguments String.append : simpl never.

Ltac quiet_tail :=
  first [ apply only_calls_safe_quiet; apply record_then_return_quiet
        | apply safe_bind_quiet;
          [ first [apply updateWorkspaceStatus_quiet | apply updateCondition_quiet]
          | intros [[?|]|]; try destruct (negb _); exact I ] ].

(** From the fetched Project on, Reconcile looks the workspace up under
    the lowercased name and creates it only after kcp reported it absent. *)
Lemma reconcile_workspace_safe r project c :
  safe (Fetched (ToLower (PName project))) (reconcile_workspace ToLower r project c).
Proof.
  unfold reconcile_workspace. set (name := ToLower (PName project)).
  unfold GetWorkspace. destruct (String.eqb name "") eqn:Hname.
  { cbn. quiet_tail. }
  cbn. intros [ws|err]; rewrite String.eqb_refl.
  { (* the workspace exists *) cbn. quiet_tail. }
  destruct (IsNotFound err); cbn; [|quiet_tail].
  (* absent: the Creating condition, then the one Create *)
  apply safe_bind_quiet; [apply updateCondition_quiet|].
  intros [updated|]; [|exact I].
  unfold CreateWorkspace. rewrite Hname. cbn.
  intros [created|cerr]; rewrite !String.eqb_refl; cbn; [|quiet_tail].
  apply safe_bind_reads; [apply WaitForWorkspaceReady_reads|].
  intros [readyInfo [werr|]]; [quiet_tail|].
  destruct readyInfo as [readyInfo|]; [quiet_tail|exact I].
Qed.

Lemma reconcile_project_safe r project :
  safe (Fetched (ToLower (PName project))) (reconcile_project ToLower r project).
Proof.
  unfold reconcile_project.
  apply safe_bind_quiet; [apply LoadConfigFromCluster_quiet|].
  intros [kcpConfig [err|]]; [quiet_tail|].
  apply safe_bind_quiet; [apply NewClient_quiet|].
  intros [kcpClient [err|]]; [quiet_tail|].
  destruct kcpClient as [kcpClient|]; [apply reconcile_workspace_safe|exact I].
Qed.

Lemma Reconcile_safe r req : safe Started (Reconcile ToLower r req).
Proof.
  unfold Reconcile. cbn. intros [project|err].
  - apply reconcile_project_safe.
  - by destruct (IsNotFound err).
Qed.
End ReconcileFacts.

Section OneWorkspace.
Import Go Errors Prog Kcp Controller.
Variable ToLower : string -> string.
Context {St : Type}.
Variable h : handler OperatorE St.

Lemma find_workspace_None wss path name :
  find_workspace wss path name = None -> (path, name) ∉ workspace_keys wss.
Proof.
  unfold find_workspace. induction wss as [|[p w] wss IH]; cbn [List.find workspace_keys map].
  - intros _. apply not_elem_of_nil.
  - cbn [fst snd]. destruct (String.eqb_spec p path) as [->|Hp]; cbn [andb].
    + destruct (String.eqb_spec (WsName w) name) as [->|Hw]; [done|].
      intros Hrest. apply not_elem_of_cons. split; [congruence|by apply IH].
    + intros Hrest. apply not_elem_of_cons. split; [congruence|by apply IH].
Qed.

Lemma workspace_keys_app (wss : workspaces) path ws :
  workspace_keys (wss ++ [(path, ws)])%list = (workspace_keys wss ++ [(path, WsName ws)])%list.
Proof. unfold workspace_keys. by rewrite map_app. Qed.

(** A safe program run against the storing kcp never stores a (path,
    name) twice, whatever the other calls answer. *)
Lemma safe_keeps_workspaces_ok {R} (p : prog OperatorE R) : forall st (s : St) wss,
  Controller.safe ToLower st p -> workspaces_ok st wss ->
  NoDup (workspace_keys (snd (state_of (run (with_kcp h) p (s, wss))))).
Proof.
  induction p as [r|X e k IH]; intros st s wss Hsafe [Hnd Habs]; [done|].
  cbn [Controller.safe] in Hsafe. cbn [run].
  destruct (with_kcp h X e (s, wss)) as [x [s1 wss1]] eqn:Hh.
  specialize (Hsafe x). specialize (IH x).
  destruct (Controller.allowed ToLower st (Event e x)) as [st'|] eqn:Hst; [|done].
  assert (workspaces_ok st' wss1) as Hok.
  { destruct e as [key|key|key|key|project|obj|kubeconfig|cfg|path name|path ws|];
      unfold with_kcp in Hh; cbn [fst snd] in Hh.
    1: { destruct (h _ _ s) as [y ?] eqn:Hy. injection Hh as <- <- <-.
         cbn in Hst. destruct st; try done. by destruct y; injection Hst as <-. }
    8: { (* WorkspacesGet *)
         destruct (find_workspace wss path name) as [ws|] eqn:Hfind;
           injection Hh as <- <- <-; cbn in Hst.
         - destruct st; try done; [destruct (String.eqb name name0); [|done]|];
             by injection Hst as <-.
         - destruct st; try done; [|by injection Hst as <-].
           destruct (String.eqb name name0); [|done]. injection Hst as <-.
           split; [done|]. by apply find_workspace_None. }
    8: { (* WorkspacesCreate *)
         injection Hh as <- <- <-. cbn in Hst. destruct st; try done.
         destruct (String.eqb_spec path path0) as [->|]; [|done].
         destruct (String.eqb_spec (WsName ws) name) as [<-|]; [|done].
         injection Hst as <-. split; [|done].
         rewrite workspace_keys_app. cbn [WsName]. apply NoDup_app. split_and!; [done| |].
         + intros y Hy ->%list_elem_of_singleton. done.
         + apply NoDup_singleton. }
    all: destruct (h _ _ s) as [y ?] eqn:Hy; injection Hh as <- <- <-;
         cbn in Hst; injection Hst as <-; done. }
  specialize (IH st' s1 wss1 Hsafe Hok).
  destruct (run (with_kcp h) (k x) (s1, wss1)) as [[r s2] tr]. exact IH.
Qed.
End OneWorkspace.

(** No second workspace.  In
    every reconcile, whatever the API servers answer: the first call about
    a workspace is the query for the lowercased Project name; Create is
    called only when that query reported the workspace absent, under that
    name, and at most once; no Create is made when the query found the
    workspace ([Controller.allowed] spells these rules out and
    [Controller.accepted] checks a trace against them).  And against a kcp
    that stores what it is asked to create, a reconcile never leaves two
    workspaces of one name under one path: no project ever gets a second
    workspace. *)
Theorem Reconcile_one_workspace (ToLower : string -> string)
    (r : Controller.ProjectReconciler) (req : Kcp.NamespacedName) :
  (forall (St : Type) (h : Prog.handler Kcp.OperatorE St) (s : St),
     Controller.accepted ToLower Controller.Started
       (Prog.trace_of (Prog.run h (Controller.Reconcile ToLower r req) s)) = true) /\
  (forall (St : Type) (h : Prog.handler Kcp.OperatorE St) (s : St) (wss : Controller.workspaces),
     NoDup (Controller.workspace_keys wss) ->
     NoDup (Controller.workspace_keys
              (snd (Prog.state_of (Prog.run (Controller.with_kcp h)
                                     (Controller.Reconcile ToLower r req) (s, wss)))))).
Proof.
  split.
  - intros St h s. apply safe_run, Reconcile_safe.
  - intros St h s wss Hnd.
    apply (safe_keeps_workspaces_ok ToLower h _ Controller.Started); [apply Reconcile_safe|].
    by split.
Qed.

Lemma Reconcile_one_workspace_witness :
  NoDup (Controller.workspace_keys []) /\
  NoDup (Controller.workspace_keys
           (snd (Prog.state_of
                   (Prog.run (Controller.with_kcp (Controller.sample_api true false))
                      (Controller.Reconcile_ascii Controller.sample_reconciler
                         Controller.sample_request) (tt, []))))).
Proof.
  split; [apply NoDup_nil_2|].
  apply (proj2 (Reconcile_one_workspace Strings.ToLower Controller.sample_reconciler
                  Controller.sample_request)).
  apply NoDup_nil_2.
Defined.

(** A first reconcile creates the workspace "demo"; a second one finds it
    and creates nothing. *)
Example Reconcile_twice :
  let api := Controller.with_kcp (Controller.sample_api true false) in
  let reconcile := Controller.Reconcile_ascii Controller.sample_reconciler
                     Controller.sample_request in
  let o1 := Prog.run api reconcile (tt, []) in
  let o2 := Prog.run api reconcile (Prog.state_of o1) in
  Controller.workspace_keys (snd (Prog.state_of o1)) = [("root:cncf", "demo")] /\
  Controller.workspace_keys (snd (Prog.state_of o2)) = [("root:cncf", "demo")] /\
  Controller.accepted Strings.ToLower Controller.Started (Prog.trace_of o1) = true /\
  Controller.accepted Strings.ToLower Controller.Started (Prog.trace_of o2) = true.
Proof. vm_compute. done. Qed.

(** ** Recording the failure of a reconcile *)

Section ConditionFacts.
Import Go Errors Prog Kcp Controller.

(** A status map that holds the conditions as a [[]metav1.Condition] is
    not a JSON value. *)
Lemma json_value_assign_conditions (statusMap : list (string * value)) (cs : list Condition) :
  json_value (VMap (assign statusMap "conditions" (VConditions cs))) = false.
Proof.
  cbn [json_value]. induction statusMap as [|[k v] rest IH]; [done|].
  cbn [assign]. destruct (String.eqb k "conditions"); cbn [forallb snd json_value].
  - done.
  - rewrite IH. apply andb_false_r.
Qed.

(** One step of showing which calls a program makes. *)
Ltac calls_step :=
  first
    [ apply only_Ret
    | apply only_Vis; [exact I|intros ?]
    | match goal with
      | |- only_calls _ (match ?x with _ => _ end) => destruct x
      | |- only_calls _ (bind _ _) => apply only_calls_bind; [|intros ?]
      end ].

(** updateCondition panics once it has read the Project back; it never
    gets to Status().Update. *)
Lemma updateCondition_no_status_update project condition :
  only_calls no_status_update (updateCondition project condition).
Proof.
  unfold updateCondition. cbn. calls_step. destruct x as [cur|err]; [|calls_step].
  unfold SetNestedField. rewrite json_value_assign_conditions. calls_step.
Qed.

Lemma updateWorkspaceStatus_no_status_update project info :
  only_calls no_status_update (updateWorkspaceStatus project info).
Proof.
  unfold updateWorkspaceStatus. cbn. calls_step. destruct x; [calls_step|].
  destruct (Ready info); apply updateCondition_no_status_update.
Qed.

Lemma record_then_return_no_status_update project condition res :
  only_calls no_status_update (record_then_return project condition res).
Proof.
  unfold record_then_return. apply only_calls_bind; [apply updateCondition_no_status_update|].
  intros [?|]; calls_step.
Qed.

Lemma LoadConfigFromCluster_no_status_update a b c :
  only_calls no_status_update (LoadConfigFromCluster a b c).
Proof. unfold LoadConfigFromCluster. cbn. repeat calls_step. Qed.

Lemma NewClient_no_status_update cfg : only_calls no_status_update (NewClient cfg).
Proof. unfold NewClient. destruct cfg; cbn; repeat calls_step. Qed.

Lemma GetWorkspace_no_status_update c name : only_calls no_status_update (GetWorkspace c name).
Proof. unfold GetWorkspace. cbn. repeat calls_step. Qed.

Lemma poll_ready_no_status_update polls c name : forall lastInfo,
  only_calls no_status_update (poll_ready polls c name lastInfo).
Proof.
  induction polls as [|polls IH]; intros lastInfo; cbn [poll_ready]; [calls_step|].
  apply only_calls_bind; [apply GetWorkspace_no_status_update|].
  intros [info [err|]]; [calls_step|]. destruct info as [info|]; [|calls_step].
  destruct (Ready info); [calls_step|]. cbn. calls_step.
  destruct x; [apply IH|calls_step].
Qed.

Lemma WaitForWorkspaceReady_no_status_update c name :
  only_calls no_status_update (WaitForWorkspaceReady c name).
Proof.
  unfold WaitForWorkspaceReady. destruct (String.eqb name ""); [calls_step|].
  apply only_calls_bind; [apply poll_ready_no_status_update|].
  intros [lastInfo [err|]]; [|calls_step]. destruct lastInfo; calls_step.
Qed.

Lemma CreateWorkspace_no_status_update c a b d e :
  only_calls no_status_update (CreateWorkspace c a b d e).
Proof. unfold CreateWorkspace. cbn. repeat calls_step. Qed.

#[local] Arguments updateCondition : simpl never.
#[local] Arguments updateWorkspaceStatus : simpl never.
#[local] Arguments record_then_return : simpl never.
#[local] Arguments WaitForWorkspaceReady : simpl never.
#[local] Arguments LoadConfigFromCluster : simpl never.
#[local] Arguments NewClient : simpl never.
#[local] Arguments GetWorkspace : simpl never.
#[local] Arguments CreateWorkspace : simpl never.
#[local] Arguments reconcile_project : simpl never.

(** No run of Reconcile issues a status update: the WorkspaceReady
    condition is never written, in none of its branches. *)
Lemma Reconcile_no_status_update ToLower r req :
  only_calls no_status_update (Reconcile ToLower r req).
Proof.
  unfold Reconcile. cbn. calls_step. destruct x as [project|err]; [|repeat calls_step].
  unfold reconcile_project.
  apply only_calls_bind; [apply LoadConfigFromCluster_no_status_update|].
  intros [kcpConfig [err|]]; [apply record_then_return_no_status_update|].
  apply only_calls_bind; [apply NewClient_no_status_update|].
  intros [kcpClient [err|]]; [apply record_then_return_no_status_update|].
  destruct kcpClient as [kcpClient|]; [|calls_step].
  unfold reconcile_workspace.
  apply only_calls_bind; [apply GetWorkspace_no_status_update|].
  intros [workspaceInfo [err|]]; [apply record_then_return_no_status_update|].
  destruct workspaceInfo as [workspaceInfo|].
  { apply only_calls_bind; [apply updateWorkspaceStatus_no_status_update|].
    intros [[?|]|]; try destruct (negb _); calls_step. }
  apply only_calls_bind; [apply updateCondition_no_status_update|].
  intros [?|]; [|calls_step].
  apply only_calls_bind; [apply CreateWorkspace_no_status_update|].
  intros [createdInfo [err|]]; [apply record_then_return_no_status_update|].
  destruct createdInfo as [createdInfo|]; [|calls_step].
  apply only_calls_bind; [apply WaitForWorkspaceReady_no_status_update|].
  intros [readyInfo [err|]].
  { apply only_calls_bind; [apply updateWorkspaceStatus_no_status_update|].
    intros [?|]; calls_step. }
  destruct readyInfo as [readyInfo|]; [|calls_step].
  apply only_calls_bind; [apply updateWorkspaceStatus_no_status_update|].
  intros [[?|]|]; calls_step.
Qed.
End ConditionFacts.

(** C7, at a failing input.  The specification: whenever loading the kcp
    configuration fails, Reconcile returns a non-nil error and records a
    WorkspaceReady=False condition on the Project before returning.  The
    code, for a Project that can be read back while the kcp ConfigMap is
    missing: updateCondition stores the conditions in the status map as a
    [[]metav1.Condition], unstructured.SetNestedField panics on deep-copying
    it, Status().Update is never reached, and Reconcile ends in the panic
    instead of returning the error.  [Reconcile_no_status_update] shows that
    no run of Reconcile records the condition. *)
Theorem Reconcile_failure_not_recorded :
  let out := Prog.run (Controller.sample_api false true)
               (Controller.Reconcile_ascii Controller.sample_reconciler
                  Controller.sample_request) tt in
  Prog.result_of out = Go.Panicked /\
  map Controller.is_status_update (Prog.trace_of out) = [false; false; false] /\
  exists project err cur,
    Prog.trace_of out =
      [Prog.Event (Kcp.K8sGetProject Controller.sample_request) (inl project);
       Prog.Event (Kcp.K8sGetConfigMap
                     (Kcp.mkNamespacedName "kdp-workspaces-config" "kdp-workspaces-system"))
                  (inr err);
       Prog.Event (Kcp.K8sGetUnstructured (Kcp.mkNamespacedName "Demo" "maintainerd"))
                  (inl cur)].
Proof. vm_compute. split_and!; [done|done|]. do 3 eexists. reflexivity. Qed.

(** With the Project not readable back, the error of the failure is
    returned, and still nothing is recorded. *)
Example Reconcile_failure_returned :
  let out := Prog.run (Controller.sample_api false false)
               (Controller.Reconcile_ascii Controller.sample_reconciler
                  Controller.sample_request) tt in
  (exists err, Prog.result_of out =
               Go.Returned ({| Controller.RequeueAfter := 60 |}, Some err)) /\
  map Controller.is_status_update (Prog.trace_of out) = [false; false; false].
Proof. vm_compute. split; [eexists|]; reflexivity. Qed.

(** ** What a program can return *)

Section EnsuresFacts.
Import Prog.
Context {E : Type -> Type}.

Lemma ensures_run {R S} (Q : R -> Prop) (h : handler E S) (p : prog E R) : forall s,
  ensures Q p -> Q (result_of (run h p s)).
Proof.
  induction p as [r|X e k IH]; intros s Hp; [done|].
  cbn. destruct (h X e s) as [x s1]. specialize (IH x s1 (Hp x)).
  by destruct (run h (k x) s1) as [[r s2] tr].
Qed.

Lemma ensures_bind {R T} (Q : T -> Prop) (p : prog E R) (f : R -> prog E T) :
  ensures (fun r => ensures Q (f r)) p -> ensures Q (bind p f).
Proof. induction p as [r|X e k IH]; cbn; [done|]. intros Hp x. apply IH, Hp. Qed.

Lemma ensures_impl {R} (P Q : R -> Prop) (p : prog E R) :
  (forall r, P r -> Q r) -> ensures P p -> ensures Q p.
Proof.
  intros HPQ. induction p as [r|X e k IH]; cbn; [apply HPQ|]. intros Hp x. apply IH, Hp.
Qed.

Lemma ensures_all {R} (Q : R -> Prop) (p : prog E R) : (forall r, Q r) -> ensures Q p.
Proof. intros HQ. induction p as [r|X e k IH]; cbn; [apply HQ|]. intros x. apply IH. Qed.
End EnsuresFacts.

(** ** The kcp client *)

Section KcpClientFacts.
Import Go Errors Prog Kcp Controller.
Context {St : Type}.
Variable h : handler OperatorE St.

Lemma poll_ready_ready c name polls : forall lastInfo s,
  ready_last c name (run h (poll_ready polls c name lastInfo) s).
Proof.
  induction polls as [|polls IH]; intros lastInfo s; [by destruct lastInfo|].
  cbn [poll_ready]. unfold mbind, prog_bind. rewrite run_bind.
  unfold GetWorkspace. destruct (String.eqb name "") eqn:Hname.
  { cbn. by destruct lastInfo. }
  cbn. destruct (h _ (WorkspacesGet _ _) s) as [got s1].
  destruct got as [ws|err]; cbn.
  - destruct (String.eqb (WsPhase ws) LogicalClusterPhaseReady) eqn:Hready; cbn.
    + unfold ready_last. cbn. split; [done|]. by exists ws.
    + destruct (h _ PollTick s1) as [again s2]. destruct again; [|done].
      specialize (IH (Some (info_of ws)) s2). unfold ready_last in *.
      destruct (run h (poll_ready polls c name (Some (info_of ws))) s2) as [[r s3] tr].
      cbn in *. destruct r as [[info|] [err|]]; try done.
      destruct IH as (Hr & ws' & Hlast & ->). split; [done|]. exists ws'. split; [|done].
      destruct tr as [|ev tr]; [done|]. exact Hlast.
  - destruct (IsNotFound err); cbn; by destruct lastInfo.
Qed.

(** Each poll reads the workspace at most once. *)
Lemma poll_ready_gets c name polls : forall lastInfo s,
  (length (List.filter is_workspaces_get
             (trace_of (run h (poll_ready polls c name lastInfo) s))) <= polls)%nat.
Proof.
  induction polls as [|polls IH]; intros lastInfo s; [done|].
  cbn [poll_ready]. unfold mbind, prog_bind. rewrite run_bind.
  unfold GetWorkspace. destruct (String.eqb name "") eqn:Hname.
  { cbn. lia. }
  cbn. destruct (h _ (WorkspacesGet _ _) s) as [got s1].
  destruct got as [ws|err]; cbn.
  - destruct (String.eqb (WsPhase ws) LogicalClusterPhaseReady) eqn:Hready; cbn; [lia|].
    destruct (h _ PollTick s1) as [again s2]. destruct again; [|cbn; lia].
    specialize (IH (Some (info_of ws)) s2).
    destruct (run h (poll_ready polls c name (Some (info_of ws))) s2) as [[r s3] tr].
    cbn in *. lia.
  - destruct (IsNotFound err); cbn; lia.
Qed.

End KcpClientFacts.

(** X1.  A wait that [WaitForWorkspaceReady] ends with a nil error returns
    a workspace: the one kcp reported last, and kcp reported it in phase
    Ready.  It never returns (nil, nil). *)
Theorem WaitForWorkspaceReady_ready {St : Type} (h : Prog.handler Kcp.OperatorE St) (s : St)
    (c : Kcp.Client) (workspaceName : string) :
  let out := Prog.run h (Kcp.WaitForWorkspaceReady c workspaceName) s in
  match Prog.result_of out with
  | (Some info, None) =>
      Kcp.Ready info = true /\
      exists ws,
        last (Prog.trace_of out) =
          Some (Prog.Event (Kcp.WorkspacesGet (Kcp.workspacePath c) workspaceName) (inl ws)) /\
        info = Kcp.info_of ws
  | (None, None) => False
  | (_, Some _) => True
  end.
Proof.
  cbv zeta. unfold Kcp.WaitForWorkspaceReady.
  destruct (String.eqb workspaceName ""); [done|].
  unfold mbind, prog_bind. rewrite run_bind.
  pose proof (poll_ready_ready h c workspaceName Kcp.max_polls None s) as Hp.
  unfold Controller.ready_last in Hp.
  destruct (Prog.run h (Kcp.poll_ready Kcp.max_polls c workspaceName None) s) as [[r s1] tr].
  cbn in Hp. destruct r as [[info|] [err|]]; try done.
  cbn. by rewrite app_nil_r.
Qed.

(** X2.  [WaitForWorkspaceReady] reads the workspace at most 25 times (once
    at once, then once per 5-second interval of the 2-minute timeout) and
    never creates one. *)
Theorem WaitForWorkspaceReady_bounded {St : Type} (h : Prog.handler Kcp.OperatorE St) (s : St)
    (c : Kcp.Client) (workspaceName : string) :
  let tr := Prog.trace_of (Prog.run h (Kcp.WaitForWorkspaceReady c workspaceName) s) in
  (length (List.filter Controller.is_workspaces_get tr) <= 25)%nat /\
  List.filter Controller.is_workspaces_create tr = [].
Proof.
  cbv zeta. split.
  - unfold Kcp.WaitForWorkspaceReady.
    destruct (String.eqb workspaceName ""); [cbn; lia|].
    unfold mbind, prog_bind. rewrite run_bind.
    pose proof (poll_ready_gets h c workspaceName Kcp.max_polls None s) as Hp.
    destruct (Prog.run h (Kcp.poll_ready Kcp.max_polls c workspaceName None) s) as [[r s1] tr].
    cbn in Hp. change Kcp.max_polls with 25%nat in Hp.
    destruct r as [[info|] [err|]]; cbn; rewrite app_nil_r; exact Hp.
  - pose proof (only_calls_run Controller.reads_only h _ s
                  (WaitForWorkspaceReady_reads c workspaceName)) as Hr.
    induction Hr as [|ev tr Hev Hr IH]; [done|].
    cbn. rewrite IH. destruct ev as [X e x]. by destruct e.
Qed.

(** ** What a reconcile returns and what it asks kcp for *)

Section ReconcileOutcomes.
Import Go Errors Prog Kcp Controller.
Variable ToLower : string -> string.

Lemma updateCondition_failed project condition :
  ensures update_failed (updateCondition project condition).
Proof.
  unfold updateCondition. cbn. intros [cur|err]; cbn; [|done].
  unfold SetNestedField. by rewrite json_value_assign_conditions.
Qed.

#[local] Arguments updateCondition : simpl never.

Lemma updateWorkspaceStatus_failed project info :
  ensures update_failed (updateWorkspaceStatus project info).
Proof.
  unfold updateWorkspaceStatus. cbn. intros [err|]; cbn; [done|].
  apply updateCondition_failed.
Qed.

Lemma record_then_return_failed project condition res err :
  ensures failed (record_then_return project condition (res, Some err)).
Proof.
  unfold record_then_return. apply ensures_bind.
  eapply ensures_impl; [|apply updateCondition_failed]. by intros [?|].
Qed.

#[local] Arguments updateWorkspaceStatus : simpl never.
#[local] Arguments record_then_return : simpl never.
#[local] Arguments WaitForWorkspaceReady : simpl never.
#[local] Arguments LoadConfigFromCluster : simpl never.
#[local] Arguments NewClient : simpl never.
#[local] Arguments GetWorkspace : simpl never.
#[local] Arguments CreateWorkspace : simpl never.

Lemma reconcile_workspace_failed r project c :
  ensures failed (reconcile_workspace ToLower r project c).
Proof.
  unfold reconcile_workspace.
  apply ensures_bind, ensures_all.
  intros [workspaceInfo [err|]]; [apply record_then_return_failed|].
  destruct workspaceInfo as [workspaceInfo|].
  { apply ensures_bind. eapply ensures_impl; [|apply updateWorkspaceStatus_failed].
    by intros [[?|]|]. }
  apply ensures_bind, ensures_all. intros [?|]; [|done].
  apply ensures_bind, ensures_all.
  intros [createdInfo [err|]]; [apply record_then_return_failed|].
  destruct createdInfo as [createdInfo|]; [|done].
  apply ensures_bind, ensures_all. intros [readyInfo [err|]].
  { apply ensures_bind, ensures_all. by intros [?|]. }
  destruct readyInfo as [readyInfo|]; [|done].
  apply ensures_bind. eapply ensures_impl; [|apply updateWorkspaceStatus_failed].
  by intros [[?|]|].
Qed.

Lemma reconcile_project_failed r project :
  ensures failed (reconcile_project ToLower r project).
Proof.
  unfold reconcile_project.
  apply ensures_bind, ensures_all.
  intros [kcpConfig [err|]]; [apply record_then_return_failed|].
  apply ensures_bind, ensures_all.
  intros [kcpClient [err|]]; [apply record_then_return_failed|].
  destruct kcpClient as [kcpClient|]; [|done].
  apply reconcile_workspace_failed.
Qed.

(** Which workspaces the parts of Reconcile ask for. *)
Ltac calls_step :=
  first
    [ apply only_Ret
    | apply only_Vis; [exact I|intros ?]
    | match goal with
      | |- only_calls _ (match ?x with _ => _ end) => destruct x
      | |- only_calls _ (bind _ _) => apply only_calls_bind; [|intros ?]
      end ].

Lemma no_create_created_for {R} r project (p : prog OperatorE R) :
  only_calls reads_only p -> only_calls (created_for ToLower r project) p.
Proof. apply only_calls_weaken. intros X e. by destruct e. Qed.

Lemma quiet_created_for {R} r project (p : prog OperatorE R) :
  only_calls quiet p -> only_calls (created_for ToLower r project) p.
Proof. apply only_calls_weaken. intros X e. by destruct e. Qed.

Lemma reconcile_workspace_created_for r project c :
  only_calls (created_for ToLower r project) (reconcile_workspace ToLower r project c).
Proof.
  unfold reconcile_workspace.
  apply only_calls_bind; [apply no_create_created_for, GetWorkspace_reads|].
  intros [workspaceInfo [err|]]; [apply quiet_created_for, record_then_return_quiet|].
  destruct workspaceInfo as [workspaceInfo|].
  { apply only_calls_bind; [apply quiet_created_for, updateWorkspaceStatus_quiet|].
    intros [[?|]|]; try destruct (negb _); calls_step. }
  apply only_calls_bind; [apply quiet_created_for, updateCondition_quiet|].
  intros [?|]; [|calls_step].
  apply only_calls_bind.
  { unfold CreateWorkspace.
    destruct (String.eqb (ToLower (PName project)) ""); [calls_step|].
    cbn. apply only_Vis; [|intros [?|?]; calls_step].
    cbn. split_and!; try done; destruct (String.eqb (WorkspaceType r) "") eqn:E; try done.
    - by rewrite E.
    - rewrite E. by apply String.eqb_neq in E. }
  intros [createdInfo [err|]]; [apply quiet_created_for, record_then_return_quiet|].
  destruct createdInfo as [createdInfo|]; [|calls_step].
  apply only_calls_bind; [apply no_create_created_for, WaitForWorkspaceReady_reads|].
  intros [readyInfo [err|]].
  { apply only_calls_bind; [apply quiet_created_for, updateWorkspaceStatus_quiet|].
    intros [?|]; calls_step. }
  destruct readyInfo as [readyInfo|]; [|calls_step].
  apply only_calls_bind; [apply quiet_created_for, updateWorkspaceStatus_quiet|].
  intros [[?|]|]; calls_step.
Qed.

Lemma reconcile_project_created_for r project :
  only_calls (created_for ToLower r project) (reconcile_project ToLower r project).
Proof.
  unfold reconcile_project.
  apply only_calls_bind; [apply quiet_created_for, LoadConfigFromCluster_quiet|].
  intros [kcpConfig [err|]]; [apply quiet_created_for, record_then_return_quiet|].
  apply only_calls_bind; [apply quiet_created_for, NewClient_quiet|].
  intros [kcpClient [err|]]; [apply quiet_created_for, record_then_return_quiet|].
  destruct kcpClient as [kcpClient|]; [|calls_step].
  apply reconcile_workspace_created_for.
Qed.

End ReconcileOutcomes.


(** X3.  Once the Project is fetched, no run of [Reconcile] ends well: it
    returns an error or it panics.  Every path to a nil error leads through
    updateCondition, which panics when it stores the conditions as a
    [[]metav1.Condition] in the unstructured status. *)
Theorem Reconcile_fetched_fails (ToLower : string -> string) {St : Type}
    (h : Prog.handler Kcp.OperatorE St) (s : St)
    (r : Controller.ProjectReconciler) (req : Kcp.NamespacedName)
    (project : Kcp.ProjectMeta) :
  let out := Prog.run h (Controller.Reconcile ToLower r req) s in
  Controller.fetched_project (Prog.trace_of out) = Some project ->
  Controller.failed (Prog.result_of out).
Proof.
  cbv zeta. unfold Controller.Reconcile, mbind, prog_bind. rewrite run_bind.
  unfold Prog.call. cbn [Prog.run].
  destruct (h _ (Kcp.K8sGetProject req) s) as [got s1].
  destruct got as [fetched|err].
  - pose proof (ensures_run Controller.failed h _ s1
                  (reconcile_project_failed ToLower r fetched)) as Hf.
    by destruct (Prog.run h (Controller.reconcile_project ToLower r fetched) s1) as [[o s2] tr].
  - by destruct (Errors.IsNotFound err).
Qed.

Lemma Reconcile_fetched_fails_witness :
  let out := Prog.run (Controller.with_kcp (Controller.sample_api true false))
               (Controller.Reconcile_ascii Controller.sample_reconciler Controller.sample_request)
               (tt, []) in
  Controller.fetched_project (Prog.trace_of out) =
    Some {| Kcp.PName := "Demo"; Kcp.PNamespace := "maintainerd"; Kcp.PGeneration := 1;
            Kcp.PAnnotations := [] |} /\
  Controller.failed (Prog.result_of out).
Proof.
  cbv zeta. split; [vm_compute; reflexivity|].
  eapply (Reconcile_fetched_fails Strings.ToLower). vm_compute. reflexivity.
Defined.

(** X4.  Every workspace a run of [Reconcile] asks kcp to create is the
    fetched Project's: it is named by the lowercased Project name, has the
    reconciler's workspace type, or "kdp-organization" when none is
    configured, and carries the managed-by annotation and the Project's
    namespace and name. *)
Theorem Reconcile_creates_for_project (ToLower : string -> string) {St : Type}
    (h : Prog.handler Kcp.OperatorE St) (s : St)
    (r : Controller.ProjectReconciler) (req : Kcp.NamespacedName)
    (project : Kcp.ProjectMeta) :
  let tr := Prog.trace_of (Prog.run h (Controller.Reconcile ToLower r req) s) in
  Controller.fetched_project tr = Some project ->
  Forall (Prog.event_sat (Controller.created_for ToLower r project)) tr.
Proof.
  cbv zeta. unfold Controller.Reconcile, mbind, prog_bind. rewrite run_bind.
  unfold Prog.call. cbn [Prog.run].
  destruct (h _ (Kcp.K8sGetProject req) s) as [got s1].
  destruct got as [fetched|err].
  - pose proof (only_calls_run _ h _ s1 (reconcile_project_created_for ToLower r fetched)) as Hc.
    destruct (Prog.run h (Controller.reconcile_project ToLower r fetched) s1) as [[o s2] tr].
    cbn. intros [= <-]. by constructor.
  - by destruct (Errors.IsNotFound err).
Qed.

Lemma Reconcile_creates_for_project_witness :
  let project := {| Kcp.PName := "Demo"; Kcp.PNamespace := "maintainerd"; Kcp.PGeneration := 1;
                    Kcp.PAnnotations := [] |} in
  let tr := Prog.trace_of
              (Prog.run (Controller.with_kcp (Controller.sample_api true false))
                 (Controller.Reconcile_ascii Controller.sample_reconciler
                    Controller.sample_request) (tt, [])) in
  Controller.fetched_project tr = Some project /\
  List.filter Controller.is_workspaces_create tr <> [] /\
  Forall (Prog.event_sat (Controller.created_for Strings.ToLower Controller.sample_reconciler
                            project)) tr.
Proof.
  cbv zeta. split; [vm_compute; reflexivity|]. split; [vm_compute; discriminate|].
  apply (Reconcile_creates_for_project Strings.ToLower). vm_compute. reflexivity.
Defined.

(** X5.  No run of [Reconcile] issues a status update: in none of its
    branches does the WorkspaceReady condition reach the API server. *)
Theorem Reconcile_never_updates_status (ToLower : string -> string) {St : Type}
    (h : Prog.handler Kcp.OperatorE St) (s : St)
    (r : Controller.ProjectReconciler) (req : Kcp.NamespacedName) :
  List.filter Controller.is_status_update
    (Prog.trace_of (Prog.run h (Controller.Reconcile ToLower r req) s)) = [].
Proof.
  pose proof (only_calls_run _ h _ s (Reconcile_no_status_update ToLower r req)) as Hn.
  induction Hn as [|ev tr Hev Hn IH]; [done|].
  cbn [List.filter]. rewrite IH. destruct ev as [X e x]. by destruct e.
Qed.

Section KcpResults.
Import Go Errors Prog Kcp Controller.

Lemma NewClient_value_xor_error cfg : ensures value_xor_error (NewClient cfg).
Proof.
  unfold NewClient. destruct cfg as [cfg|]; [|done].
  destruct (String.length _ =? 0)%nat; [done|]. cbn.
  intros [rc|err]; cbn; [|done]. by intros [err|].
Qed.

Lemma LoadConfigFromCluster_value_xor_error a b ns :
  ensures value_xor_error (LoadConfigFromCluster a b ns).
Proof.
  unfold LoadConfigFromCluster. cbn. intros [cm|err]; cbn; [|done].
  intros [sec|err]; cbn; [|done]. by destruct (String.length _ =? 0)%nat.
Qed.

Lemma CreateWorkspace_value_xor_error c a b d e :
  ensures value_xor_error (CreateWorkspace c a b d e).
Proof.
  unfold CreateWorkspace. destruct (String.eqb a ""); [done|]. cbn. by intros [ws|err].
Qed.

Lemma data_index_set_annotation m key v k :
  data_index (set_annotation m key v) k =
  if String.eqb key k then v else data_index m k.
Proof.
  unfold set_annotation. cbn [data_index].
  destruct (String.eqb_spec key k) as [->|Hne]; [done|].
  induction m as [|[k' v'] m IH]; [done|]. cbn [List.filter fst data_index].
  destruct (String.eqb_spec k' key) as [->|Hk']; cbn [negb].
  - rewrite IH. by destruct (String.eqb_spec key k).
  - cbn [data_index]. by rewrite IH.
Qed.
End KcpResults.

(** X6.  [NewClient], [LoadConfigFromCluster] and [CreateWorkspace] return
    either a value and a nil error, or nil and an error: never nil with a
    nil error, and never both. *)
Theorem kcp_client_value_xor_error {St : Type} (h : Prog.handler Kcp.OperatorE St) (s : St)
    (cfg : option Kcp.Config) (configMapName secretName namespace : string)
    (c : Kcp.Client) (projectName projectNamespace projectResourceName workspaceType : string) :
  Controller.value_xor_error (Prog.result_of (Prog.run h (Kcp.NewClient cfg) s)) /\
  Controller.value_xor_error
    (Prog.result_of (Prog.run h (Kcp.LoadConfigFromCluster configMapName secretName namespace) s)) /\
  Controller.value_xor_error
    (Prog.result_of (Prog.run h (Kcp.CreateWorkspace c projectName projectNamespace
                                   projectResourceName workspaceType) s)).
Proof.
  split_and!; apply ensures_run.
  - apply NewClient_value_xor_error.
  - apply LoadConfigFromCluster_value_xor_error.
  - apply CreateWorkspace_value_xor_error.
Qed.

(** X7.  A configuration that [LoadConfigFromCluster] returns has a
    kubeconfig, so [NewClient] does not turn it down as empty: the first
    thing NewClient does with it is to hand that kubeconfig to client-go's
    parser. *)
Theorem LoadConfigFromCluster_then_NewClient {St St' : Type}
    (h : Prog.handler Kcp.OperatorE St) (s : St)
    (h' : Prog.handler Kcp.OperatorE St') (s' : St')
    (configMapName secretName namespace : string) (cfg : Kcp.Config) :
  fst (Prog.result_of (Prog.run h (Kcp.LoadConfigFromCluster configMapName secretName namespace) s))
    = Some cfg ->
  Kcp.Kubeconfig cfg <> "" /\
  Controller.first_parsed (Prog.trace_of (Prog.run h' (Kcp.NewClient (Some cfg)) s'))
    = Some (Kcp.Kubeconfig cfg).
Proof.
  unfold Kcp.LoadConfigFromCluster. cbn.
  destruct (h _ (Kcp.K8sGetConfigMap _) s) as [[cm|err] s1]; cbn; [|done].
  destruct (h _ (Kcp.K8sGetSecret _) s1) as [[sec|err] s2]; cbn; [|done].
  destruct (String.length (Kcp.data_index sec "kubeconfig") =? 0)%nat eqn:Hlen; cbn; [done|].
  intros [= <-]. cbn. split.
  - intros Heq. by rewrite Heq in Hlen.
  - unfold Kcp.NewClient. cbn [Kcp.Kubeconfig]. rewrite Hlen. cbn.
    destruct (h' _ (Kcp.RESTConfigFromKubeConfig _) s') as [[rc|err] s1']; cbn; [|done].
    by destruct (h' _ (Kcp.NewForConfig _) s1') as [[err|] s2'].
Qed.

Lemma LoadConfigFromCluster_then_NewClient_witness :
  let h := Controller.sample_api true true in
  let cfg := {| Kcp.KCPURL := "https://kcp.example.org"; Kcp.WorkspacePath := "root:cncf";
                Kcp.Kubeconfig := "apiVersion: v1" |} in
  fst (Prog.result_of (Prog.run h (Kcp.LoadConfigFromCluster "config" "secret" "ns") tt)) = Some cfg /\
  Kcp.Kubeconfig cfg <> "" /\
  Controller.first_parsed (Prog.trace_of (Prog.run h (Kcp.NewClient (Some cfg)) tt))
    = Some (Kcp.Kubeconfig cfg).
Proof.
  cbv zeta. split; [reflexivity|].
  apply (LoadConfigFromCluster_then_NewClient (Controller.sample_api true true) tt
           (Controller.sample_api true true) tt "config" "secret" "ns").
  reflexivity.
Defined.

(** X8.  [updateWorkspaceStatus] first writes the Project back with the
    three workspace annotations set to the workspace's name, URL and
    phase; every other annotation, and the Project's name and namespace,
    are as before. *)
Theorem updateWorkspaceStatus_annotations {St : Type} (h : Prog.handler Kcp.OperatorE St)
    (s : St) (project : Kcp.ProjectMeta) (info : Kcp.WorkspaceInfo) :
  exists written,
    Controller.first_update
      (Prog.trace_of (Prog.run h (Controller.updateWorkspaceStatus project info) s))
      = Some written /\
    Kcp.PName written = Kcp.PName project /\
    Kcp.PNamespace written = Kcp.PNamespace project /\
    Kcp.data_index (Kcp.PAnnotations written) Controller.AnnotationWorkspaceName
      = Kcp.Name info /\
    Kcp.data_index (Kcp.PAnnotations written) Controller.AnnotationWorkspaceURL
      = Kcp.URL info /\
    Kcp.data_index (Kcp.PAnnotations written) Controller.AnnotationWorkspacePhase
      = Kcp.Phase info /\
    forall key,
      key <> Controller.AnnotationWorkspaceName ->
      key <> Controller.AnnotationWorkspaceURL ->
      key <> Controller.AnnotationWorkspacePhase ->
      Kcp.data_index (Kcp.PAnnotations written) key = Kcp.data_index (Kcp.PAnnotations project) key.
Proof.
  unfold Controller.updateWorkspaceStatus, mbind, prog_bind. rewrite run_bind.
  unfold Prog.call. cbn [Prog.run].
  destruct (h _ (Kcp.K8sUpdate _) s) as [uerr s1].
  eexists. split.
  { destruct (Prog.run h _ s1) as [[o s2] tr]. cbn. reflexivity. }
  cbn [Kcp.PName Kcp.PNamespace Kcp.PAnnotations].
  rewrite !data_index_set_annotation. split_and!; try done.
  intros key H1 H2 H3. rewrite !data_index_set_annotation.
  apply not_eq_sym, String.eqb_neq in H1, H2, H3. by rewrite H1, H2, H3.
Qed.

(** ** Runs, whatever the calls answer *)

Section AllRunsFacts.
Import Prog.
Context {E : Type -> Type}.

Lemma all_runs_run {R S} (h : handler E S) (p : prog E R) :
  forall (P : R -> list (event E) -> Prop) s,
  all_runs P p -> P (result_of (run h p s)) (trace_of (run h p s)).
Proof.
  induction p as [r|X e k IH]; intros P s Hp; [done|].
  cbn. destruct (h X e s) as [x s1]. specialize (IH x _ s1 (Hp x)).
  by destruct (run h (k x) s1) as [[r s2] tr].
Qed.

Lemma all_runs_impl {R} (p : prog E R) : forall (P Q : R -> list (event E) -> Prop),
  (forall r tr, P r tr -> Q r tr) -> all_runs P p -> all_runs Q p.
Proof.
  induction p as [r|X e k IH]; intros P Q HPQ; cbn; [apply HPQ|].
  intros Hp x. eapply IH; [|apply Hp]. intros r tr. apply HPQ.
Qed.

Lemma all_runs_bind {R T} (p : prog E R) (f : R -> prog E T) :
  forall (P : T -> list (event E) -> Prop),
  all_runs (fun r tr1 => all_runs (fun t tr2 => P t (tr1 ++ tr2)%list) (f r)) p ->
  all_runs P (bind p f).
Proof.
  induction p as [r|X e k IH]; intros P; cbn.
  - intros Hp. eapply all_runs_impl; [|exact Hp]. done.
  - intros Hp x. apply IH. eapply all_runs_impl; [|apply Hp]. done.
Qed.
End AllRunsFacts.

(** ** The sign-up of a project *)

Section SignUpFacts.
Import Model Errors Prog Onboarding.
Variable fmt_v_Project : Project.t -> string.

Local Abbreviation signProjectUpForFOSSA := (Onboarding.signProjectUpForFOSSA fmt_v_Project).

(** The loop sends one invitation per maintainer, in order, and calls
    nothing else. *)
Lemma send_invitations_runs maintainers : forall actions,
  all_runs (fun _ tr => invited tr = map Maintainer.Email maintainers /\
                        team_calls tr = [] /\ teams_read tr = [] /\ comments tr = [])
           (send_invitations maintainers actions).
Proof.
  induction maintainers as [|m rest IH]; intros actions; [done|].
  cbn [send_invitations]. apply all_runs_bind. cbn. intros err.
  set (next := match err with
               | Some _ => _
               | None => _
               end).
  assert (exists actions', next = send_invitations rest actions') as [actions' ->].
  { subst next. destruct err as [err|]; [|by eexists].
    destruct (Is err ErrInviteAlreadyExists); [by eexists|].
    destruct (Is err ErrUserAlreadyMember); by eexists. }
  eapply all_runs_impl; [|apply IH]. intros r tr.
  unfold invited, team_calls, teams_read, comments. cbn. by intros (-> & -> & -> & ->).
Qed.

#[local] Arguments sign_up_calls : simpl never.
#[local] Arguments send_invitations : simpl never.

Lemma signProjectUpForFOSSA_runs project :
  all_runs (sign_up_calls project) (signProjectUpForFOSSA project).
Proof.
  unfold Onboarding.signProjectUpForFOSSA. cbn.
  intros [maintainers [err|]]; cbn; [unfold sign_up_calls; cbn; eauto|].
  intros [serviceTeams err]. cbn.
  set (ms := default [] maintainers).
  assert (forall actions,
            all_runs (fun r tr => invited tr = map Maintainer.Email ms /\
                                  (snd r = None <-> ms <> []) /\
                                  team_calls tr = [] /\ teams_read tr = [])
              (if (length ms =? 0)%nat
               then mret (Go.append actions
                            ("Maintainers not yet registered, for project " ++
                             Project.Name project),
                          Some (errorString (":x: no maintainers found for project " ++
                                             Fmt.utoa (row_ID project))))
               else Prog.bind (send_invitations ms actions)
                      (fun actions => mret (actions, None)))) as Htail.
  { intros actions. destruct ms as [|m rest] eqn:Hms; [cbn; split_and!; done|].
    cbn [length Nat.eqb]. apply all_runs_bind.
    eapply all_runs_impl; [|apply send_invitations_runs].
    intros r tr. unfold mret, prog_ret. cbn [all_runs snd]. rewrite !app_nil_r.
    by intros (-> & -> & -> & _). }
  destruct (serviceTeams !! row_ID project) as [team|] eqn:Hteam; cbn.
  - eapply all_runs_impl; [|apply Htail].
    intros r tr. unfold sign_up_calls, invited, team_calls, teams_read. cbn.
    intros (-> & Hr & -> & ->).
    split_and!; [done|done|]. exists serviceTeams. by rewrite Hteam.
  - intros [team|cerr]; cbn.
    + intros rerr. eapply all_runs_impl; [|apply Htail].
      intros r tr. unfold sign_up_calls, invited, team_calls, teams_read. cbn.
    intros (-> & Hr & -> & ->).
      split_and!; [done|done|]. exists serviceTeams. rewrite Hteam.
      split; [done|]. by exists (inl team).
    + eapply all_runs_impl; [|apply Htail].
      intros r tr. unfold sign_up_calls, invited, team_calls, teams_read. cbn.
    intros (-> & Hr & -> & ->).
      split_and!; [done|done|]. exists serviceTeams. rewrite Hteam.
      split; [done|]. by exists (inr cerr).
Qed.

End SignUpFacts.

(** X9.  [signProjectUpForFOSSA] starts with the lookup of the project's
    maintainers.  When the lookup fails, no other call is made and an error
    is returned.  Otherwise one invitation is sent to the e-mail address
    of each maintainer, in order, and the error is nil exactly when there
    is at least one maintainer. *)
Theorem signProjectUpForFOSSA_invitations {St : Type}
    (fmt_v_Project : Model.Project.t -> string)
    (h : Prog.handler Onboarding.WebhookE St) (st : St) (project : Model.Project.t) :
  let out := Prog.run h (Onboarding.signProjectUpForFOSSA fmt_v_Project project) st in
  let tr := Prog.trace_of out in
  Onboarding.first_lookup tr = Some (Model.row_ID project) /\
  match Onboarding.maintainers_read tr with
  | Some (_, Some _) => length tr = 1%nat /\ is_Some (snd (Prog.result_of out))
  | Some (maintainers, None) =>
      Onboarding.invited tr = map Model.Maintainer.Email (default [] maintainers) /\
      (snd (Prog.result_of out) = None <-> default [] maintainers <> [])
  | None => False
  end.
Proof.
  cbv zeta. split.
  { unfold Onboarding.signProjectUpForFOSSA, mbind, prog_bind, Prog.call.
    cbn [Prog.bind Prog.run].
    destruct (h _ (Onboarding.StoreGetMaintainersByProject (Model.row_ID project)) st)
      as [answer s1].
    by destruct (Prog.run h _ s1) as [[r s2] tr]. }
  pose proof (all_runs_run h _ _ st (signProjectUpForFOSSA_runs fmt_v_Project project)) as Hc.
  unfold Onboarding.sign_up_calls in Hc.
  destruct (Onboarding.maintainers_read _) as [[maintainers [err|]]|]; [done| |done].
  by destruct Hc as (? & ? & _).
Qed.

(** X10.  [signProjectUpForFOSSA] creates a team on FOSSA only when the
    service-team map of the store has no entry for the project, then once
    and under the project's name; it records a team in the store only
    after FOSSA created it, with the ID and name FOSSA answered with.
    When the lookup of the maintainers fails, it does neither. *)
Theorem signProjectUpForFOSSA_team {St : Type}
    (fmt_v_Project : Model.Project.t -> string)
    (h : Prog.handler Onboarding.WebhookE St) (st : St) (project : Model.Project.t) :
  let tr := Prog.trace_of
              (Prog.run h (Onboarding.signProjectUpForFOSSA fmt_v_Project project) st) in
  match Onboarding.maintainers_read tr with
  | Some (_, None) =>
      exists serviceTeams,
        Onboarding.teams_read tr = [serviceTeams] /\
        match serviceTeams !! Model.row_ID project with
        | Some _ => Onboarding.team_calls tr = []
        | None =>
            exists answer,
              Onboarding.team_calls tr =
                Onboarding.TeamCreated (Model.Project.Name project) answer ::
                match answer with
                | inl team =>
                    [Onboarding.TeamRecorded (Model.row_ID project) (Model.Project.Name project)
                       (Onboarding.TeamID team) (Onboarding.TeamName team)]
                | inr _ => []
                end
        end
  | _ => Onboarding.team_calls tr = []
  end.
Proof.
  cbv zeta.
  pose proof (all_runs_run h _ _ st (signProjectUpForFOSSA_runs fmt_v_Project project)) as Hc.
  unfold Onboarding.sign_up_calls in Hc.
  set (tr := Prog.trace_of _) in *.
  destruct (Onboarding.maintainers_read tr) as [[maintainers [err|]]|] eqn:Hread; [|tauto|done].
  destruct Hc as [Hlen _]. destruct tr as [|[X e x] [|? ?]]; try done.
  by destruct e.
Qed.

(** ** Comments of the webhook handler *)

Section CommentFacts.
Import Model Errors Prog Onboarding.
Context {Request Payload : Type}.
Variable ValidatePayload : Request -> string -> Payload + error.
Variable WebHookType : Request -> string.
Variable ParseWebHook : string -> Payload -> WebhookEvent + error.
Variable GetProjectNameFromProjectTitle : string -> string + error.
Variable fmt_v_Project : Project.t -> string.

Local Abbreviation on_label := (Onboarding.on_label GetProjectNameFromProjectTitle fmt_v_Project).
Local Abbreviation on_labels := (Onboarding.on_labels GetProjectNameFromProjectTitle fmt_v_Project).
Local Abbreviation signProjectUpForFOSSA := (Onboarding.signProjectUpForFOSSA fmt_v_Project).

Lemma only_calls_all_runs {E R} (P : forall X, E X -> Prop) (p : prog E R) :
  only_calls P p -> all_runs (fun _ tr => Forall (event_sat P) tr) p.
Proof.
  intros Hp. induction Hp as [r|X e k He Hk IH]; cbn; [constructor|].
  intros x. eapply all_runs_impl; [|apply IH]. intros r tr Htr. by constructor.
Qed.

Lemma comments_none tr : Forall (event_sat not_comment) tr -> comments tr = [].
Proof.
  induction 1 as [|[X e x] tr He _ IH]; [done|].
  unfold comments in *. cbn. rewrite IH. by destruct e.
Qed.

Lemma comments_app tr1 tr2 : comments (tr1 ++ tr2) = (comments tr1 ++ comments tr2)%list.
Proof. apply omap_app. Qed.

Local Abbreviation label_runs := (Onboarding.label_runs GetProjectNameFromProjectTitle).

Lemma on_label_runs s e issue name :
  all_runs (fun _ tr => label_runs e issue (if String.eqb "fossa" name then 1 else 0) tr)
           (on_label s e issue name).
Proof.
  unfold Onboarding.on_label, Onboarding.label_runs. rewrite (String.eqb_sym name).
  destruct (String.eqb "fossa" name); [|by destruct (GetProjectNameFromProjectTitle _)].
  destruct (GetProjectNameFromProjectTitle (Title issue)) as [projectName|err]; [|done].
  apply all_runs_bind.
  eapply all_runs_impl;
    [|apply (only_calls_all_runs _ _ (signProjectUpForFOSSA_no_comment fmt_v_Project _))].
  intros [actions err] tr Htr. cbn. intros answer.
  rewrite comments_app, (comments_none tr Htr). done.
Qed.

Lemma on_labels_runs s e issue labels :
  all_runs (fun _ tr => label_runs e issue (length (List.filter (String.eqb "fossa") labels)) tr)
           (on_labels s e issue labels).
Proof.
  induction labels as [|name rest IH]; cbn [Onboarding.on_labels List.filter].
  - unfold Onboarding.label_runs. cbn. by destruct (GetProjectNameFromProjectTitle _).
  - apply all_runs_bind. eapply all_runs_impl; [|apply on_label_runs].
    intros r1 tr1 H1. eapply all_runs_impl; [|apply IH].
    intros r2 tr2 H2. unfold Onboarding.label_runs in *.
    destruct (GetProjectNameFromProjectTitle (Title issue)) as [projectName|err].
    + rewrite comments_app, map_app, H1, H2.
      destruct (String.eqb "fossa" name); done.
    + by subst.
Qed.
End CommentFacts.

(** X11.  For an issues event with action "labeled", [handleWebhook] posts
    one comment per label named "fossa" on the issue, each on the issue's
    repository and number, when the issue title names a project; when the
    title does not, it makes no call at all.  Either way it answers 200. *)
Theorem handleWebhook_comment_per_label {Request Payload St : Type}
    (ValidatePayload : Request -> string -> Payload + Errors.error)
    (WebHookType : Request -> string)
    (ParseWebHook : string -> Payload -> Onboarding.WebhookEvent + Errors.error)
    (GetProjectNameFromProjectTitle : string -> string + Errors.error)
    (fmt_v_Project : Model.Project.t -> string)
    (h : Prog.handler Onboarding.WebhookE St) (st : St)
    (s : Onboarding.EventListener) (r : Request) (payload : Payload)
    (e : Onboarding.IssuesEvent) (issue : Onboarding.Issue) :
  ValidatePayload r (Onboarding.Secret s) = inl payload ->
  ParseWebHook (WebHookType r) payload = inl (Onboarding.IsIssuesEvent e) ->
  Onboarding.Action e = "labeled" ->
  Onboarding.EventIssue e = Some issue ->
  let out :=
    Prog.run h (Onboarding.handleWebhook ValidatePayload WebHookType ParseWebHook
                  GetProjectNameFromProjectTitle fmt_v_Project s r) st in
  Prog.result_of out = Go.Returned {| Onboarding.StatusCode := 200; Onboarding.Body := "" |} /\
  match GetProjectNameFromProjectTitle (Onboarding.Title issue) with
  | inl _ =>
      map Onboarding.comment_target (Onboarding.comments (Prog.trace_of out)) =
      repeat (Onboarding.RepoOwnerLogin e, Onboarding.RepoName e, Onboarding.Number issue)
             (Onboarding.label_count "fossa" issue)
  | inr _ => Prog.trace_of out = []
  end.
Proof.
  intros Hv Hp Hact Hissue. cbv zeta. unfold Onboarding.handleWebhook.
  rewrite Hv, Hp, Hact, Hissue. rewrite String.eqb_refl. cbn [negb].
  unfold mbind, prog_bind. rewrite run_bind.
  pose proof (all_runs_run h _ _ st
                (on_labels_runs GetProjectNameFromProjectTitle fmt_v_Project s e issue
                   (Onboarding.Labels issue))) as Hl.
  destruct (Prog.run h (Onboarding.on_labels _ _ s e issue (Onboarding.Labels issue)) st)
    as [[[] st1] tr].
  cbn in *. split; [done|]. unfold Onboarding.label_runs in Hl. rewrite app_nil_r.
  exact Hl.
Qed.

Lemma handleWebhook_comment_per_label_witness :
  let issue := {| Onboarding.Title := "[PROJECT ONBOARDING] kubernetes"; Onboarding.URL := "";
                  Onboarding.Number := 42; Onboarding.Labels := ["fossa"; "bug"; "fossa"] |} in
  let e := {| Onboarding.Action := "labeled"; Onboarding.EventIssue := Some issue;
              Onboarding.RepoOwnerLogin := "cncf"; Onboarding.RepoName := "onboarding" |} in
  let r := Onboarding.mkSampleRequest "s3cret" "issues" (Some (Onboarding.IsIssuesEvent e)) in
  let out := Prog.run Onboarding.sample_handler (Onboarding.sample_handleWebhook r) Sample.db in
  Onboarding.sample_ValidatePayload r (Onboarding.Secret Onboarding.sample_listener)
    = inl (Onboarding.body r) /\
  Onboarding.sample_ParseWebHook (Onboarding.event_type r) (Onboarding.body r)
    = inl (Onboarding.IsIssuesEvent e) /\
  Onboarding.Action e = "labeled" /\
  Onboarding.EventIssue e = Some issue /\
  Onboarding.sample_GetProjectNameFromProjectTitle (Onboarding.Title issue) = inl "kubernetes" /\
  map Onboarding.comment_target (Onboarding.comments (Prog.trace_of out)) =
    [("cncf", "onboarding", 42%Z); ("cncf", "onboarding", 42%Z)].
Proof.
  intros issue e r out. do 5 (split; [reflexivity|]).
  exact (proj2 (handleWebhook_comment_per_label Onboarding.sample_ValidatePayload
                  Onboarding.event_type Onboarding.sample_ParseWebHook
                  Onboarding.sample_GetProjectNameFromProjectTitle
                  Model.Project.Name Onboarding.sample_handler Sample.db
                  Onboarding.sample_listener r (Onboarding.body r) e issue
                  eq_refl eq_refl eq_refl eq_refl)).
Defined.

(** ** The maps the store builds *)

Section StoreMaps.
Import Model Errors Gorm Db.

(** A map filled from a list, later entries overwriting earlier ones:
    what a key holds afterwards. *)
Lemma fold_insert_Some {K A : Type} `{Countable K} (key : A -> K) (l : list A) (k : K) (v : A) :
  forall m0 : gmap K A,
  fold_left (fun (m : gmap K A) x => <[key x := x]> m) l m0 !! k = Some v ->
  m0 !! k = Some v \/ (In v l /\ key v = k).
Proof.
  induction l as [|x l IH]; intros m0; cbn; [by left|].
  intros [Hm|[Hin Hk]]%IH; [|right; split; [by right|done]].
  destruct (decide (key x = k)) as [Heq|Hne].
  - rewrite Heq, lookup_insert_eq in Hm. injection Hm as ->. right. split; [by left|done].
  - rewrite lookup_insert_ne in Hm by done. by left.
Qed.

Lemma fold_insert_is_Some {K A : Type} `{Countable K} (key : A -> K) (l : list A) (k : K) :
  forall m0 : gmap K A,
  is_Some (m0 !! k) \/ (exists x, In x l /\ key x = k) ->
  is_Some (fold_left (fun (m : gmap K A) x => <[key x := x]> m) l m0 !! k).
Proof.
  induction l as [|x l IH]; intros m0; cbn.
  - intros [?|(? & [] & _)]. done.
  - intros Hk. apply IH. rewrite lookup_insert_is_Some.
    destruct Hk as [?|(y & [->|?] & Hy)].
    + left. destruct (decide (key x = k)); [by left|by right].
    + left. by left.
    + right. by exists y.
Qed.

(** The entry appended last is the one its key holds. *)
Lemma fold_insert_last {K A : Type} `{Countable K} (key : A -> K) (l : list A) (x : A) :
  forall m0 : gmap K A,
  fold_left (fun (m : gmap K A) x => <[key x := x]> m) (l ++ [x]) m0 !! key x = Some x.
Proof. intros m0. rewrite fold_left_app. cbn. apply lookup_insert_eq. Qed.

Lemma preload_Maintainers_Name d p : Project.Name (preload_Maintainers d p) = Project.Name p.
Proof. done. Qed.

End StoreMaps.

(** X12.  On a database whose queries succeed, as those of the table
    model all do, [GetProjectMapByName] returns a nil error; every entry of
    the map it returns is a project row that is not soft-deleted, filed
    under the row's name, with its maintainers loaded; and every such
    row's name is a key of the map. *)
Theorem GetProjectMapByName_lookup (d : Gorm.DB) :
  let m := fst (Db.GetProjectMapByName d) in
  snd (Db.GetProjectMapByName d) = None /\
  (forall name p,
     m !! name = Some p ->
     exists row, In row (Gorm.projects d) /\ Gorm.live row = true /\
                 Model.Project.Name row = name /\ p = Db.preload_Maintainers d row) /\
  (forall row, In row (Gorm.projects d) -> Gorm.live row = true ->
               is_Some (m !! Model.Project.Name row)).
Proof.
  cbv zeta. unfold Db.GetProjectMapByName. cbn [fst snd]. split_and!; [done| |].
  - intros name p [Hm|[Hin Hk]]%fold_insert_Some; [by rewrite lookup_empty in Hm|].
    apply in_map_iff in Hin as (row & <- & (Hrow & Hlive & _)%Find_In).
    exists row. by rewrite preload_Maintainers_Name in Hk.
  - intros row Hin Hlive. apply fold_insert_is_Some. right.
    exists (Db.preload_Maintainers d row). split; [|done].
    apply in_map_iff. exists row. split; [done|]. by apply Find_In.
Qed.

(** X13.  [GetProjectServiceTeamMap] fails, with an empty map, exactly when
    no service that is not soft-deleted has the given name.  Otherwise it
    looks at the service with the least primary key among those: every
    entry of the map is a team row of that service that is not
    soft-deleted, filed under its project's ID, and the project of every
    such row is a key of the map. *)
Theorem GetProjectServiceTeamMap_lookup (d : Gorm.DB) (serviceName : string) :
  let by_name := fun s => String.eqb (Model.Service.Name s) serviceName in
  let m := fst (Db.GetProjectServiceTeamMap d serviceName) in
  let err := snd (Db.GetProjectServiceTeamMap d serviceName) in
  (Gorm.First (Gorm.services d) by_name = Gorm.NotFound -> m = ∅ /\ is_Some err) /\
  (forall service,
     Gorm.First (Gorm.services d) by_name = Gorm.Found service ->
     err = None /\
     (forall projectID st,
        m !! projectID = Some st ->
        In st (Gorm.service_teams d) /\ Gorm.live st = true /\
        Model.ServiceTeam.ServiceID st = Model.row_ID service /\
        Model.ServiceTeam.ProjectID st = projectID) /\
     (forall st, In st (Gorm.service_teams d) -> Gorm.live st = true ->
                 Model.ServiceTeam.ServiceID st = Model.row_ID service ->
                 is_Some (m !! Model.ServiceTeam.ProjectID st))).
Proof.
  cbv zeta. unfold Db.GetProjectServiceTeamMap, Db.getServiceByName. split.
  - intros ->. cbn. eauto.
  - intros service ->. cbn [fst snd]. split_and!; [done| |].
    + intros projectID st [Hm|[Hin Hk]]%fold_insert_Some; [by rewrite lookup_empty in Hm|].
      apply Find_In in Hin as (Hin & Hlive & Hsvc). by apply N.eqb_eq in Hsvc.
    + intros st Hin Hlive Hsvc. apply fold_insert_is_Some. right. exists st.
      split; [|done]. apply Find_In. split_and!; [done|done|]. by apply N.eqb_eq.
Qed.

Lemma GetProjectServiceTeamMap_lookup_witness :
  Gorm.First (Gorm.services Sample.db) (fun s => String.eqb (Model.Service.Name s) "FOSSA")
    = Gorm.Found (Model.Service.mk (Model.mkGormModel 1 None) "FOSSA" "") /\
  snd (Db.GetProjectServiceTeamMap Sample.db "FOSSA") = None /\
  is_Some (fst (Db.GetProjectServiceTeamMap Sample.db "FOSSA") !! 2%N).
Proof.
  split; [reflexivity|].
  destruct (proj2 (GetProjectServiceTeamMap_lookup Sample.db "FOSSA") _ eq_refl)
    as (Herr & _ & Hkeys).
  split; [exact Herr|].
  apply (Hkeys Sample.team6); [right; left|..]; reflexivity.
Defined.

Section ServiceTeams.
Import Model Errors Gorm Db.

Lemma First_NotFound_Find {A : Type} `{Row A} (rows : list A) (cond : A -> bool) :
  First rows cond = NotFound -> Find rows cond = [].
Proof.
  unfold First. destruct (least_ID (Find rows cond)) eqn:E; [done|].
  intros _. by apply least_ID_None.
Qed.

(** A live row appended to a table in which nothing matched is what the
    condition finds. *)
Lemma First_app_one {A : Type} `{Row A} (rows : list A) (row : A) (cond : A -> bool) :
  First rows cond = NotFound -> live row = true -> cond row = true ->
  First (rows ++ [row]) cond = Found row.
Proof.
  intros Hnone Hlive Hc. apply First_NotFound_Find in Hnone.
  unfold First, Find in *. rewrite List.filter_app, Hnone. cbn. by rewrite Hlive, Hc.
Qed.

Lemma Find_app_one {A : Type} `{Row A} (rows : list A) (row : A) (cond : A -> bool) :
  Find (rows ++ [row]) cond =
  (Find rows cond ++ if live row && cond row then [row] else [])%list.
Proof. unfold Find. rewrite List.filter_app. cbn. by destruct (live row && cond row). Qed.

(** What CreateServiceTeam does: nothing when a team with the FOSSA team
    ID is there, and an insert of the new team at the end of the table
    when none is. *)
Lemma CreateServiceTeam_cases d projectID projectName serviceID serviceName :
  let cond := fun r => (ServiceTeam.ServiceTeamID r =? serviceID)%Z in
  (exists r, First (service_teams d) cond = Found r /\
             CreateServiceTeam d projectID projectName serviceID serviceName = (d, Some r, None)) \/
  (exists st, First (service_teams d) cond = NotFound /\
              CreateServiceTeam d projectID projectName serviceID serviceName =
                (set_service_teams (service_teams d ++ [st]) d, Some st, None) /\
              live st = true /\
              row_ID st = next_ID (service_teams d) /\
              ServiceTeam.ProjectID st = projectID /\
              ServiceTeam.ServiceID st = 1%N /\
              ServiceTeam.ServiceTeamID st = serviceID /\
              ServiceTeam.ServiceTeamName st = Some serviceName /\
              ServiceTeam.ProjectName st = Some projectName).
Proof.
  cbv zeta. unfold CreateServiceTeam.
  destruct (First_cases (service_teams d) (fun r => (ServiceTeam.ServiceTeamID r =? serviceID)%Z))
    as [[r Hr]|Hn].
  - left. exists r. by rewrite Hr.
  - right. rewrite Hn. eexists. split; [done|]. cbn. split_and!; done.
Qed.

End ServiceTeams.

(** X14.  [CreateServiceTeam] is idempotent: on a database whose
    statements succeed, as those of the table model all do, it returns a
    nil error, and calling it again for the same FOSSA team ID, for
    whatever project and names, returns the row of the first call and
    leaves the database as the first call left it. *)
Theorem CreateServiceTeam_idempotent (d : Gorm.DB) (projectID projectID' : N)
    (projectName projectName' serviceName serviceName' : string) (serviceID : Z) :
  exists d1 st,
    Db.CreateServiceTeam d projectID projectName serviceID serviceName = (d1, Some st, None) /\
    Model.ServiceTeam.ServiceTeamID st = serviceID /\
    Db.CreateServiceTeam d1 projectID' projectName' serviceID serviceName' = (d1, Some st, None).
Proof.
  destruct (CreateServiceTeam_cases d projectID projectName serviceID serviceName)
    as [(r & Hr & ->)|(st & Hn & -> & Hlive & _ & _ & _ & Hid & _)].
  - exists d, r. split; [done|].
    pose proof (First_Found _ _ _ Hr) as (_ & _ & Hc & _). apply Z.eqb_eq in Hc.
    split; [done|]. unfold Db.CreateServiceTeam. by rewrite Hr.
  - eexists _, st. split; [done|]. split; [done|].
    unfold Db.CreateServiceTeam. cbn [Gorm.service_teams Gorm.set_service_teams].
    rewrite (First_app_one _ st _ Hn Hlive); [done|]. by apply Z.eqb_eq.
Qed.

(** X15.  A team that [CreateServiceTeam] records for a project is the one
    [GetProjectServiceTeamMap] holds for that project afterwards, provided
    that no team with that FOSSA team ID was recorded before and that the
    service looked up by name has the primary key 1, the service ID
    CreateServiceTeam writes into every row. *)
Theorem CreateServiceTeam_then_map (d : Gorm.DB) (projectID : N)
    (projectName serviceName : string) (serviceID : Z)
    (service : Model.Service.t) (name : string) :
  Gorm.First (Gorm.services d) (fun s => String.eqb (Model.Service.Name s) name)
    = Gorm.Found service ->
  Model.row_ID service = 1%N ->
  Gorm.First (Gorm.service_teams d)
    (fun r => (Model.ServiceTeam.ServiceTeamID r =? serviceID)%Z) = Gorm.NotFound ->
  exists d1 st,
    Db.CreateServiceTeam d projectID projectName serviceID serviceName = (d1, Some st, None) /\
    fst (Db.GetProjectServiceTeamMap d1 name) !! projectID = Some st /\
    Model.ServiceTeam.ServiceTeamID st = serviceID.
Proof.
  intros Hsvc Hone Hnew.
  destruct (CreateServiceTeam_cases d projectID projectName serviceID serviceName)
    as [(r & Hr & _)|(st & _ & -> & Hlive & _ & Hpid & Hsid & Hid & _)].
  { by rewrite Hnew in Hr. }
  eexists _, st. split; [done|]. split; [|done].
  unfold Db.GetProjectServiceTeamMap, Db.getServiceByName.
  cbn [Gorm.services Gorm.service_teams Gorm.set_service_teams]. rewrite Hsvc. cbn [fst].
  rewrite Find_app_one, Hlive, Hsid, Hone. cbn [andb N.eqb Pos.eqb].
  rewrite <- Hpid. apply (fold_insert_last Model.ServiceTeam.ProjectID).
Qed.

Lemma CreateServiceTeam_then_map_witness :
  Gorm.First (Gorm.services Sample.db) (fun s => String.eqb (Model.Service.Name s) "FOSSA")
    = Gorm.Found (Model.Service.mk (Model.mkGormModel 1 None) "FOSSA" "") /\
  Gorm.First (Gorm.service_teams Sample.db)
    (fun r => (Model.ServiceTeam.ServiceTeamID r =? 70)%Z) = Gorm.NotFound /\
  exists d1 st,
    Db.CreateServiceTeam Sample.db 2 "helm" 70 "helm" = (d1, Some st, None) /\
    fst (Db.GetProjectServiceTeamMap d1 "FOSSA") !! 2%N = Some st /\
    Model.ServiceTeam.ServiceTeamID st = 70%Z.
Proof.
  split; [reflexivity|]. split; [reflexivity|].
  apply (CreateServiceTeam_then_map Sample.db 2 "helm" "helm" 70
           (Model.Service.mk (Model.mkGormModel 1 None) "FOSSA" "") "FOSSA");
    reflexivity.
Defined.

(** ** Linking touches the links only *)

Section LinkFrame.
Import Go Model Errors Gorm Db.

Lemma links_added_refl d : links_added d d.
Proof. unfold links_added. split_and!; done. Qed.

Lemma links_added_trans d1 d2 d3 : links_added d1 d2 -> links_added d2 d3 -> links_added d1 d3.
Proof.
  unfold links_added. intros (? & ? & ? & ? & ? & ? & ? & ?) (? & ? & ? & ? & ? & ? & ? & ?).
  split_and!; try congruence. by etransitivity.
Qed.

Lemma links_added_set d rows :
  map row_ID (service_user_teams d) `prefix_of` map row_ID rows ->
  links_added d (set_service_user_teams rows d).
Proof. intros Hp. unfold links_added. split_and!; done. Qed.

Lemma insert_row_prefix (rows : list ServiceUserTeams.t) row :
  map row_ID rows `prefix_of` map row_ID (snd (insert_row rows row)).
Proof. unfold insert_row. cbn [snd]. rewrite map_app. by apply prefix_app_r. Qed.

Lemma Create_ServiceUserTeams_links d l :
  links_added d (Create_ServiceUserTeams d l).1.1.
Proof.
  unfold Create_ServiceUserTeams.
  destruct (foreign_keys d && _); [apply links_added_refl|].
  pose proof (insert_row_prefix (service_user_teams d) l) as Hp.
  destruct (insert_row (service_user_teams d) l) as [l' rows]. by apply links_added_set.
Qed.

Lemma Save_prefix (rows : list ServiceUserTeams.t) row :
  map row_ID rows `prefix_of` map row_ID (Save rows row).
Proof.
  unfold Save. destruct (existsb _ rows); [|apply insert_row_prefix].
  rewrite map_map. erewrite map_ext_in; [done|].
  intros r _. cbn beta. destruct (live r); [|done]. cbn [andb].
  destruct (N.eqb_spec (row_ID r) (row_ID row)); done.
Qed.

Lemma link_one_links su maintainer collaborator d linkErrors st :
  match link_one su maintainer collaborator d linkErrors st with
  | Returned (d', _) => links_added d d'
  | Panicked => True
  end.
Proof.
  unfold link_one. destruct st as [st|]; [|apply links_added_refl].
  unfold FirstOrCreate_ServiceUserTeams.
  destruct (First (service_user_teams d) _) as [r| |e] eqn:HF.
  - (* found *)
    set (upd1 := match maintainer with Some _ => _ | None => _ end).
    destruct upd1 as [l1 u1].
    set (upd2 := match collaborator with Some _ => _ | None => _ end).
    destruct upd2 as [l2 u2].
    destruct u2; [|apply links_added_refl].
    cbn. destruct (ServiceTeam.ServiceTeamName st); [|done].
    apply links_added_set, Save_prefix.
  - (* created *)
    pose proof (Create_ServiceUserTeams_links d
                  {| ServiceUserTeams.Model := zeroModel;
                     ServiceUserTeams.ServiceID := 1;
                     ServiceUserTeams.ServiceUserID := ServiceUser.ServiceUserID su;
                     ServiceUserTeams.ServiceTeamID := 0;
                     ServiceUserTeams.MaintainerID := None;
                     ServiceUserTeams.CollaboratorID := None |}) as Hc.
    destruct (Create_ServiceUserTeams d _) as [[d1 l1] [err|]]; cbn [fst] in Hc.
    + destruct (Is err ErrRecordNotFound).
      * by destruct (ServiceTeam.ServiceTeamName st).
      * match goal with |- context [Create_ServiceUserTeams d1 ?l] =>
          pose proof (Create_ServiceUserTeams_links d1 l) as Hc2;
          destruct (Create_ServiceUserTeams d1 l) as [[d2 l2] [err2|]] end;
          cbn [fst] in Hc2; by eapply links_added_trans.
    + set (upd1 := match maintainer with Some _ => _ | None => _ end).
      destruct upd1 as [l1' u1].
      set (upd2 := match collaborator with Some _ => _ | None => _ end).
      destruct upd2 as [l2 u2].
      destruct u2; [|done].
      cbn. destruct (ServiceTeam.ServiceTeamName st); [|done].
      eapply links_added_trans; [exact Hc|]. apply links_added_set, Save_prefix.
  - by apply First_no_error in HF.
Qed.

Lemma link_loop_links su maintainer collaborator sTeams : forall d linkErrors,
  match link_loop su maintainer collaborator d linkErrors sTeams with
  | Returned (d', _) => links_added d d'
  | Panicked => True
  end.
Proof.
  induction sTeams as [|st rest IH]; intros d linkErrors; cbn [link_loop].
  - apply links_added_refl.
  - pose proof (link_one_links su maintainer collaborator d linkErrors st) as H1.
    destruct (link_one su maintainer collaborator d linkErrors st) as [[d1 errs1]|]; [|done].
    specialize (IH d1 errs1).
    destruct (link_loop su maintainer collaborator d1 errs1 rest) as [[d2 errs2]|]; [|done].
    by eapply links_added_trans.
Qed.

End LinkFrame.

(** X16.  Whatever its arguments, [LinkServiceUserToTeam] changes nothing
    but the links between service users and teams: when it returns, every
    other table is as before, and the links that were there still are, with
    their primary keys and in their places; none is removed. *)
Theorem LinkServiceUserToTeam_links_only (d : Gorm.DB) (su : option Model.ServiceUser.t)
    (sTeams : list (option Model.ServiceTeam.t))
    (maintainer : option Model.Maintainer.t) (collaborator : option Model.Collaborator.t) :
  match Db.LinkServiceUserToTeam d su sTeams maintainer collaborator with
  | Go.Returned (d', _) => Db.links_added d d'
  | Go.Panicked => True
  end.
Proof.
  unfold Db.LinkServiceUserToTeam. destruct su as [su|]; [|apply links_added_refl].
  destruct (length sTeams =? 0)%nat; [apply links_added_refl|].
  destruct (bool_decide _ && bool_decide _); [apply links_added_refl|].
  pose proof (link_loop_links su maintainer collaborator sTeams d []) as Hl.
  destruct (Db.link_loop su maintainer collaborator d [] sTeams) as [[d' errs]|]; [|done].
  by destruct (0 <? length errs)%nat.
Qed.

(** ** Names that are labels already *)

Section LabelFixed.
Import Strings SyncNames.

Lemma TrimLeftFunc_fixed f s :
  (forall c, first_char s = Some c -> f c = false) -> TrimLeftFunc f s = s.
Proof. destruct s as [|c r]; cbn; [done|]. intros Hc. by rewrite (Hc c eq_refl). Qed.

Lemma TrimRightFunc_fixed f s :
  (forall c, last_char s = Some c -> f c = false) -> TrimRightFunc f s = s.
Proof.
  induction s as [|c r IH]; cbn [TrimRightFunc]; [done|]. intros Hc.
  destruct r as [|d r'].
  - cbn. by rewrite (Hc c eq_refl).
  - rewrite IH; [done|]. intros c' Hc'. apply Hc. exact Hc'.
Qed.

Lemma all_chars_first p s c : all_chars p s = true -> first_char s = Some c -> p c = true.
Proof. destruct s; cbn; [done|]. intros [? _]%andb_true_iff [= <-]. done. Qed.

Lemma all_chars_last p s c : all_chars p s = true -> last_char s = Some c -> p c = true.
Proof.
  induction s as [|d r IH]; [done|]. cbn [all_chars]. intros [Hd Hr]%andb_true_iff.
  destruct r as [|e r']; [by intros [= <-]|]. intros Hc. by apply IH.
Qed.

Lemma dns1123_char_not_space c : dns1123_char c = true -> is_space c = false.
Proof. destruct c as [[] [] [] [] [] [] [] []]; vm_compute; congruence. Qed.

Lemma replace_invalid_runs_fixed s : forall b,
  all_chars dns1123_char s = true -> replace_invalid_runs b s = s.
Proof.
  induction s as [|c r IH]; intros b; cbn; [done|].
  intros [Hc Hr]%andb_true_iff. by rewrite Hc, IH.
Qed.

Lemma not_dash_dot c : c <> "-"%char -> c <> "."%char -> contains_byte "-." c = false.
Proof.
  intros H1 H2. cbn. apply Ascii.eqb_neq in H1, H2. by rewrite H1, H2.
Qed.
End LabelFixed.

(** X17.  [sanitizeName] changes no name that is a DNS-1123 label already:
    a non-empty string of at most 63 characters from [a-z0-9.-] that
    neither starts nor ends with '-' or '.' is returned as it is.  So
    sanitizing the result of sanitizeName again changes nothing. *)
Theorem sanitizeName_label_fixed (r : string) :
  SyncNames.dns_label r -> SyncNames.sanitizeName_ascii r = r.
Proof.
  intros (Hne & Hlen & Hlow & Hall & Hfirst & Hlast).
  unfold SyncNames.sanitizeName_ascii, SyncNames.sanitizeName,
    SyncNames.dns1123InvalidChars_ReplaceAllString.
  apply String.eqb_neq in Hne. rewrite Hne, Hlow.
  assert (Strings.TrimSpace r = r) as ->.
  { unfold Strings.TrimSpace. rewrite TrimLeftFunc_fixed.
    - apply TrimRightFunc_fixed. intros c Hc.
      by apply dns1123_char_not_space, (all_chars_last _ r).
    - intros c Hc. by apply dns1123_char_not_space, (all_chars_first _ r). }
  rewrite (replace_invalid_runs_fixed r false Hall).
  assert (Strings.Trim r "-." = r) as ->.
  { unfold Strings.Trim. rewrite TrimLeftFunc_fixed.
    - apply TrimRightFunc_fixed. intros c Hc. destruct (Hlast c Hc). by apply not_dash_dot.
    - intros c Hc. destruct (Hfirst c Hc). by apply not_dash_dot. }
  rewrite Hne. apply Nat.ltb_ge in Hlen. by rewrite Hlen, Hne.
Qed.

Lemma sanitizeName_label_fixed_witness :
  SyncNames.dns_label "jane.doe-example.com" /\
  SyncNames.sanitizeName_ascii "jane.doe-example.com" = "jane.doe-example.com".
Proof.
  assert (SyncNames.dns_label "jane.doe-example.com") as Hl.
  { unfold SyncNames.dns_label. split_and!; try done; [cbn; lia|..];
      intros c Hc; injection Hc as <-; done. }
  split; [exact Hl|]. apply (sanitizeName_label_fixed "jane.doe-example.com"). exact Hl.
Defined.

(** ** projectSpecEqual *)

Section SpecEqual.
Import Model Errors Prog Apis Sync.

Lemma refs_differ_false a b : refs_differ a b = false <-> ref_name a = ref_name b.
Proof.
  destruct a as [ra|], b as [rb|]; cbn; try done.
  rewrite negb_false_iff, String.eqb_eq. split; congruence.
Qed.

(** The loop over b.MaintainerRefs: every name of [b] is a name of [a]. *)
Lemma names_subset (ra rb : list ResourceReference) :
  forallb (fun r => bool_decide (Apis.Name r ∈ (list_to_set (map Apis.Name ra) : gset string))) rb
    = true <->
  forall n, n ∈ map Apis.Name rb -> n ∈ map Apis.Name ra.
Proof.
  rewrite forallb_forall. split.
  - intros Hall n (r & -> & Hr)%list_elem_of_fmap.
    apply list_elem_of_In in Hr. specialize (Hall r Hr).
    apply bool_decide_eq_true in Hall. by apply elem_of_list_to_set in Hall.
  - intros Hsub r Hr. apply bool_decide_eq_true, elem_of_list_to_set, Hsub.
    apply list_elem_of_fmap. exists r. split; [done|]. by apply list_elem_of_In.
Qed.

Lemma projectSpecEqual_unfold a b :
  projectSpecEqual a b = true <->
  DisplayName a = DisplayName b /\
  Maturity a = Maturity b /\
  MailingList a = MailingList b /\
  OnboardingIssue a = OnboardingIssue b /\
  ref_name (ParentProjectRef a) = ref_name (ParentProjectRef b) /\
  ref_name (MaintainerLeadRef a) = ref_name (MaintainerLeadRef b) /\
  length (MaintainerRefs a) = length (MaintainerRefs b) /\
  forall n, n ∈ map Apis.Name (MaintainerRefs b) -> n ∈ map Apis.Name (MaintainerRefs a).
Proof.
  unfold projectSpecEqual.
  rewrite <- !refs_differ_false, <- names_subset.
  destruct (String.eqb_spec (DisplayName a) (DisplayName b)); cbn; [|split; [done|tauto]].
  destruct (String.eqb_spec (Maturity a) (Maturity b)); cbn; [|split; [done|tauto]].
  destruct (String.eqb_spec (MailingList a) (MailingList b)); cbn; [|split; [done|tauto]].
  destruct (String.eqb_spec (OnboardingIssue a) (OnboardingIssue b)); cbn;
    [|split; [done|tauto]].
  destruct (refs_differ (ParentProjectRef a) (ParentProjectRef b));
    [split; [done|intros (_ & _ & _ & _ & ? & _); done]|].
  destruct (refs_differ (MaintainerLeadRef a) (MaintainerLeadRef b));
    [split; [done|intros (_ & _ & _ & _ & _ & ? & _); done]|].
  destruct (Nat.eqb_spec (length (MaintainerRefs a)) (length (MaintainerRefs b))); cbn;
    [|split; [done|tauto]].
  tauto.
Qed.

End SpecEqual.

(** X18.  [projectSpecEqual] accepts two specs that agree on what the sync
    job writes: display name, maturity, mailing list, onboarding issue, the
    names of the parent and of the maintainer lead, and the maintainers'
    names up to their order; the other fields are not looked at.  It
    accepts only such specs when the maintainers' names of its second
    argument are distinct. *)
Theorem projectSpecEqual_agree (a b : Apis.ProjectSpec) :
  (Sync.specs_agree a b -> Sync.projectSpecEqual a b = true) /\
  (Sync.projectSpecEqual a b = true ->
   NoDup (map Apis.Name (Apis.MaintainerRefs b)) ->
   Sync.specs_agree a b).
Proof.
  rewrite projectSpecEqual_unfold. unfold Sync.specs_agree. split.
  - intros (? & ? & ? & ? & ? & ? & Hperm). split_and!; try done.
    + apply Permutation_length in Hperm. by rewrite !length_map in Hperm.
    + intros n Hn. by rewrite Hperm.
  - intros (? & ? & ? & ? & ? & ? & Hlen & Hsub) Hnodup. split_and!; try done.
    symmetry. apply submseteq_length_Permutation.
    + by apply NoDup_submseteq.
    + by rewrite !length_map, Hlen.
Qed.

(** ** Running the sync job again *)

Section SyncAgain.
Import Model Errors Prog Apis Sync.
Variables (ToLower TrimSpace : string -> string).

Local Abbreviation sanitizeName := (Sync.sanitizeName ToLower TrimSpace).
Local Abbreviation syncProject := (Sync.syncProject ToLower TrimSpace).
Local Abbreviation syncProjects_loop := (Sync.syncProjects_loop ToLower TrimSpace).
Local Abbreviation desiredSpec := (Sync.desiredSpec ToLower TrimSpace).
Local Abbreviation in_sync := (Sync.in_sync ToLower TrimSpace).

Lemma projectSpecEqual_refl spec : projectSpecEqual spec spec = true.
Proof. apply projectSpecEqual_unfold. split_and!; done. Qed.

Lemma well_keyed_insert c ns name obj :
  well_keyed c -> Namespace obj = ns -> ObjectName obj = name ->
  well_keyed (<[(ns, name) := obj]> c).
Proof.
  intros Hc Hns Hname ns' name' obj'.
  destruct (decide ((ns, name) = (ns', name'))) as [[= <- <-]|Hne].
  - rewrite lookup_insert_eq. by intros [= <-].
  - rewrite lookup_insert_ne by done. apply Hc.
Qed.

(** One row on the storing cluster: only the row's own key changes, and
    when no error comes back the CR is in sync. *)
Lemma syncProject_step ns byID p c :
  well_keyed c ->
  let out := run cluster_handler (syncProject ns byID p) c in
  well_keyed (state_of out) /\
  (forall key, key <> (ns, sanitizeName (Project.Name p)) -> state_of out !! key = c !! key) /\
  (result_of out = None -> in_sync ns byID (state_of out) p).
Proof.
  intros Hc. cbv zeta. unfold Sync.syncProject, Sync.in_sync. cbn.
  set (name := sanitizeName (Project.Name p)).
  set (spec := desiredSpec byID p).
  destruct (c !! (ns, name)) as [obj|] eqn:Hobj; cbn.
  - destruct (projectSpecEqual (Spec obj) spec) eqn:Heq; cbn.
    + split_and!; [done|done|]. intros _. by exists obj.
    + destruct (Hc ns name obj Hobj) as [Hns Hname]. rewrite Hns, Hname, Hobj. cbn.
      split_and!.
      * by apply well_keyed_insert.
      * intros key Hkey. by rewrite lookup_insert_ne.
      * intros _. eexists. rewrite lookup_insert_eq. split; [done|]. cbn.
        apply projectSpecEqual_refl.
  - rewrite Hobj. cbn. split_and!.
    + by apply well_keyed_insert.
    + intros key Hkey. by rewrite lookup_insert_ne.
    + intros _. eexists. rewrite lookup_insert_eq. split; [done|]. cbn.
      apply projectSpecEqual_refl.
Qed.

(** A row whose CR is in sync costs one Get and changes nothing. *)
Lemma syncProject_in_sync ns byID p c :
  in_sync ns byID c p ->
  exists obj,
    run cluster_handler (syncProject ns byID p) c =
    (None, c, [Event (Get {| KeyName := sanitizeName (Project.Name p); KeyNamespace := ns |})
                     (inl obj)]).
Proof.
  intros (obj & Hobj & Heq). exists obj. unfold Sync.syncProject. cbn.
  rewrite Hobj. cbn. fold (desiredSpec byID p). by rewrite Heq.
Qed.

Lemma syncProjects_loop_first ns byID ps : forall c,
  well_keyed c ->
  NoDup (map (fun p => sanitizeName (Project.Name p)) ps) ->
  let out := run cluster_handler (syncProjects_loop ns byID ps) c in
  well_keyed (state_of out) /\
  (forall key, key ∉ map (fun p => (ns, sanitizeName (Project.Name p))) ps ->
               state_of out !! key = c !! key) /\
  (result_of out = None -> forall p, In p ps -> in_sync ns byID (state_of out) p).
Proof.
  induction ps as [|p rest IH]; intros c Hc Hnodup; cbv zeta.
  - cbn. split_and!; done.
  - cbn [Sync.syncProjects_loop]. unfold mbind, prog_bind. rewrite run_bind.
    destruct (syncProject_step ns byID p c Hc) as (Hc1 & Hframe1 & Hsync1).
    destruct (run cluster_handler (syncProject ns byID p) c) as [[r c1] tr1].
    cbn [state_of result_of fst snd] in *.
    apply NoDup_cons in Hnodup as [Hp Hrest].
    destruct r as [err|].
    + cbn. split_and!; [done| |done].
      intros key Hkey. apply Hframe1. intros ->. apply Hkey. cbn. by left.
    + destruct (IH c1 Hc1 Hrest) as (Hc2 & Hframe2 & Hsync2).
      destruct (run cluster_handler (syncProjects_loop ns byID rest) c1) as [[r2 c2] tr2].
      cbn [state_of result_of fst snd] in *. split_and!; [done| |].
      * intros key Hkey. cbn in Hkey. apply not_elem_of_cons in Hkey as [Hk1 Hk2].
        rewrite Hframe2 by done. by apply Hframe1.
      * intros Hr q [<-|Hq]; [|by apply Hsync2].
        destruct (Hsync1 eq_refl) as (obj & Hobj & Heq). exists obj. split; [|done].
        rewrite Hframe2; [done|].
        intros (q' & [= Hq'] & Hin)%list_elem_of_fmap. apply Hp.
        apply list_elem_of_fmap. by exists q'.
Qed.

Lemma syncProjects_loop_again ns byID ps c :
  (forall p, In p ps -> in_sync ns byID c p) ->
  let out := run cluster_handler (syncProjects_loop ns byID ps) c in
  result_of out = None /\ state_of out = c /\
  forallb is_get (trace_of out) = true /\ length (trace_of out) = length ps.
Proof.
  induction ps as [|p rest IH]; intros Hall; cbv zeta; [done|].
  cbn [Sync.syncProjects_loop]. unfold mbind, prog_bind. rewrite run_bind.
  destruct (syncProject_in_sync ns byID p c (Hall p (or_introl eq_refl))) as (obj & ->).
  destruct IH as (Hr & Hs & Hg & Hl); [intros q Hq; apply Hall; by right|].
  destruct (run cluster_handler (syncProjects_loop ns byID rest) c) as [[r2 c2] tr2].
  cbn in *. by rewrite Hl.
Qed.

(** The name table of the first loop does not depend on the order in
    which the map is ranged over, as primary keys are distinct. *)
Lemma fold_insert_notin (l : list (string * Project.t)) (k : N) : forall m0 : gmap N string,
  k ∉ map (fun kv => row_ID kv.2) l ->
  fold_left (fun (m : gmap N string) kv => <[row_ID kv.2 := Project.Name kv.2]> m) l m0 !! k
  = m0 !! k.
Proof.
  induction l as [|x l IH]; intros m0 Hk; [done|]. cbn in *.
  apply not_elem_of_cons in Hk as [Hx Hl]. rewrite IH by done. by rewrite lookup_insert_ne.
Qed.

Lemma fold_insert_NoDup (l : list (string * Project.t)) (k : N) : forall m0 : gmap N string,
  NoDup (map (fun kv => row_ID kv.2) l) ->
  fold_left (fun (m : gmap N string) kv => <[row_ID kv.2 := Project.Name kv.2]> m) l m0 !! k
  = match List.find (fun kv => (row_ID kv.2 =? k)%N) l with
    | Some kv => Some (Project.Name kv.2)
    | None => m0 !! k
    end.
Proof.
  induction l as [|x l IH]; intros m0 Hnd; [done|]. cbn [fold_left List.find map] in *.
  apply NoDup_cons in Hnd as [Hx Hl].
  destruct (N.eqb_spec (row_ID x.2) k) as [<-|Hne].
  - rewrite fold_insert_notin by done. apply lookup_insert_eq.
  - rewrite IH by done. destruct (List.find _ l); [done|]. by rewrite lookup_insert_ne.
Qed.

Lemma find_perm (l1 l2 : list (string * Project.t)) (k : N) :
  l1 ≡ₚ l2 -> NoDup (map (fun kv => row_ID kv.2) l1) ->
  (Project.Name ∘ snd) <$> List.find (fun kv => (row_ID kv.2 =? k)%N) l1 =
  (Project.Name ∘ snd) <$> List.find (fun kv => (row_ID kv.2 =? k)%N) l2.
Proof.
  intros Hperm Hnd.
  assert (forall l l' : list (string * Project.t), l ≡ₚ l' ->
            NoDup (map (fun kv => row_ID kv.2) l) ->
            forall x, List.find (fun kv => (row_ID kv.2 =? k)%N) l = Some x ->
                      List.find (fun kv => (row_ID kv.2 =? k)%N) l' = Some x) as Hsome.
  { intros l l' Hp Hn x Hx.
    assert (NoDup (map (fun kv => row_ID kv.2) l')) as Hn' by by rewrite <- Hp.
    apply find_some in Hx as [Hin Hk]. apply N.eqb_eq in Hk.
    apply list_elem_of_In in Hin. rewrite Hp in Hin.
    clear Hp Hn l. induction l' as [|y l' IH]; [by apply elem_of_nil in Hin|].
    cbn in *. apply NoDup_cons in Hn' as [Hy Hn'].
    apply elem_of_cons in Hin as [->|Hin]; [by rewrite Hk, N.eqb_refl|].
    destruct (N.eqb_spec (row_ID y.2) k) as [Heq|_]; [|by apply IH].
    exfalso. apply Hy. apply list_elem_of_fmap. exists x. split; [congruence|done]. }
  destruct (List.find _ l1) as [x|] eqn:E1.
  - by rewrite (Hsome l1 l2 Hperm Hnd x E1).
  - destruct (List.find _ l2) as [y|] eqn:E2; [|done].
    assert (NoDup (map (fun kv => row_ID kv.2) l2)) as Hnd2 by by rewrite <- Hperm.
    by rewrite (Hsome l2 l1 (symmetry Hperm) Hnd2 y E2) in E1.
Qed.

Lemma parentNameByID_order (range1 range2 : gmap string Project.t -> list (string * Project.t))
    (m : gmap string Project.t) :
  range1 m ≡ₚ map_to_list m -> range2 m ≡ₚ map_to_list m ->
  NoDup (map (fun kv => row_ID kv.2) (map_to_list m)) ->
  parentNameByID range1 m = parentNameByID range2 m.
Proof.
  intros H1 H2 Hnd. apply map_eq. intros k. unfold parentNameByID.
  assert (NoDup (map (fun kv => row_ID kv.2) (range1 m))) as Hnd1 by by rewrite H1.
  assert (NoDup (map (fun kv => row_ID kv.2) (range2 m))) as Hnd2 by by rewrite H2.
  rewrite !fold_insert_NoDup by done. rewrite lookup_empty.
  pose proof (find_perm (range1 m) (range2 m) k) as Hf.
  rewrite H1, H2 in Hf at 1. specialize (Hf (reflexivity _) Hnd1).
  destruct (List.find _ (range1 m)), (List.find _ (range2 m)); cbn in Hf; congruence.
Qed.

End SyncAgain.

(** X19.  A run of [syncProjects] right after one that returned nil only
    reads: it makes one Get per project, no Create and no Update, returns
    nil and leaves the cluster as it was, in whatever order the two runs
    range over the projects.  This holds on a cluster that stores what it
    is given, for project rows with distinct primary keys, when no two
    project names sanitize to the same object name. *)
Theorem syncProjects_again (ToLower TrimSpace : string -> string)
    (range1 range2 : gmap string Model.Project.t -> list (string * Model.Project.t))
    (d : Gorm.DB) (ns : string) (c : gmap (string * string) Apis.Project) :
  (forall m, range1 m ≡ₚ map_to_list m) ->
  (forall m, range2 m ≡ₚ map_to_list m) ->
  let m := fst (Db.GetProjectMapByName d) in
  NoDup (map (fun kv => Model.row_ID kv.2) (map_to_list m)) ->
  NoDup (map (fun kv => SyncNames.sanitizeName ToLower TrimSpace (Model.Project.Name kv.2))
             (map_to_list m)) ->
  Sync.well_keyed c ->
  let first := Prog.run Sync.cluster_handler (Sync.syncProjects ToLower TrimSpace range1 d ns) c in
  Prog.result_of first = None ->
  let second := Prog.run Sync.cluster_handler (Sync.syncProjects ToLower TrimSpace range2 d ns)
                  (Prog.state_of first) in
  Prog.result_of second = None /\
  Prog.state_of second = Prog.state_of first /\
  forallb Sync.is_get (Prog.trace_of second) = true /\
  length (Prog.trace_of second) = size m.
Proof.
  intros H1 H2 m Hids Hnames Hc. unfold Sync.syncProjects.
  change (Db.GetProjectMapByName d) with (m, @None Errors.error). cbv beta iota zeta.
  rewrite <- (parentNameByID_order range1 range2 m (H1 m) (H2 m) Hids).
  set (byID := Sync.parentNameByID range1 m).
  assert (NoDup (map (fun p => Sync.sanitizeName ToLower TrimSpace (Model.Project.Name p))
                     (map snd (range1 m)))) as Hnd.
  { rewrite map_map. by rewrite (H1 m). }
  destruct (syncProjects_loop_first ToLower TrimSpace ns byID (map snd (range1 m)) c Hc Hnd)
    as (_ & _ & Hsync).
  intros Hr. specialize (Hsync Hr).
  destruct (syncProjects_loop_again ToLower TrimSpace ns byID (map snd (range2 m))
              (Prog.state_of (Prog.run Sync.cluster_handler
                 (Sync.syncProjects_loop ToLower TrimSpace ns byID (map snd (range1 m))) c)))
    as (Hr2 & Hs2 & Hg2 & Hl2).
  { intros p Hp. apply Hsync. apply list_elem_of_In. apply list_elem_of_In in Hp.
    assert (map snd (range1 m) ≡ₚ map snd (range2 m)) as -> by by rewrite (H1 m), (H2 m).
    done. }
  split_and!; [done|done|done|].
  rewrite Hl2, length_map, (H2 m). apply length_map_to_list.
Qed.

Lemma syncProjects_again_witness :
  let m := fst (Db.GetProjectMapByName Sample.db) in
  let first := Prog.run Sync.cluster_handler (Sync.syncProjects_ascii Sample.db "maintainerd") ∅ in
  let second := Prog.run Sync.cluster_handler (Sync.syncProjects_ascii Sample.db "maintainerd")
                  (Prog.state_of first) in
  NoDup (map (fun kv => Model.row_ID kv.2) (map_to_list m)) /\
  NoDup (map (fun kv => SyncNames.sanitizeName_ascii (Model.Project.Name kv.2))
             (map_to_list m)) /\
  Sync.well_keyed ∅ /\
  Prog.result_of first = None /\
  Prog.result_of second = None /\
  Prog.state_of second = Prog.state_of first /\
  forallb Sync.is_get (Prog.trace_of second) = true /\
  length (Prog.trace_of second) = size m.
Proof.
  cbv zeta.
  assert (NoDup (map (fun kv => Model.row_ID kv.2)
                     (map_to_list (fst (Db.GetProjectMapByName Sample.db))))) as Hids.
  { vm_compute. repeat (apply NoDup_cons_2;
             [repeat (apply not_elem_of_cons; split; [done|]); apply not_elem_of_nil|]).
    apply NoDup_nil_2. }
  assert (NoDup (map (fun kv => SyncNames.sanitizeName_ascii (Model.Project.Name kv.2))
                     (map_to_list (fst (Db.GetProjectMapByName Sample.db))))) as Hnames.
  { vm_compute. repeat (apply NoDup_cons_2;
             [repeat (apply not_elem_of_cons; split; [done|]); apply not_elem_of_nil|]).
    apply NoDup_nil_2. }
  assert (Sync.well_keyed ∅) as Hc.
  { intros ns name obj Hobj. by rewrite lookup_empty in Hobj. }
  assert (Prog.result_of (Prog.run Sync.cluster_handler
                            (Sync.syncProjects_ascii Sample.db "maintainerd") ∅) = None) as Hr.
  { vm_compute. reflexivity. }
  split_and!; [exact Hids|exact Hnames|exact Hc|exact Hr|..];
    apply (syncProjects_again Strings.ToLower Strings.TrimSpace map_to_list map_to_list
             Sample.db "maintainerd" ∅ (fun m => reflexivity _) (fun m => reflexivity _)
             Hids Hnames Hc Hr).
Defined.

(** ** Reading the worksheet *)

Section SheetFacts.
Import Errors Sheets.
Context {Cell : Type}.
Variable Sprint : Cell -> string.
Variable TrimSpace : string -> string.

Local Abbreviation cell_value := (Sheets.cell_value Sprint TrimSpace).
Local Abbreviation fill_row := (Sheets.fill_row Sprint TrimSpace).
Local Abbreviation rows_loop := (Sheets.rows_loop Sprint TrimSpace).
Local Abbreviation last_filled := (Sheets.last_filled Sprint TrimSpace).

(** The value a column carries after the rows given, from [before]. *)
Local Abbreviation carry col before rows :=
  (default before (last (List.filter (fun v => negb (String.eqb v ""))
                                     (map (fun r => cell_value r col) rows)))).

Lemma carry_cons col before r rows :
  carry col before (r :: rows) =
  carry col (if negb (String.eqb (cell_value r col) "") then cell_value r col else before) rows.
Proof.
  cbn [map List.filter]. destruct (negb (String.eqb (cell_value r col) "")); [|done].
  rewrite last_cons. by destruct (last _).
Qed.

Lemma only_column_head h rest name :
  only_column (h :: rest) name 0 -> h = name /\ forall i, rest !! i <> Some name.
Proof.
  intros Hc. split.
  - pose proof (proj2 (Hc 0%nat) eq_refl) as H0. by injection H0.
  - intros i Hi. by pose proof (proj1 (Hc (S i)) Hi).
Qed.

Lemma only_column_tail h rest name col :
  only_column (h :: rest) name (S col) -> h <> name /\ only_column rest name col.
Proof.
  intros Hc. split.
  - intros ->. by pose proof (proj1 (Hc 0%nat) eq_refl).
  - intros i. specialize (Hc (S i)). cbn in Hc. rewrite Hc. split; [by intros [= ->]|by intros ->].
Qed.

Lemma absent_tail (h : string) rest name :
  (forall i, (h :: rest) !! i <> Some name) -> h <> name /\ forall i, rest !! i <> Some name.
Proof.
  intros Hn. split; [intros ->; by apply (Hn 0%nat)|]. intros i. apply (Hn (S i)).
Qed.

Lemma Is_refl (e : error) : Is e e = true.
Proof. destruct e; cbn [Is]; by rewrite bool_decide_eq_true_2. Qed.

(** *** The column indexes *)

Lemma header_indexes_no_project headers : forall i projIdx statIdx,
  (forall k, headers !! k <> Some "Project") ->
  fst (header_indexes headers i projIdx statIdx) = projIdx.
Proof.
  induction headers as [|h rest IH]; intros i projIdx statIdx Hn; [done|].
  apply absent_tail in Hn as [Hh Hrest]. cbn [header_indexes].
  apply String.eqb_neq in Hh. rewrite Hh.
  destruct (String.eqb h "Status"); by apply IH.
Qed.

Lemma header_indexes_project headers : forall col i projIdx statIdx,
  only_column headers "Project" col ->
  fst (header_indexes headers i projIdx statIdx) = Z.of_nat (i + col).
Proof.
  induction headers as [|h rest IH]; intros col i projIdx statIdx Hc.
  { by pose proof (proj2 (Hc col) eq_refl). }
  cbn [header_indexes]. destruct col as [|col].
  - apply only_column_head in Hc as [-> Hrest]. cbn.
    rewrite header_indexes_no_project by done. f_equal. lia.
  - apply only_column_tail in Hc as [Hh Hrest]. apply String.eqb_neq in Hh. rewrite Hh.
    destruct (String.eqb h "Status"); rewrite (IH col) by done; f_equal; lia.
Qed.

Lemma header_indexes_no_status headers : forall i projIdx statIdx,
  (forall k, headers !! k <> Some "Status") ->
  snd (header_indexes headers i projIdx statIdx) = statIdx.
Proof.
  induction headers as [|h rest IH]; intros i projIdx statIdx Hn; [done|].
  apply absent_tail in Hn as [Hh Hrest]. cbn [header_indexes].
  apply String.eqb_neq in Hh. rewrite Hh.
  destruct (String.eqb h "Project"); by apply IH.
Qed.

Lemma header_indexes_status headers : forall col i projIdx statIdx,
  only_column headers "Status" col ->
  snd (header_indexes headers i projIdx statIdx) = Z.of_nat (i + col).
Proof.
  induction headers as [|h rest IH]; intros col i projIdx statIdx Hc.
  { by pose proof (proj2 (Hc col) eq_refl). }
  cbn [header_indexes]. destruct col as [|col].
  - apply only_column_head in Hc as [-> Hrest]. cbn.
    rewrite header_indexes_no_status by done. f_equal. lia.
  - apply only_column_tail in Hc as [Hh Hrest]. apply String.eqb_neq in Hh. rewrite Hh.
    destruct (String.eqb h "Project"); rewrite (IH col) by done; f_equal; lia.
Qed.

(** *** One row *)

(** Columns after the Project column leave the Project entry alone. *)
Lemma fill_row_no_project headers r projIdx statIdx : forall i rowMap lastProject lastStatus,
  (forall k, headers !! k <> Some "Project") ->
  (projIdx < Z.of_nat i)%Z ->
  let out := fill_row headers i r projIdx statIdx rowMap lastProject lastStatus in
  out.1.1 !! "Project" = rowMap !! "Project" /\ out.1.2 = lastProject.
Proof.
  induction headers as [|h rest IH]; intros i rowMap lastProject lastStatus Hn Hlt; [done|].
  apply absent_tail in Hn as [Hh Hrest]. cbv zeta. cbn [Sheets.fill_row].
  destruct (Z.eqb_spec (Z.of_nat i) projIdx); [lia|].
  destruct (Z.of_nat i =? statIdx)%Z;
    match goal with |- context [fill_row rest (S i) r projIdx statIdx ?m ?lp ?ls] =>
      destruct (IH (S i) m lp ls Hrest) as [-> ->]; [lia|] end;
    by rewrite lookup_insert_ne.
Qed.

Lemma fill_row_project headers r statIdx :
  forall col i rowMap lastProject lastStatus,
  only_column headers "Project" col ->
  let out := fill_row headers i r (Z.of_nat (i + col)) statIdx rowMap lastProject lastStatus in
  let carried := if negb (String.eqb (cell_value r (i + col)) "")
                 then cell_value r (i + col) else lastProject in
  out.1.1 !! "Project" = Some carried /\ out.1.2 = carried.
Proof.
  induction headers as [|h rest IH]; intros col i rowMap lastProject lastStatus Hc.
  { by pose proof (proj2 (Hc col) eq_refl). }
  cbv zeta. cbn [Sheets.fill_row]. destruct col as [|col].
  - apply only_column_head in Hc as [-> Hrest].
    rewrite Nat.add_0_r, Z.eqb_refl.
    match goal with |- context [fill_row rest (S i) r _ statIdx (<[_ := ?v]> rowMap) _ _] =>
      destruct (fill_row_no_project rest r (Z.of_nat i) statIdx (S i)
                  (<["Project" := v]> rowMap) v lastStatus Hrest) as [-> ->]; [lia|] end.
    by rewrite lookup_insert_eq.
  - apply only_column_tail in Hc as [Hh Hrest].
    destruct (Z.eqb_spec (Z.of_nat i) (Z.of_nat (i + S col))); [lia|].
    replace (i + S col)%nat with (S i + col)%nat by lia.
    destruct (Z.of_nat i =? statIdx)%Z; by apply IH.
Qed.

(** Columns after the Status column leave the Status entry alone. *)
Lemma fill_row_no_status headers r projIdx statIdx : forall i rowMap lastProject lastStatus,
  (forall k, headers !! k <> Some "Status") ->
  (statIdx < Z.of_nat i)%Z ->
  let out := fill_row headers i r projIdx statIdx rowMap lastProject lastStatus in
  out.1.1 !! "Status" = rowMap !! "Status" /\ out.2 = lastStatus.
Proof.
  induction headers as [|h rest IH]; intros i rowMap lastProject lastStatus Hn Hlt; [done|].
  apply absent_tail in Hn as [Hh Hrest]. cbv zeta. cbn [Sheets.fill_row].
  destruct (Z.of_nat i =? projIdx)%Z.
  - match goal with |- context [fill_row rest (S i) r projIdx statIdx ?m ?lp ?ls] =>
      destruct (IH (S i) m lp ls Hrest) as [-> ->]; [lia|] end.
    by rewrite lookup_insert_ne.
  - destruct (Z.eqb_spec (Z.of_nat i) statIdx); [lia|].
    match goal with |- context [fill_row rest (S i) r projIdx statIdx ?m ?lp ?ls] =>
      destruct (IH (S i) m lp ls Hrest) as [-> ->]; [lia|] end.
    by rewrite lookup_insert_ne.
Qed.

Lemma fill_row_status headers r projIdx :
  forall col i rowMap lastProject lastStatus,
  only_column headers "Status" col ->
  projIdx <> Z.of_nat (i + col) ->
  let out := fill_row headers i r projIdx (Z.of_nat (i + col)) rowMap lastProject lastStatus in
  let carried := if negb (String.eqb (cell_value r (i + col)) "")
                 then cell_value r (i + col) else lastStatus in
  out.1.1 !! "Status" = Some carried /\ out.2 = carried.
Proof.
  induction headers as [|h rest IH]; intros col i rowMap lastProject lastStatus Hc Hp.
  { by pose proof (proj2 (Hc col) eq_refl). }
  cbv zeta. cbn [Sheets.fill_row]. destruct col as [|col].
  - apply only_column_head in Hc as [-> Hrest].
    rewrite Nat.add_0_r in *. destruct (Z.eqb_spec (Z.of_nat i) projIdx); [done|].
    rewrite Z.eqb_refl.
    match goal with |- context [fill_row rest (S i) r _ _ (<[_ := ?v]> rowMap) _ _] =>
      destruct (fill_row_no_status rest r projIdx (Z.of_nat i) (S i)
                  (<["Status" := v]> rowMap) lastProject v Hrest) as [-> ->]; [lia|] end.
    by rewrite lookup_insert_eq.
  - apply only_column_tail in Hc as [Hh Hrest].
    replace (i + S col)%nat with (S i + col)%nat in * by lia.
    destruct (Z.of_nat i =? projIdx)%Z; [by apply IH|].
    destruct (Z.eqb_spec (Z.of_nat i) (Z.of_nat (S i + col))); [lia|]. by apply IH.
Qed.

(** *** The rows *)

Lemma rows_loop_project headers statIdx col data : forall k lastProject lastStatus,
  only_column headers "Project" col ->
  (k < length data)%nat ->
  exists rowMap,
    rows_loop headers (Z.of_nat col) statIdx data lastProject lastStatus !! k = Some rowMap /\
    rowMap !! "Project" = Some (carry col lastProject (take (S k) data)).
Proof.
  induction data as [|r rest IH]; intros k lastProject lastStatus Hc Hk; [cbn in Hk; lia|].
  cbn [Sheets.rows_loop].
  pose proof (fill_row_project headers r statIdx col 0 ∅ lastProject lastStatus Hc) as Hrow.
  cbv zeta in Hrow. cbn [Nat.add] in Hrow.
  destruct (fill_row headers 0 r (Z.of_nat col) statIdx ∅ lastProject lastStatus)
    as [[rowMap lastProject'] lastStatus'].
  cbn [fst snd] in Hrow. destruct Hrow as [Hp Hlast].
  destruct k as [|k].
  - exists rowMap. split; [done|]. rewrite Hp. f_equal.
    change (take 1 (r :: rest)) with [r]. by rewrite carry_cons.
  - destruct (IH k lastProject' lastStatus' Hc) as (m & Hm & Hproj); [cbn in Hk; lia|].
    exists m. split; [done|]. rewrite Hproj, Hlast. f_equal.
    change (take (S (S k)) (r :: rest)) with (r :: take (S k) rest). by rewrite carry_cons.
Qed.

Lemma rows_loop_status headers projIdx col data : forall k lastProject lastStatus,
  only_column headers "Status" col ->
  projIdx <> Z.of_nat col ->
  (k < length data)%nat ->
  exists rowMap,
    rows_loop headers projIdx (Z.of_nat col) data lastProject lastStatus !! k = Some rowMap /\
    rowMap !! "Status" = Some (carry col lastStatus (take (S k) data)).
Proof.
  induction data as [|r rest IH]; intros k lastProject lastStatus Hc Hne Hk; [cbn in Hk; lia|].
  cbn [Sheets.rows_loop].
  pose proof (fill_row_status headers r projIdx col 0 ∅ lastProject lastStatus Hc Hne) as Hrow.
  cbv zeta in Hrow. cbn [Nat.add] in Hrow.
  destruct (fill_row headers 0 r projIdx (Z.of_nat col) ∅ lastProject lastStatus)
    as [[rowMap lastProject'] lastStatus'].
  cbn [fst snd] in Hrow. destruct Hrow as [Hp Hlast].
  destruct k as [|k].
  - exists rowMap. split; [done|]. rewrite Hp. f_equal.
    change (take 1 (r :: rest)) with [r]. by rewrite carry_cons.
  - destruct (IH k lastProject' lastStatus' Hc Hne) as (m & Hm & Hstat); [cbn in Hk; lia|].
    exists m. split; [done|]. rewrite Hstat, Hlast. f_equal.
    change (take (S (S k)) (r :: rest)) with (r :: take (S k) rest). by rewrite carry_cons.
Qed.

(** The index found for "Project" is not that of a column headed
    "Status". *)
Lemma header_indexes_apart headers col :
  only_column headers "Status" col ->
  fst (header_indexes headers 0 (-1) (-1)) <> Z.of_nat col.
Proof.
  intros Hs.
  assert (forall hs i projIdx statIdx,
            fst (header_indexes hs i projIdx statIdx) = projIdx \/
            exists k, hs !! k = Some "Project" /\
                      fst (header_indexes hs i projIdx statIdx) = Z.of_nat (i + k)) as Hcases.
  { induction hs as [|h rest IH]; intros i projIdx statIdx; [by left|].
    cbn [header_indexes]. destruct (String.eqb_spec h "Project") as [->|Hh].
    - destruct (IH (S i) (Z.of_nat i) statIdx) as [->|(k & Hk & ->)].
      + right. exists 0%nat. split; [done|]. f_equal. lia.
      + right. exists (S k). split; [done|]. f_equal. lia.
    - destruct (String.eqb h "Status").
      + destruct (IH (S i) projIdx (Z.of_nat i)) as [->|(k & Hk & ->)]; [by left|].
        right. exists (S k). split; [done|]. f_equal. lia.
      + destruct (IH (S i) projIdx statIdx) as [->|(k & Hk & ->)]; [by left|].
        right. exists (S k). split; [done|]. f_equal. lia. }
  destruct (Hcases headers 0%nat (-1)%Z (-1)%Z) as [->|(k & Hk & ->)]; [lia|].
  cbn [Nat.add]. intros Heq. apply Nat2Z.inj in Heq. subst k.
  pose proof (proj2 (Hs col) eq_refl) as Hc. congruence.
Qed.

(** Every row has an entry for every header, and for nothing else. *)
Lemma fill_row_dom headers r projIdx statIdx : forall i rowMap lastProject lastStatus,
  dom (fill_row headers i r projIdx statIdx rowMap lastProject lastStatus).1.1
  = dom rowMap ∪ (list_to_set headers : gset string).
Proof.
  induction headers as [|h rest IH]; intros i rowMap lastProject lastStatus.
  - cbn. by rewrite (right_id_L ∅ (∪)).
  - cbn [Sheets.fill_row list_to_set].
    destruct (Z.of_nat i =? projIdx)%Z; [|destruct (Z.of_nat i =? statIdx)%Z];
      rewrite IH, dom_insert_L, (comm_L (∪) {[h]} (dom rowMap)); by rewrite (assoc_L (∪)).
Qed.

Lemma rows_loop_shape headers projIdx statIdx data : forall lastProject lastStatus,
  length (rows_loop headers projIdx statIdx data lastProject lastStatus) = length data /\
  Forall (fun rowMap => dom rowMap = (list_to_set headers : gset string))
         (rows_loop headers projIdx statIdx data lastProject lastStatus).
Proof.
  induction data as [|r rest IH]; intros lastProject lastStatus; [by split|].
  cbn [Sheets.rows_loop].
  pose proof (fill_row_dom headers r projIdx statIdx 0 ∅ lastProject lastStatus) as Hd.
  destruct (fill_row headers 0 r projIdx statIdx ∅ lastProject lastStatus)
    as [[rowMap lastProject'] lastStatus'].
  cbn [fst] in Hd. destruct (IH lastProject' lastStatus') as [Hlen Hall].
  split; [cbn; by rewrite Hlen|]. constructor; [|done].
  by rewrite Hd, dom_empty_L, (left_id_L ∅ (∪)).
Qed.

End SheetFacts.

(** X20.  [readSheetRows] carries the project forward: when one column is
    headed "Project", every row it returns holds, under "Project", the
    last cell of that column that is not blank, in the rows up to and
    including this one ("" when there is none yet); and the same under
    "Status" when one column is headed so. *)
Theorem readSheetRows_carries {Cell : Type} (Sprint : Cell -> string)
    (TrimSpace : string -> string) (spreadsheetID : string)
    (row0 : list Cell) (data : list (list Cell)) (col k : nat) :
  Sheets.only_column (Sheets.header_cells Sprint TrimSpace row0) "Project" col ->
  (k < length data)%nat ->
  exists rowMap,
    fst (Sheets.readSheetRows Sprint TrimSpace spreadsheetID (inl (row0 :: data))) !! k
      = Some rowMap /\
    rowMap !! "Project" = Some (Sheets.last_filled Sprint TrimSpace col (take (S k) data)) /\
    forall statusCol,
      Sheets.only_column (Sheets.header_cells Sprint TrimSpace row0) "Status" statusCol ->
      rowMap !! "Status" = Some (Sheets.last_filled Sprint TrimSpace statusCol (take (S k) data)).
Proof.
  intros Hp Hk. unfold Sheets.readSheetRows, Sheets.last_filled.
  set (headers := Sheets.header_cells Sprint TrimSpace row0) in *.
  pose proof (header_indexes_project headers col 0 (-1) (-1) Hp) as Hproj.
  destruct (Sheets.header_indexes headers 0 (-1) (-1)) as [projIdx statIdx] eqn:Hidx.
  cbn [fst Nat.add] in *. subst projIdx.
  destruct (rows_loop_project Sprint TrimSpace headers statIdx col data k "" "" Hp Hk)
    as (rowMap & Hrow & Hproject).
  exists rowMap. split_and!; [done|done|].
  intros statusCol Hs.
  pose proof (header_indexes_status headers statusCol 0 (-1) (-1) Hs) as Hstat.
  pose proof (header_indexes_apart headers statusCol Hs) as Hne.
  rewrite Hidx in Hstat, Hne. cbn [fst snd Nat.add] in *. subst statIdx.
  destruct (rows_loop_status Sprint TrimSpace headers (Z.of_nat col) statusCol data k "" ""
              Hs Hne Hk) as (rowMap' & Hrow' & Hstatus).
  rewrite Hrow in Hrow'. by injection Hrow' as <-.
Qed.

Lemma readSheetRows_carries_witness :
  let rows := fst (Sheets.readSheetRows (fun s => s) Strings.TrimSpace "sheet"
                     (inl Sheets.sample_sheet)) in
  Sheets.only_column (Sheets.header_cells (fun s => s) Strings.TrimSpace
                        ["Status"; " Project "; "Maintainer Name"; "Emails"]) "Project" 1 /\
  exists rowMap, rows !! 3%nat = Some rowMap /\ rowMap !! "Project" = Some "helm".
Proof.
  cbv zeta.
  assert (Sheets.only_column (Sheets.header_cells (fun s => s) Strings.TrimSpace
                                ["Status"; " Project "; "Maintainer Name"; "Emails"])
                             "Project" 1) as Hc.
  { intros [|[|[|[|[|i]]]]]; vm_compute; split; congruence. }
  split; [exact Hc|].
  destruct (readSheetRows_carries (fun s => s) Strings.TrimSpace "sheet"
              ["Status"; " Project "; "Maintainer Name"; "Emails"]
              (tl Sheets.sample_sheet) 1 3 Hc) as (rowMap & Hrow & Hproject & _).
  { vm_compute. lia. }
  exists rowMap. split; [exact Hrow|exact Hproject].
Defined.

(** X21.  [readSheetRows] fails when the Sheets API fails and when the
    worksheet has no row at all.  Otherwise it returns one map per row
    below the header row, in order, and every map has an entry for every
    header and for nothing else. *)
Theorem readSheetRows_shape {Cell : Type} (Sprint : Cell -> string)
    (TrimSpace : string -> string) (spreadsheetID : string)
    (resp : list (list Cell) + Errors.error) :
  let out := Sheets.readSheetRows Sprint TrimSpace spreadsheetID resp in
  match resp with
  | inl (row0 :: data) =>
      snd out = None /\
      length (fst out) = length data /\
      Forall (fun rowMap =>
                dom rowMap = (list_to_set (Sheets.header_cells Sprint TrimSpace row0)
                              : gset string))
             (fst out)
  | inl [] => fst out = [] /\ is_Some (snd out)
  | inr err => fst out = [] /\ exists e, snd out = Some e /\ Errors.Is e err = true
  end.
Proof.
  cbv zeta. destruct resp as [[|row0 data]|err]; cbn [Sheets.readSheetRows].
  - by split.
  - destruct (Sheets.header_indexes _ 0 (-1) (-1)) as [projIdx statIdx]. cbn [fst snd].
    split; [done|]. apply rows_loop_shape.
  - split; [done|]. eexists. split; [done|]. cbn [Errors.Is].
    rewrite (Is_refl err). apply orb_true_r.
Qed.

(** ** The teams of a FOSSA user *)

Section TeamsFacts.
Import Go Model Errors Gorm Db.

Lemma next_ID_gt {A : Type} `{Row A} (rows : list A) (y : A) :
  In y rows -> (row_ID y < next_ID rows)%N.
Proof.
  unfold next_ID. induction rows as [|r rows IH]; [done|]. cbn.
  intros [->|Hy]; [lia|]. specialize (IH Hy). lia.
Qed.

Lemma grown_refl rows : grown rows rows.
Proof. exists []. split; [by rewrite app_nil_r|]. by intros x y []. Qed.

Lemma grown_trans rows1 rows2 rows3 : grown rows1 rows2 -> grown rows2 rows3 -> grown rows1 rows3.
Proof.
  intros (e1 & -> & H1) (e2 & -> & H2). exists (e1 ++ e2)%list. split; [by rewrite app_assoc|].
  intros x y [Hx|Hx]%in_app_iff Hy; [by apply H1|].
  apply H2; [done|]. apply in_app_iff. by left.
Qed.

Lemma grown_prefix rows rows' : grown rows rows' -> rows `prefix_of` rows'.
Proof. intros (e & -> & _). by exists e. Qed.

(** The least key among rows followed by rows with greater keys. *)
Lemma least_ID_app_greater {A : Type} `{Row A} (rows extra : list A) (r : A) :
  least_ID rows = Some r ->
  (forall x y, In x extra -> In y rows -> (row_ID y < row_ID x)%N) ->
  least_ID (rows ++ extra) = Some r.
Proof.
  revert r. induction rows as [|h t IH]; intros r; [done|].
  cbn [least_ID app]. intros Hr Hgt.
  destruct (least_ID t) as [r'|] eqn:Ht.
  - rewrite (IH r' eq_refl); [done|]. intros x y Hx Hy. apply Hgt; [done|by right].
  - apply least_ID_None in Ht as ->. injection Hr as <-. cbn [app].
    destruct (least_ID extra) as [b|] eqn:Hb; [|done].
    apply least_ID_Some in Hb as [Hb _].
    specialize (Hgt b h Hb (or_introl eq_refl)).
    destruct (N.leb_spec (row_ID h) (row_ID b)); [done|lia].
Qed.

(** What the lookup found stays what it finds when the table grows. *)
Lemma team_found_grown d d' serviceTeamID t :
  team_found d serviceTeamID t -> grown (service_teams d) (service_teams d') ->
  team_found d' serviceTeamID t.
Proof.
  unfold team_found, First, Find. intros Hf (extra & -> & Hgt).
  destruct (least_ID (List.filter _ (service_teams d))) as [r|] eqn:Hr; [|done].
  injection Hf as ->. rewrite List.filter_app.
  rewrite (least_ID_app_greater _ _ t Hr); [done|].
  intros x y [Hx _]%filter_In [Hy _]%filter_In. by apply Hgt.
Qed.

(** One FirstOrCreate of a team that is not in the table yet, or is. *)
Lemma FirstOrCreate_ServiceTeam_step d serviceTeamID projectID name projectName :
  let st := {| ServiceTeam.Model := zeroModel;
               ServiceTeam.ProjectID := projectID;
               ServiceTeam.ServiceID := 1;
               ServiceTeam.ServiceTeamID := serviceTeamID;
               ServiceTeam.ServiceTeamName := Some name;
               ServiceTeam.ProjectName := Some projectName |} in
  exists d' t,
    FirstOrCreate_ServiceTeam d serviceTeamID st = (d', t, None) /\
    team_found d' serviceTeamID t /\
    ServiceTeam.ServiceTeamID t = serviceTeamID /\
    (teams_named d -> teams_named d') /\
    foreign_keys d' = foreign_keys d /\
    companies d' = companies d /\
    projects d' = projects d /\
    maintainers d' = maintainers d /\
    maintainer_projects d' = maintainer_projects d /\
    services d' = services d /\
    service_user_teams d' = service_user_teams d /\
    grown (service_teams d) (service_teams d').
Proof.
  cbv zeta. unfold FirstOrCreate_ServiceTeam, team_found.
  destruct (First_cases (service_teams d)
              (fun r => (ServiceTeam.ServiceTeamID r =? serviceTeamID)%Z)) as [[r Hr]|Hn].
  - rewrite Hr. exists d, r. split_and!; try done.
    + apply First_Found in Hr as (_ & _ & Hc & _). by apply Z.eqb_eq.
    + apply grown_refl.
  - rewrite Hn. cbn. eexists _, _. split; [done|]. cbn [service_teams set_service_teams].
    split_and!; try done.
    + apply First_app_one; [done|done|]. apply Z.eqb_refl.
    + intros Hnamed t [Ht|[<-|[]]]%in_app_iff Hl; [by apply Hnamed|done].
    + eexists. split; [done|]. intros x y [<-|[]] Hy. by apply next_ID_gt.
Qed.

Lemma teams_added_refl d : teams_added d d.
Proof. unfold teams_added. split_and!; done. Qed.

Lemma teams_added_trans d1 d2 d3 : teams_added d1 d2 -> teams_added d2 d3 -> teams_added d1 d3.
Proof.
  unfold teams_added. intros (? & ? & ? & ? & ? & ? & ? & ?) (? & ? & ? & ? & ? & ? & ? & ?).
  split_and!; try congruence. by etransitivity.
Qed.

(** The store reads the same projects when only team rows were added. *)
Lemma GetProjectMapByName_teams_added d d' :
  teams_added d d' -> GetProjectMapByName d' = GetProjectMapByName d.
Proof.
  destruct d, d'. unfold teams_added. cbn. intros (? & ? & ? & ? & ? & ? & ? & ?). by subst.
Qed.

(** The loop of CreateServiceTeamsForUser: what it returns and what it
    leaves in the database. *)
Lemma create_teams_loop_spec projects : forall teamUsers d teams errMessages,
  let out := create_teams_loop projects d teams errMessages teamUsers in
  teams_added d out.1 /\
  grown (service_teams d) (service_teams out.1) /\
  (teams_named d -> teams_named out.1) /\
  match out.2 with
  | inl (teams', errMessages') =>
      errMessages' = errMessages /\
      Forall (fun tu => is_Some (projects !! TeamName tu)) teamUsers /\
      exists new,
        teams' = (teams ++ new)%list /\
        Forall2 (fun tu t => team_found out.1 (TeamID tu) t) teamUsers new
  | inr err =>
      exists pre tu post new,
        teamUsers = (pre ++ tu :: post)%list /\
        Forall (fun tu => is_Some (projects !! TeamName tu)) pre /\
        projects !! TeamName tu = None /\
        Forall2 (fun tu t => team_found out.1 (TeamID tu) t) pre new /\
        err = errorString ("CreateServiceTeamsForUser: ERROR " ++ TeamName tu ++
                           " is NOT A registered project")
  end.
Proof.
  induction teamUsers as [|team rest IH]; intros d teams errMessages; cbv zeta.
  - cbn. split_and!; [apply teams_added_refl|apply grown_refl|done|done|done|].
    exists []. by rewrite app_nil_r.
  - cbn [create_teams_loop].
    destruct (projects !! TeamName team) as [project|] eqn:Hproject.
    + destruct (FirstOrCreate_ServiceTeam_step d (TeamID team) (row_ID project)
                  (TeamName team) (Project.Name project))
        as (d1 & t & -> & Hfound & _ & Hnamed & ? & ? & ? & ? & ? & ? & ? & Hgrown).
      specialize (IH d1 (append teams t) errMessages). cbv zeta in IH.
      destruct (create_teams_loop projects d1 (append teams t) errMessages rest)
        as [d2 res].
      cbn [fst snd] in *. destruct IH as (Hadd & Hgrown2 & Hnamed2 & Hres).
      split_and!.
      * eapply teams_added_trans; [|exact Hadd].
        unfold teams_added. split_and!; try done. by apply grown_prefix.
      * by eapply grown_trans.
      * auto.
      * destruct res as [[teams' errMessages']|err].
        -- destruct Hres as (-> & Hall & new & -> & Hnew). split_and!; [done| |].
           ++ constructor; [by rewrite Hproject|done].
           ++ exists (t :: new). unfold append. rewrite <- app_assoc. split; [done|].
              constructor; [|done]. by eapply team_found_grown.
        -- destruct Hres as (pre & tu & post & new & -> & Hpre & Htu & Hnew & ->).
           exists (team :: pre), tu, post, (t :: new). split_and!; try done.
           ++ constructor; [by rewrite Hproject|done].
           ++ constructor; [|done]. by eapply team_found_grown.
    + cbn. split_and!; [apply teams_added_refl|apply grown_refl|done|].
      exists [], team, rest, []. split_and!; done.
Qed.

(** On teams that the lookups find, up to one that is not a project, the
    loop changes nothing either. *)
Lemma create_teams_loop_stops projects d pre tu post new :
  Forall (fun tu => is_Some (projects !! TeamName tu)) pre ->
  Forall2 (fun tu t => team_found d (TeamID tu) t) pre new ->
  projects !! TeamName tu = None ->
  forall teams errMessages,
    create_teams_loop projects d teams errMessages (pre ++ tu :: post)
    = (d, inr (errorString ("CreateServiceTeamsForUser: ERROR " ++ TeamName tu ++
                            " is NOT A registered project"))).
Proof.
  intros Hall Hfound Htu. induction Hfound as [|team t rest new Ht Hrest IH];
    intros teams errMessages; cbn [create_teams_loop app].
  - by rewrite Htu.
  - apply Forall_cons in Hall as [[project Hproject] Hall]. rewrite Hproject.
    unfold FirstOrCreate_ServiceTeam. unfold team_found in Ht. rewrite Ht.
    by rewrite (IH Hall).
Qed.

(** On teams that the lookups find, the loop changes nothing. *)
Lemma create_teams_loop_found projects d teamUsers new :
  Forall (fun tu => is_Some (projects !! TeamName tu)) teamUsers ->
  Forall2 (fun tu t => team_found d (TeamID tu) t) teamUsers new ->
  forall teams errMessages,
    create_teams_loop projects d teams errMessages teamUsers
    = (d, inl ((teams ++ new)%list, errMessages)).
Proof.
  intros Hall Hfound. induction Hfound as [|team t rest new Ht Hrest IH];
    intros teams errMessages; cbn [create_teams_loop].
  - by rewrite app_nil_r.
  - apply Forall_cons in Hall as [[project Hproject] Hall]. rewrite Hproject.
    unfold FirstOrCreate_ServiceTeam. unfold team_found in Ht. rewrite Ht.
    rewrite (IH Hall). unfold append. by rewrite <- app_assoc.
Qed.

Lemma team_found_spec d serviceTeamID t :
  team_found d serviceTeamID t ->
  In t (service_teams d) /\ live t = true /\ ServiceTeam.ServiceTeamID t = serviceTeamID.
Proof.
  intros (? & ? & Hc & _)%First_Found. split_and!; [done|done|]. by apply Z.eqb_eq.
Qed.

(** No team of [sTeams] lacks a name: the log lines of
    LinkServiceUserToTeam have what they dereference. *)
Lemma link_loop_no_panic su maintainer collaborator sTeams : forall d linkErrors,
  Forall (fun st => forall t, st = Some t -> is_Some (ServiceTeam.ServiceTeamName t)) sTeams ->
  link_loop su maintainer collaborator d linkErrors sTeams <> Panicked.
Proof.
  induction sTeams as [|st rest IH]; intros d linkErrors Hall; [done|].
  apply Forall_cons in Hall as [Hst Hrest]. cbn [link_loop].
  destruct (link_one su maintainer collaborator d linkErrors st) as [[d1 errs1]|] eqn:Hone.
  - by apply IH.
  - exfalso. unfold link_one in Hone. destruct st as [t|]; [|done].
    destruct (Hst t eq_refl) as [name Hname]. rewrite Hname in Hone.
    destruct (FirstOrCreate_ServiceUserTeams d _ _) as [[d1 l1] [err|]].
    + destruct (Is err ErrRecordNotFound); [done|].
      by destruct (Create_ServiceUserTeams d1 _) as [[d2 l2] [err2|]].
    + repeat match type of Hone with
             | context [match ?x with _ => _ end] => destruct x
             end; done.
Qed.

Lemma CreateServiceTeamsForUser_named d teamUsers :
  teams_named d ->
  teams_named (CreateServiceTeamsForUser d teamUsers).1.1 /\
  forall teams,
    (CreateServiceTeamsForUser d teamUsers).1.2 = Some teams ->
    Forall (fun t => is_Some (ServiceTeam.ServiceTeamName t)) teams.
Proof.
  intros Hnamed. unfold CreateServiceTeamsForUser.
  change (GetProjectMapByName d) with (fst (GetProjectMapByName d), @None error).
  cbv beta iota.
  set (projects := fst (GetProjectMapByName d)).
  destruct (create_teams_loop_spec projects teamUsers d [] []) as (_ & _ & Hn & Hres).
  destruct (create_teams_loop projects d [] [] teamUsers) as [d1 [[teams errs]|err]];
    cbn [fst snd teams_result] in *.
  - destruct Hres as (-> & _ & new & -> & Hnew). cbn [app].
    assert (Forall (fun t => is_Some (ServiceTeam.ServiceTeamName t)) new) as Hall.
    { clear -Hnew Hn Hnamed. induction Hnew as [|tu t rest new Ht _ IH]; constructor; [|done].
      apply team_found_spec in Ht as (Hin & Hlive & _). by apply (Hn Hnamed). }
    destruct new as [|t new]; cbn [length Nat.eqb Nat.ltb Nat.leb fst snd].
    + split; [auto|]. by intros teams.
    + split; [auto|]. by intros teams [= <-].
  - split; [auto|]. by intros teams.
Qed.

End TeamsFacts.

(** X22.  [CreateServiceTeamsForUser] returns teams exactly when the user
    has teams and each of them is named like a project that is not
    soft-deleted: then, with a nil error, one team row per team of the
    user, in order, each the row that the lookup by the FOSSA team ID
    finds afterwards.  Otherwise it returns nil and an error.  In every
    case it changes the database by adding team rows only. *)
Theorem CreateServiceTeamsForUser_result (d : Gorm.DB) (teamUsers : list Db.TeamUser) :
  let projects := fst (Db.GetProjectMapByName d) in
  let registered := fun tu => is_Some (projects !! Db.TeamName tu) in
  let out := Db.CreateServiceTeamsForUser d teamUsers in
  Db.teams_added d out.1.1 /\
  match out.1.2 with
  | Some teams =>
      out.2 = None /\ teamUsers <> [] /\ Forall registered teamUsers /\
      Forall2 (fun tu t => Db.team_found out.1.1 (Db.TeamID tu) t) teamUsers teams
  | None =>
      is_Some out.2 /\ (teamUsers = [] \/ ~ Forall registered teamUsers)
  end.
Proof.
  cbv zeta. unfold Db.CreateServiceTeamsForUser.
  change (Db.GetProjectMapByName d) with (fst (Db.GetProjectMapByName d), @None Errors.error).
  cbv beta iota.
  set (projects := fst (Db.GetProjectMapByName d)).
  destruct (create_teams_loop_spec projects teamUsers d [] []) as (Hadd & _ & _ & Hres).
  destruct (Db.create_teams_loop projects d [] [] teamUsers) as [d1 [[teams errs]|err]];
    cbn [fst snd Db.teams_result] in *.
  - destruct Hres as (-> & Hall & new & -> & Hnew). cbn [app].
    destruct new as [|t new]; cbn [length Nat.eqb Nat.ltb Nat.leb].
    + apply Forall2_nil_inv_r in Hnew as ->. cbn. split; [done|]. split; [eauto|by left].
    + cbn. split; [done|]. split_and!; try done. intros ->. by apply Forall2_nil_inv_l in Hnew.
  - destruct Hres as (pre & tu & post & new & -> & _ & Htu & _ & ->). cbn.
    split; [done|]. split; [eauto|]. right. intros Hall.
    apply Forall_app in Hall as [_ [Hreg _]%Forall_cons].
    change (is_Some (projects !! Db.TeamName tu)) in Hreg.
    rewrite Htu in Hreg. by destruct Hreg.
Qed.

(** X23.  [CreateServiceTeamsForUser] is idempotent: run again on the
    database it left, with the same teams, it returns what it returned and
    changes nothing, whether it returned teams or an error. *)
Theorem CreateServiceTeamsForUser_idempotent (d : Gorm.DB) (teamUsers : list Db.TeamUser) :
  let out := Db.CreateServiceTeamsForUser d teamUsers in
  Db.CreateServiceTeamsForUser out.1.1 teamUsers = out.
Proof.
  cbv zeta. unfold Db.CreateServiceTeamsForUser at 2 3.
  change (Db.GetProjectMapByName d) with (fst (Db.GetProjectMapByName d), @None Errors.error).
  cbv beta iota.
  set (projects := fst (Db.GetProjectMapByName d)).
  destruct (create_teams_loop_spec projects teamUsers d [] []) as (Hadd & _ & _ & Hres).
  destruct (Db.create_teams_loop projects d [] [] teamUsers) as [d1 res] eqn:Hloop.
  cbn [fst snd] in Hadd, Hres.
  assert ((Db.teams_result (d1, res)).1.1 = d1) as ->.
  { destruct res as [[teams errs]|err]; [|done]. cbn [Db.teams_result].
    destruct (length teams =? 0)%nat; [done|]. by destruct (0 <? length errs)%nat. }
  unfold Db.CreateServiceTeamsForUser.
  rewrite (GetProjectMapByName_teams_added d d1 Hadd).
  change (Db.GetProjectMapByName d) with (projects, @None Errors.error). cbv beta iota.
  f_equal. destruct res as [[teams errs]|err].
  - destruct Hres as (-> & Hall & new & -> & Hnew).
    apply (create_teams_loop_found projects d1 teamUsers new Hall Hnew [] []).
  - destruct Hres as (pre & tu & post & new & -> & Hpre & Htu & Hnew & ->).
    apply (create_teams_loop_stops projects d1 pre tu post new Hpre Hnew Htu [] []).
Qed.

(** X24.  When every team row has a name, the teams that
    [CreateServiceTeamsForUser] returns have one too, as do the rows it
    adds; so [LinkServiceUserToTeam], called with these teams as loadFOSSA
    calls it, does not panic on a nil team name. *)
Theorem CreateServiceTeamsForUser_then_link (d : Gorm.DB) (teamUsers : list Db.TeamUser)
    (su : option Model.ServiceUser.t)
    (maintainer : option Model.Maintainer.t) (collaborator : option Model.Collaborator.t) :
  Db.teams_named d ->
  let out := Db.CreateServiceTeamsForUser d teamUsers in
  Db.teams_named out.1.1 /\
  forall teams,
    out.1.2 = Some teams ->
    Forall (fun t => is_Some (Model.ServiceTeam.ServiceTeamName t)) teams /\
    Db.LinkServiceUserToTeam out.1.1 su (map Some teams) maintainer collaborator <> Go.Panicked.
Proof.
  intros Hnamed. cbv zeta.
  pose proof (CreateServiceTeamsForUser_named d teamUsers Hnamed) as [Hd1 Hteams].
  split; [done|]. intros teams Hout. specialize (Hteams teams Hout). split; [done|].
  unfold Db.LinkServiceUserToTeam. destruct su as [su|]; [|done].
  destruct (length (map Some teams) =? 0)%nat; [done|].
  destruct (bool_decide _ && bool_decide _); [done|].
  pose proof (link_loop_no_panic su maintainer collaborator (map Some teams)
                (Db.CreateServiceTeamsForUser d teamUsers).1.1 []) as Hno.
  destruct (Db.link_loop su maintainer collaborator _ [] (map Some teams)) as [[d2 errs]|].
  - by destruct (0 <? length errs)%nat.
  - exfalso. apply Hno; [|done]. apply Forall_fmap.
    eapply Forall_impl; [exact Hteams|]. by intros t Ht t' [= <-].
Qed.

Lemma CreateServiceTeamsForUser_then_link_witness :
  let out := Db.CreateServiceTeamsForUser Sample.db
               [Db.mkTeamUser 3 60 "helm"; Db.mkTeamUser 3 77 "kubernetes"] in
  Db.teams_named Sample.db /\
  Db.teams_named out.1.1 /\
  is_Some out.1.2.
Proof.
  cbv zeta.
  assert (Db.teams_named Sample.db) as Hnamed.
  { intros t [<-|[<-|[]]] _; eexists; reflexivity. }
  split; [exact Hnamed|]. split.
  - apply (CreateServiceTeamsForUser_then_link Sample.db
             [Db.mkTeamUser 3 60 "helm"; Db.mkTeamUser 3 77 "kubernetes"] None None None Hnamed).
  - vm_compute. eexists. reflexivity.
Defined.


Section SyncSettles.
Import Model Errors Prog Apis Sync.
Variables (ToLower TrimSpace : string -> string).

(** On the storing cluster a row never fails: the Get either finds the CR
    or reports NotFound, and the write that follows is accepted. *)
Lemma syncProject_nil ns byID p c :
  well_keyed c ->
  result_of (run cluster_handler (Sync.syncProject ToLower TrimSpace ns byID p) c) = None.
Proof.
  intros Hc. unfold Sync.syncProject. cbn.
  set (name := Sync.sanitizeName ToLower TrimSpace (Project.Name p)).
  destruct (c !! (ns, name)) as [obj|] eqn:Hobj; cbn.
  - destruct (projectSpecEqual _ _); cbn; [done|].
    destruct (Hc ns name obj Hobj) as [Hns Hname]. by rewrite Hns, Hname, Hobj.
  - by rewrite Hobj.
Qed.

Lemma syncProjects_loop_nil ns byID ps : forall c,
  well_keyed c ->
  result_of (run cluster_handler (Sync.syncProjects_loop ToLower TrimSpace ns byID ps) c) = None.
Proof.
  induction ps as [|p rest IH]; intros c Hc; [done|].
  cbn [Sync.syncProjects_loop]. unfold mbind, prog_bind. rewrite run_bind.
  pose proof (syncProject_nil ns byID p c Hc) as Hr.
  destruct (syncProject_step ToLower TrimSpace ns byID p c Hc) as (Hc1 & _ & _).
  destruct (run cluster_handler (Sync.syncProject ToLower TrimSpace ns byID p) c)
    as [[r c1] tr1].
  cbn [state_of result_of fst snd] in *. subst r.
  specialize (IH c1 Hc1).
  destruct (run cluster_handler (Sync.syncProjects_loop ToLower TrimSpace ns byID rest) c1)
    as [[r2 c2] tr2].
  by cbn in *.
Qed.

End SyncSettles.

(** X25.  On a cluster that stores what it is given, [syncProjects]
    returns nil and leaves, for every project of the store, a Project CR
    under the project's sanitized name whose spec projectSpecEqual does not
    tell apart from the one built from the row, provided no two project
    names sanitize to the same object name.  It writes under the keys of
    the store's projects only: every other object of the cluster, such as
    the CR of a project that is no longer in the store, stays as it
    was. *)
Theorem syncProjects_settles (ToLower TrimSpace : string -> string)
    (range : gmap string Model.Project.t -> list (string * Model.Project.t))
    (d : Gorm.DB) (ns : string) (c : gmap (string * string) Apis.Project) :
  (forall m, range m ≡ₚ map_to_list m) ->
  let m := fst (Db.GetProjectMapByName d) in
  NoDup (map (fun kv => SyncNames.sanitizeName ToLower TrimSpace (Model.Project.Name kv.2))
             (map_to_list m)) ->
  Sync.well_keyed c ->
  let out := Prog.run Sync.cluster_handler (Sync.syncProjects ToLower TrimSpace range d ns) c in
  Prog.result_of out = None /\
  Sync.well_keyed (Prog.state_of out) /\
  (forall name p, m !! name = Some p ->
     Sync.in_sync ToLower TrimSpace ns (Sync.parentNameByID range m) (Prog.state_of out) p) /\
  (forall key,
     (forall name p, m !! name = Some p ->
        key <> (ns, SyncNames.sanitizeName ToLower TrimSpace (Model.Project.Name p))) ->
     Prog.state_of out !! key = c !! key).
Proof.
  intros Hrange m Hnames Hc. unfold Sync.syncProjects.
  change (Db.GetProjectMapByName d) with (m, @None Errors.error). cbv beta iota zeta.
  set (byID := Sync.parentNameByID range m).
  assert (NoDup (map (fun p => Sync.sanitizeName ToLower TrimSpace (Model.Project.Name p))
                     (map snd (range m)))) as Hnd.
  { rewrite map_map. by rewrite (Hrange m). }
  pose proof (syncProjects_loop_nil ToLower TrimSpace ns byID (map snd (range m)) c Hc) as Hr.
  destruct (syncProjects_loop_first ToLower TrimSpace ns byID (map snd (range m)) c Hc Hnd)
    as (Hc' & Hframe & Hsync).
  split_and!; [done|done| |].
  - intros name p Hp. apply (Hsync Hr). apply list_elem_of_In.
    apply list_elem_of_fmap. exists (name, p). split; [done|].
    rewrite (Hrange m). by apply elem_of_map_to_list.
  - intros key Hkey. apply Hframe.
    intros (p & -> & Hin)%list_elem_of_fmap.
    apply list_elem_of_fmap in Hin as ([name p'] & -> & Hin).
    rewrite (Hrange m) in Hin. apply elem_of_map_to_list in Hin.
    by apply (Hkey name p').
Qed.

Lemma syncProjects_settles_witness :
  let m := fst (Db.GetProjectMapByName Sample.db) in
  let out := Prog.run Sync.cluster_handler (Sync.syncProjects_ascii Sample.db "maintainerd") ∅ in
  Prog.result_of out = None /\
  Sync.well_keyed (Prog.state_of out) /\
  (forall name p, m !! name = Some p ->
     Sync.in_sync Strings.ToLower Strings.TrimSpace "maintainerd"
       (Sync.parentNameByID map_to_list m) (Prog.state_of out) p) /\
  (forall key,
     (forall name p, m !! name = Some p ->
        key <> ("maintainerd", SyncNames.sanitizeName_ascii (Model.Project.Name p))) ->
     Prog.state_of out !! key = (∅ : gmap (string * string) Apis.Project) !! key).
Proof.
  apply (syncProjects_settles Strings.ToLower Strings.TrimSpace map_to_list Sample.db
           "maintainerd" ∅).
  - done.
  - vm_compute. repeat (apply NoDup_cons_2;
             [repeat (apply not_elem_of_cons; split; [done|]); apply not_elem_of_nil|]).
    apply NoDup_nil_2.
  - intros ? ? ? Hx. by rewrite lookup_empty in Hx.
Defined.


(** ** Signing a project up twice *)

Section SignUpTwice.
Import Model Errors Prog Gorm Onboarding.
Context {S : Type} (outside : handler WebhookE S).
Variable fmt_v_Project : Project.t -> string.

#[local] Arguments Db.GetMaintainersByProject : simpl never.
#[local] Arguments Db.GetProjectServiceTeamMap : simpl never.
#[local] Arguments Db.CreateServiceTeam : simpl never.

(** The invitations go to FOSSA only: the database stays as it is. *)
Lemma send_invitations_store maintainers : forall actions d s,
  let out := run (store_handler outside) (send_invitations maintainers actions) (d, s) in
  (state_of out).1 = d /\ team_calls (trace_of out) = [].
Proof.
  induction maintainers as [|m rest IH]; intros actions d s; cbv zeta; [done|].
  cbn [send_invitations]. unfold mbind, prog_bind, call. cbn [bind run store_handler fst snd].
  destruct (outside _ (FossaSendUserInvitation (Maintainer.Email m)) s) as [err s1].
  assert (forall acts,
            let out := run (store_handler outside) (send_invitations rest acts) (d, s1) in
            forall r c tr, out = (r, c, tr) -> c.1 = d /\ team_calls tr = []) as Hrest.
  { intros acts out r c tr Hout. specialize (IH acts d s1). cbv zeta in IH.
    subst out. by rewrite Hout in IH. }
  destruct err as [err|];
    [destruct (Is err ErrInviteAlreadyExists); [|destruct (Is err ErrUserAlreadyMember)]|].
  all: match goal with
       | |- context [run _ (send_invitations _ ?a) _] =>
           destruct (run (store_handler outside) (send_invitations rest a) (d, s1))
             as [[r c] tr] eqn:E;
           destruct (Hrest a r c tr E) as [Hc Htr]
       end.
  all: by cbn.
Qed.

(** One sign-up on the store: what becomes of the database, and the calls
    that concern the team. *)
Lemma sign_store_run project d s :
  let pid := row_ID project in
  let out := run (store_handler outside) (signProjectUpForFOSSA fmt_v_Project project) (d, s) in
  match Db.GetMaintainersByProject d pid with
  | (_, Some _) => (state_of out).1 = d /\ team_calls (trace_of out) = []
  | (_, None) =>
      match (Db.GetProjectServiceTeamMap d "FOSSA").1 !! pid with
      | Some _ => (state_of out).1 = d /\ team_calls (trace_of out) = []
      | None =>
          match (outside _ (FossaCreateTeam (Project.Name project)) s).1 with
          | inl team =>
              (state_of out).1 =
                (Db.CreateServiceTeam d pid (Project.Name project)
                   (TeamID team) (TeamName team)).1.1 /\
              team_calls (trace_of out) =
                [TeamCreated (Project.Name project) (inl team);
                 TeamRecorded pid (Project.Name project) (TeamID team) (TeamName team)]
          | inr err =>
              (state_of out).1 = d /\
              team_calls (trace_of out) = [TeamCreated (Project.Name project) (inr err)]
          end
      end
  end.
Proof.
  cbv zeta. unfold signProjectUpForFOSSA, mbind, prog_bind, call.
  cbn [bind run store_handler fst snd].
  destruct (Db.GetMaintainersByProject d (row_ID project)) as [ms [err|]]; [done|].
  cbn [bind run store_handler fst snd].
  destruct (Db.GetProjectServiceTeamMap d "FOSSA") as [teams terr].
  cbn [bind run store_handler fst snd mret prog_ret].
  assert (forall acts d1 s1 r c tr,
            run (store_handler outside)
                (bind (send_invitations (default [] ms) acts)
                      (fun actions => Ret (actions, @None error))) (d1, s1) = (r, c, tr) ->
            c.1 = d1 /\ team_calls tr = []) as Hinv.
  { intros acts d1 s1 r c tr. rewrite run_bind.
    pose proof (send_invitations_store (default [] ms) acts d1 s1) as Hs. cbv zeta in Hs.
    destruct (run (store_handler outside) (send_invitations (default [] ms) acts) (d1, s1))
      as [[r' c'] tr'].
    cbn in *. intros [= <- <- <-]. by rewrite app_nil_r. }
  destruct (teams !! row_ID project) as [st|] eqn:Hst.
  - cbn [bind run store_handler fst snd mret prog_ret].
    destruct (length (default [] ms) =? 0)%nat; [done|].
    match goal with
    | |- context [run _ (bind (send_invitations ?l ?a) ?k) (?d1, ?s1)] =>
        destruct (run (store_handler outside) (bind (send_invitations l a) k) (d1, s1))
          as [[r c] tr] eqn:E; apply Hinv in E as Hs
    end.
    by cbn in *.
  - cbn [bind run store_handler fst snd mret prog_ret].
    destruct (outside _ (FossaCreateTeam (Project.Name project)) s) as [[team|err] s1].
    + cbn [bind run store_handler fst snd mret prog_ret].
      destruct (Db.CreateServiceTeam d (row_ID project) (Project.Name project)
                  (TeamID team) (TeamName team)) as [[d1 st] cerr].
      cbn [bind run store_handler fst snd mret prog_ret].
      destruct (length (default [] ms) =? 0)%nat; [done|].
      match goal with
      | |- context [run _ (bind (send_invitations ?l ?a) ?k) (?d1, ?s1)] =>
          destruct (run (store_handler outside) (bind (send_invitations l a) k) (d1, s1))
            as [[r c] tr] eqn:E; apply Hinv in E as Hs
      end.
      cbn in *. destruct Hs as [-> Htr]. unfold team_calls in *. cbn. by rewrite Htr.
    + cbn [bind run store_handler fst snd mret prog_ret].
      destruct (length (default [] ms) =? 0)%nat; [done|].
      match goal with
      | |- context [run _ (bind (send_invitations ?l ?a) ?k) (?d1, ?s1)] =>
          destruct (run (store_handler outside) (bind (send_invitations l a) k) (d1, s1))
            as [[r c] tr] eqn:E; apply Hinv in E as Hs
      end.
      cbn in *. destruct Hs as [-> Htr]. unfold team_calls in *. cbn. by rewrite Htr.
Qed.

End SignUpTwice.

(** X26.  A sign-up does not create a project's FOSSA team twice.  When a
    sign-up of a project ran on the store without FOSSA refusing to create
    the team, a later sign-up of the same project, whatever FOSSA and
    GitHub answer then, neither asks FOSSA for a team nor records one, and
    leaves the database as it was.  This holds when the service named
    "FOSSA" has the primary key 1, the service ID under which teams are
    recorded, and when FOSSA does not hand out the ID of a team that is
    already recorded. *)
Theorem signProjectUpForFOSSA_again {S : Type}
    (outside : Prog.handler Onboarding.WebhookE S)
    (fmt_v_Project : Model.Project.t -> string) (project : Model.Project.t)
    (d : Gorm.DB) (s s' : S) (service : Model.Service.t) :
  Gorm.First (Gorm.services d) (fun sv => String.eqb (Model.Service.Name sv) "FOSSA")
    = Gorm.Found service ->
  Model.row_ID service = 1%N ->
  (forall team,
     (outside _ (Onboarding.FossaCreateTeam (Model.Project.Name project)) s).1 = inl team ->
     Gorm.First (Gorm.service_teams d)
       (fun r => (Model.ServiceTeam.ServiceTeamID r =? Onboarding.TeamID team)%Z)
       = Gorm.NotFound) ->
  let first := Prog.run (Onboarding.store_handler outside)
                 (Onboarding.signProjectUpForFOSSA fmt_v_Project project) (d, s) in
  Onboarding.team_refused (Prog.trace_of first) = false ->
  let second := Prog.run (Onboarding.store_handler outside)
                  (Onboarding.signProjectUpForFOSSA fmt_v_Project project)
                  ((Prog.state_of first).1, s') in
  Onboarding.team_calls (Prog.trace_of second) = [] /\
  (Prog.state_of second).1 = (Prog.state_of first).1.
Proof.
  intros Hsvc Hone Hfresh first Hok second.
  pose proof (sign_store_run outside fmt_v_Project project d s) as H1.
  pose proof (sign_store_run outside fmt_v_Project project (Prog.state_of first).1 s') as H2.
  cbv zeta in H1, H2. fold first in H1. fold second in H2.
  destruct (Db.GetMaintainersByProject d (Model.row_ID project)) as [ms [err|]] eqn:Hms.
  { destruct H1 as [Hd _]. rewrite Hd, Hms in H2. rewrite Hd. by destruct H2. }
  destruct ((Db.GetProjectServiceTeamMap d "FOSSA").1 !! Model.row_ID project) as [st|] eqn:Hst.
  { destruct H1 as [Hd _]. rewrite Hd, Hms, Hst in H2. rewrite Hd. by destruct H2. }
  destruct (outside _ (Onboarding.FossaCreateTeam (Model.Project.Name project)) s).1
    as [team|err] eqn:Hteam; cycle 1.
  { destruct H1 as [_ Htr]. unfold Onboarding.team_refused in Hok. by rewrite Htr in Hok. }
  destruct H1 as [Hd _]. specialize (Hfresh team eq_refl).
  assert (is_Some ((Db.GetProjectServiceTeamMap (Prog.state_of first).1 "FOSSA").1
                     !! Model.row_ID project)) as [st' Hst'].
  { rewrite Hd.
    destruct (CreateServiceTeam_cases d (Model.row_ID project) (Model.Project.Name project)
                (Onboarding.TeamID team) (Onboarding.TeamName team))
      as [(r & Hr & _)|(st' & _ & -> & Hlive & _ & Hpid & Hsid & _)].
    { by rewrite Hfresh in Hr. }
    exists st'. unfold Db.GetProjectServiceTeamMap, Db.getServiceByName.
    cbn [Gorm.services Gorm.service_teams Gorm.set_service_teams fst snd].
    rewrite Hsvc. cbn [fst].
    rewrite Find_app_one, Hlive, Hsid, Hone. cbn [andb N.eqb Pos.eqb].
    rewrite <- Hpid. apply (fold_insert_last Model.ServiceTeam.ProjectID). }
  rewrite Hst' in H2.
  destruct (Db.GetMaintainersByProject (Prog.state_of first).1 (Model.row_ID project))
    as [ms' [err'|]]; by destruct H2.
Qed.

Lemma signProjectUpForFOSSA_again_witness :
  let d := Gorm.set_service_teams [] Sample.db in
  let first := Prog.run (Onboarding.store_handler Onboarding.sample_outside)
                 (Onboarding.signProjectUpForFOSSA Model.Project.Name Sample.kubernetes)
                 (d, 100%Z) in
  let second := Prog.run (Onboarding.store_handler Onboarding.sample_outside)
                  (Onboarding.signProjectUpForFOSSA Model.Project.Name Sample.kubernetes)
                  ((Prog.state_of first).1, 7%Z) in
  length (Onboarding.team_calls (Prog.trace_of first)) = 2%nat /\
  Onboarding.team_calls (Prog.trace_of second) = [] /\
  (Prog.state_of second).1 = (Prog.state_of first).1.
Proof.
  split; [reflexivity|].
  apply (signProjectUpForFOSSA_again Onboarding.sample_outside Model.Project.Name
           Sample.kubernetes (Gorm.set_service_teams [] Sample.db) 100%Z 7%Z
           (Model.Service.mk (Model.mkGormModel 1 None) "FOSSA" "")).
  - reflexivity.
  - reflexivity.
  - intros team [= <-]. reflexivity.
  - reflexivity.
Defined.


(** X27.  A "fossa" label on an issue whose title names a project that the
    listener's project map does not hold still gets its one comment: the
    handler signs up the zero project, for which the store finds no row,
    so the report says that the maintainers of a project with an empty
    name are not yet registered, and carries the error line.  Nothing is
    asked of FOSSA, the database stays as it was and the answer is 200.
    The map is the one loaded when the listener started, so this is also
    what a project added to the database since then gets. *)
Theorem handleWebhook_unknown_project {Request Payload S : Type}
    (ValidatePayload : Request -> string -> Payload + Errors.error)
    (WebHookType : Request -> string)
    (ParseWebHook : string -> Payload -> Onboarding.WebhookEvent + Errors.error)
    (GetProjectNameFromProjectTitle : string -> string + Errors.error)
    (fmt_v_Project : Model.Project.t -> string)
    (outside : Prog.handler Onboarding.WebhookE S) (d : Gorm.DB) (st : S)
    (s : Onboarding.EventListener) (r : Request) (payload : Payload)
    (e : Onboarding.IssuesEvent) (issue : Onboarding.Issue) (projectName : string) :
  ValidatePayload r (Onboarding.Secret s) = inl payload ->
  ParseWebHook (WebHookType r) payload = inl (Onboarding.IsIssuesEvent e) ->
  Onboarding.Action e = "labeled" ->
  Onboarding.EventIssue e = Some issue ->
  Onboarding.label_count "fossa" issue = 1%nat ->
  GetProjectNameFromProjectTitle (Onboarding.Title issue) = inl projectName ->
  Onboarding.Projects s !! projectName = None ->
  Gorm.First (Gorm.projects d) (fun p => (Model.row_ID p =? 0)%N) = Gorm.NotFound ->
  let out :=
    Prog.run (Onboarding.store_handler outside)
      (Onboarding.handleWebhook ValidatePayload WebHookType ParseWebHook
         GetProjectNameFromProjectTitle fmt_v_Project s r) (d, st) in
  Prog.result_of out =
    Go.Returned {| Onboarding.StatusCode := 200; Onboarding.Body := "" |} /\
  (Prog.state_of out).1 = d /\
  Onboarding.invited (Prog.trace_of out) = [] /\
  Onboarding.team_calls (Prog.trace_of out) = [] /\
  exists err,
    Onboarding.comments (Prog.trace_of out) =
      [(Onboarding.RepoOwnerLogin e, Onboarding.RepoName e, Onboarding.Number issue,
        Onboarding.report_header ++
        Onboarding.bullet_list [":x:  maintainers are not yet registered."] ++
        Onboarding.error_line err)].
Proof.
  intros Hv Hp Haction Hissue Hcount Hname Hnone Hzero. cbv zeta.
  unfold Onboarding.handleWebhook. rewrite Hv, Hp, Haction, Hissue.
  cbn [String.eqb Ascii.eqb Bool.eqb negb]. unfold mbind, prog_bind.
  rewrite run_bind.
  rewrite (run_on_labels_once GetProjectNameFromProjectTitle fmt_v_Project
             (Onboarding.store_handler outside) s e issue projectName
             (Onboarding.Labels issue) (d, st) Hname Hcount).
  rewrite (run_on_label_fossa GetProjectNameFromProjectTitle fmt_v_Project
             (Onboarding.store_handler outside) s e issue projectName (d, st) Hname).
  rewrite Hnone. cbn [default].
  assert (Prog.run (Onboarding.store_handler outside)
            (Onboarding.signProjectUpForFOSSA fmt_v_Project Model.Project.zero) (d, st)
          = ([":x:  maintainers are not yet registered."],
             Some (Errors.errorString
                     ("signProjectUpForFOSSA: no maintainers found for project " ++
                      fmt_v_Project Model.Project.zero ++ ", project ID")),
             (d, st),
             [Prog.Event (Onboarding.StoreGetMaintainersByProject 0)
                         (None, Some Errors.ErrProjectNotFound)])) as ->.
  { unfold Onboarding.signProjectUpForFOSSA, mbind, prog_bind, Prog.call.
    cbn [Prog.bind Prog.run Onboarding.store_handler fst snd].
    change (Model.row_ID Model.Project.zero) with 0%N.
    unfold Db.GetMaintainersByProject. rewrite Hzero. reflexivity. }
  cbn [Prog.result_of Prog.state_of Prog.trace_of fst snd Onboarding.store_handler].
  destruct (outside _ _ st) as [answer st1].
  cbn. split; [done|]. split; [done|]. split; [done|]. split; [done|].
  eexists. unfold Onboarding.report. by rewrite bullets_bullet_list.
Qed.

Lemma handleWebhook_unknown_project_witness :
  let r := Onboarding.mkSampleRequest "s3cret" "issues"
             (Some (Onboarding.labeled_event "[PROJECT ONBOARDING] envoy" ["bug"; "fossa"])) in
  let out := Prog.run (Onboarding.store_handler Onboarding.sample_outside)
               (Onboarding.sample_handleWebhook r) (Sample.db, 100%Z) in
  Prog.result_of out =
    Go.Returned {| Onboarding.StatusCode := 200; Onboarding.Body := "" |} /\
  (Prog.state_of out).1 = Sample.db /\
  Onboarding.invited (Prog.trace_of out) = [] /\
  Onboarding.team_calls (Prog.trace_of out) = [] /\
  exists err,
    Onboarding.comments (Prog.trace_of out) =
      [("cncf", "onboarding", 42%Z,
        Onboarding.report_header ++
        Onboarding.bullet_list [":x:  maintainers are not yet registered."] ++
        Onboarding.error_line err)].
Proof.
  apply (handleWebhook_unknown_project
           Onboarding.sample_ValidatePayload Onboarding.event_type
           Onboarding.sample_ParseWebHook Onboarding.sample_GetProjectNameFromProjectTitle
           Model.Project.Name Onboarding.sample_outside Sample.db 100%Z
           Onboarding.sample_listener
           (Onboarding.mkSampleRequest "s3cret" "issues"
              (Some (Onboarding.labeled_event "[PROJECT ONBOARDING] envoy" ["bug"; "fossa"])))
           (Some (Onboarding.labeled_event "[PROJECT ONBOARDING] envoy" ["bug"; "fossa"]))
           {| Onboarding.Action := "labeled";
              Onboarding.EventIssue :=
                Some {| Onboarding.Title := "[PROJECT ONBOARDING] envoy"; Onboarding.URL := "";
                        Onboarding.Number := 42; Onboarding.Labels := ["bug"; "fossa"] |};
              Onboarding.RepoOwnerLogin := "cncf"; Onboarding.RepoName := "onboarding" |}
           {| Onboarding.Title := "[PROJECT ONBOARDING] envoy"; Onboarding.URL := "";
              Onboarding.Number := 42; Onboarding.Labels := ["bug"; "fossa"] |}
           "envoy"); reflexivity.
Defined.


(** X28.  On a database whose queries succeed, as those of the table
    model all do, [GetServiceTeamByProject] returns a nil error, and it
    agrees with the map
    of [GetProjectServiceTeamMap] on whether a project has a team: it
    returns nil exactly when the map built for the service has no entry
    for the project.  Otherwise it returns the team row of the project and
    service with the least primary key; the map's entry is a row of the
    same project and service whose key is not less, and the same row when
    the project has a single team row for the service that is not
    soft-deleted. *)
Theorem GetServiceTeamByProject_agrees_with_map (d : Gorm.DB) (serviceName : string)
    (service : Model.Service.t) (projectID : N) :
  Gorm.First (Gorm.services d) (fun s => String.eqb (Model.Service.Name s) serviceName)
    = Gorm.Found service ->
  let m := fst (Db.GetProjectServiceTeamMap d serviceName) in
  let out := Db.GetServiceTeamByProject d projectID (Model.row_ID service) in
  let team_of_project := fun t =>
    In t (Gorm.service_teams d) /\ Gorm.live t = true /\
    Model.ServiceTeam.ProjectID t = projectID /\
    Model.ServiceTeam.ServiceID t = Model.row_ID service in
  snd out = None /\
  match fst out with
  | None => m !! projectID = None
  | Some st =>
      team_of_project st /\
      (forall t, team_of_project t -> (Model.row_ID st <= Model.row_ID t)%N) /\
      exists st', m !! projectID = Some st' /\ team_of_project st' /\
                  (Model.row_ID st <= Model.row_ID st')%N /\
                  ((forall t, team_of_project t -> t = st) -> st' = st)
  end.
Proof.
  intros Hsvc. cbv zeta. unfold Db.GetServiceTeamByProject, Db.GetProjectServiceTeamMap,
    Db.getServiceByName. rewrite Hsvc. cbn [fst snd].
  set (cond := fun st => (Model.ServiceTeam.ProjectID st =? projectID)%N &&
                         (Model.ServiceTeam.ServiceID st =? Model.row_ID service)%N).
  set (teams := Gorm.Find (Gorm.service_teams d)
                  (fun st => (Model.ServiceTeam.ServiceID st =? Model.row_ID service)%N)).
  assert (forall st', fold_left (fun (result : gmap N Model.ServiceTeam.t) st =>
                                   <[Model.ServiceTeam.ProjectID st := st]> result) teams ∅
                        !! projectID = Some st' ->
            In st' (Gorm.service_teams d) /\ Gorm.live st' = true /\
            Model.ServiceTeam.ProjectID st' = projectID /\
            Model.ServiceTeam.ServiceID st' = Model.row_ID service) as Hentry.
  { intros st' [Hm|[Hin Hk]]%fold_insert_Some; [by rewrite lookup_empty in Hm|].
    apply Find_In in Hin as (Hin & Hlive & Hs). by apply N.eqb_eq in Hs. }
  destruct (First_cases (Gorm.service_teams d) cond) as [[st Hst]|Hnone].
  - rewrite Hst. cbn [fst snd]. split; [done|].
    apply First_Found in Hst as (Hin & Hlive & Hc & Hleast).
    apply andb_true_iff in Hc as [Hp%N.eqb_eq Hs%N.eqb_eq].
    split; [done|]. split.
    { intros t (Ht & Htlive & Htp & Hts). apply Hleast; [done|done|].
      unfold cond. apply andb_true_iff. by rewrite !N.eqb_eq. }
    destruct (fold_insert_is_Some Model.ServiceTeam.ProjectID teams projectID ∅) as [st' Hst'].
    { right. exists st. split; [|done]. apply Find_In. split_and!; [done|done|].
      by apply N.eqb_eq. }
    exists st'. split; [done|]. destruct (Hentry st' Hst') as (Hin' & Hlive' & Hp' & Hs').
    split_and!; try done.
    + apply Hleast; [done|done|]. unfold cond. apply andb_true_iff. by rewrite !N.eqb_eq.
    + intros Huniq. by apply Huniq.
  - rewrite Hnone. cbn [fst snd]. split; [done|].
    match goal with |- ?x = None => destruct x as [st'|] eqn:Hst' end; [|done].
    destruct (Hentry st' eq_refl) as (Hin' & Hlive' & Hp' & Hs').
    pose proof (proj1 (First_NotFound _ _) Hnone st' Hin' Hlive') as Hc.
    unfold cond in Hc. apply andb_false_iff in Hc as [Hc%N.eqb_neq|Hc%N.eqb_neq]; done.
Qed.

Lemma GetServiceTeamByProject_agrees_with_map_witness :
  let m := fst (Db.GetProjectServiceTeamMap Sample.db "FOSSA") in
  let out := Db.GetServiceTeamByProject Sample.db 2 1 in
  snd out = None /\ fst out = Some Sample.team6 /\ m !! 2%N = Some Sample.team6.
Proof.
  destruct (GetServiceTeamByProject_agrees_with_map Sample.db "FOSSA"
              (Model.Service.mk (Model.mkGormModel 1 None) "FOSSA" "") 2 eq_refl)
    as [Herr _].
  split; [exact Herr|]. split; reflexivity.
Defined.


(** ** Seeding the services *)

Section SeedFacts.
Import Model Errors Gorm Db.

Lemma services_added_refl d : services_added d d.
Proof. unfold services_added. split_and!; done. Qed.

Lemma services_added_trans d1 d2 d3 :
  services_added d1 d2 -> services_added d2 d3 -> services_added d1 d3.
Proof.
  unfold services_added. intros (? & ? & ? & ? & ? & ? & ? & ?) (? & ? & ? & ? & ? & ? & ? & ?).
  split_and!; try congruence. by etransitivity.
Qed.

Lemma has_live_added d d' name : services_added d d' -> has_live d name -> has_live d' name.
Proof.
  intros (_ & _ & _ & _ & _ & _ & _ & [k Hk]) (r & Hin & Hlive & Hname).
  exists r. split; [|done]. rewrite Hk. apply in_or_app. by left.
Qed.

Lemma service_named_has_live d name :
  has_live d name <-> exists r, service_named d name = Found r.
Proof.
  unfold service_named. split.
  - intros (r & Hin & Hlive & Hname).
    destruct (First_cases (services d) (fun s => String.eqb (Service.Name s) name))
      as [[r' Hr']|Hnone]; [by exists r'|].
    pose proof (proj1 (First_NotFound _ _) Hnone r Hin Hlive) as Hc.
    apply String.eqb_neq in Hc. done.
  - intros [r Hr]. apply First_Found in Hr as (Hin & Hlive & Hc & _).
    apply String.eqb_eq in Hc. by exists r.
Qed.

(** One seed: the live row of the name is found; or none is there and the
    name is taken by a soft-deleted row, which the unique index refuses;
    or the seed is inserted. *)
Lemma FirstOrCreate_Service_cases d service :
  Service.Name service <> "" ->
  DeletedAt (Service.Model service) = None ->
  (has_live d (Service.Name service) /\
   exists r, FirstOrCreate_Service d service = (d, r, None)) \/
  (~ has_live d (Service.Name service) /\
   (exists r, In r (services d) /\ Service.Name r = Service.Name service) /\
   exists err, FirstOrCreate_Service d service = (d, service, Some err)) \/
  (~ has_live d (Service.Name service) /\
   (forall r, In r (services d) -> Service.Name r <> Service.Name service) /\
   exists d' r, FirstOrCreate_Service d service = (d', r, None) /\
                services_added d d' /\ services d' = (services d ++ [r])%list /\
                live r = true /\ Service.Name r = Service.Name service).
Proof.
  intros Hne Hlive. unfold FirstOrCreate_Service.
  apply String.eqb_neq in Hne. rewrite Hne. cbn [orb].
  destruct (First_cases (services d)
              (fun s => String.eqb (Service.Name s) (Service.Name service)))
    as [[r Hr]|Hnone].
  - left. rewrite Hr. split; [|by exists r].
    apply service_named_has_live. by exists r.
  - rewrite Hnone. right.
    assert (~ has_live d (Service.Name service)) as Hno.
    { intros [r Hr]%service_named_has_live. unfold service_named in Hr. congruence. }
    unfold Create_Service.
    change (Schema.has_unique_index Service_Name_tag) with true. cbn [andb].
    destruct (existsb _ (services d)) eqn:Hex.
    + left. split; [done|]. split; [|by eexists].
      apply existsb_exists in Hex as (r & Hin & Hr%String.eqb_eq). by exists r.
    + right. split; [done|]. split.
      { intros r Hin Hr. apply not_true_iff_false in Hex. apply Hex.
        apply existsb_exists. exists r. split; [done|]. by apply String.eqb_eq. }
      unfold insert_row. eexists _, _. split; [done|]. split.
      * unfold services_added. cbn. split_and!; try done. by apply prefix_app_r.
      * split; [done|]. split; [|by destruct (row_ID service =? 0)%N].
        unfold live. destruct (row_ID service =? 0)%N; cbn; by rewrite ?Hlive.
Qed.

(** The loop on seeds of distinct names. *)
Lemma seed_loop_spec seeds : forall d,
  Forall seed_ok seeds ->
  NoDup (map Service.Name seeds) ->
  let out := seed_loop d seeds in
  services_added d out.1 /\
  match out.2 with
  | None => forall s, In s seeds -> has_live out.1 (Service.Name s)
  | Some _ =>
      exists s, In s seeds /\ ~ has_live d (Service.Name s) /\
                exists r, In r (services d) /\ Service.Name r = Service.Name s
  end.
Proof.
  induction seeds as [|s rest IH]; intros d Hok Hnd; cbv zeta.
  - cbn. split; [apply services_added_refl|]. intros ? [].
  - apply Forall_cons in Hok as [[Hne Hlive] Hok]. cbn [map] in Hnd.
    apply NoDup_cons in Hnd as [Hs Hnd]. cbn [seed_loop].
    destruct (FirstOrCreate_Service_cases d s Hne Hlive)
      as [(Hhas & r & ->)|[(Hno & Hrow & err & ->)|(Hno & Hfree & d' & r & -> & Hadd & Hrows & Hrlive & Hrname)]].
    + specialize (IH d Hok Hnd). cbv zeta in IH. destruct IH as [Hadd IH]. split; [done|].
      destruct (seed_loop d rest) as [d2 [err|]]; cbn [fst snd] in *.
      * destruct IH as (s' & Hin & Hrest). exists s'. split; [by right|done].
      * intros s' [<-|Hin]; [by apply (has_live_added d)|by apply IH].
    + cbn. split; [apply services_added_refl|]. exists s. split; [by left|done].
    + assert (has_live d' (Service.Name s)) as Hhas.
      { exists r. rewrite Hrows. split; [apply in_or_app; right; by left|done]. }
      specialize (IH d' Hok Hnd). cbv zeta in IH. destruct IH as [Hadd2 IH].
      split; [by apply (services_added_trans d d')|].
      destruct (seed_loop d' rest) as [d2 [err|]]; cbn [fst snd] in *.
      * destruct IH as (s' & Hin & Hno' & r' & Hr' & Hname).
        exists s'. split; [by right|].
        assert (Service.Name s' <> Service.Name s) as Hdiff.
        { intros Heq. apply Hs. rewrite <- Heq. apply list_elem_of_In, in_map, Hin. }
        split; [intros Hl; apply Hno'; by apply (has_live_added d)|].
        exists r'. split; [|done].
        rewrite Hrows in Hr'. apply in_app_or in Hr' as [Hr'|[<-|[]]]; [done|].
        congruence.
      * intros s' [<-|Hin]; [by apply (has_live_added d')|by apply IH].
Qed.

(** Seeds that are all there already: the loop changes nothing. *)
Lemma seed_loop_present seeds d :
  Forall seed_ok seeds ->
  (forall s, In s seeds -> has_live d (Service.Name s)) ->
  seed_loop d seeds = (d, None).
Proof.
  induction seeds as [|s rest IH]; intros Hok Hall; [done|].
  apply Forall_cons in Hok as [[Hne Hlive] Hok]. cbn [seed_loop].
  destruct (FirstOrCreate_Service_cases d s Hne Hlive)
    as [(_ & r & ->)|[(Hno & _)|(Hno & _)]].
  - apply IH; [done|]. intros s' Hs'. apply Hall. by right.
  - destruct Hno. apply Hall. by left.
  - destruct Hno. apply Hall. by left.
Qed.

Lemma seed_list_ok : Forall seed_ok seed_list.
Proof. repeat constructor; done. Qed.

Lemma seed_list_NoDup : NoDup (map Service.Name seed_list).
Proof.
  cbn. repeat (apply NoDup_cons_2;
                 [repeat (apply not_elem_of_cons; split; [done|]); apply not_elem_of_nil|]).
  apply NoDup_nil_2.
Qed.

End SeedFacts.

(** X29.  The seeding transaction of [BootstrapSQLite] is idempotent: run
    again on the database it left, it returns what it returned and changes
    nothing.  When it returns nil it has only added service rows, and each
    of the four seeded names is then found by name.  It fails, leaving the
    database as it was, only over a seeded name that no row that is not
    soft-deleted has but a soft-deleted row still holds, which the unique
    index on the name refuses.  On a services table without rows it
    succeeds and "FOSSA" gets the primary key 1, the service ID under
    which the FOSSA teams and links are recorded. *)
Theorem seed_services_idempotent (d : Gorm.DB) :
  let out := Db.seed_services d in
  Db.seed_services out.1 = out /\
  match out.2 with
  | None =>
      Db.services_added d out.1 /\
      forall s, In s Db.seed_list ->
        exists r, Db.service_named out.1 (Model.Service.Name s) = Gorm.Found r
  | Some _ =>
      out.1 = d /\
      exists s, In s Db.seed_list /\
        Db.service_named d (Model.Service.Name s) = Gorm.NotFound /\
        exists r, In r (Gorm.services d) /\ Model.Service.Name r = Model.Service.Name s
  end /\
  (Gorm.services d = [] ->
   out.2 = None /\
   exists r, Db.service_named out.1 "FOSSA" = Gorm.Found r /\ Model.row_ID r = 1%N).
Proof.
  cbv zeta. unfold Db.seed_services, Db.Transaction.
  pose proof (seed_loop_spec Db.seed_list d seed_list_ok seed_list_NoDup) as Hspec.
  cbv zeta in Hspec. destruct Hspec as [Hadd Hspec].
  destruct (Db.seed_loop d Db.seed_list) as [d1 [err|]] eqn:Hloop; cbn [fst snd] in *.
  - split; [by rewrite Hloop|]. split.
    + split; [done|]. destruct Hspec as (s & Hin & Hno & Hrow). exists s. split; [done|].
      split; [|done].
      destruct (First_cases (Gorm.services d)
                  (fun x => String.eqb (Model.Service.Name x) (Model.Service.Name s)))
        as [[r Hr]|Hnone]; [|done].
      destruct Hno. apply service_named_has_live. by exists r.
    + intros Hempty. exfalso. destruct Hspec as (s & _ & _ & r & Hr & _).
      rewrite Hempty in Hr. destruct Hr.
  - split; [by rewrite (seed_loop_present Db.seed_list d1 seed_list_ok Hspec)|]. split.
    + split; [done|]. intros s Hin. by apply service_named_has_live, Hspec.
    + intros Hempty. split; [done|].
      destruct d as [fk cs ps ms mps svs sts suts]. cbn in Hempty. subst svs.
      vm_compute in Hloop. injection Hloop as <-. eexists. split; reflexivity.
Qed.


(** ** The status and maturity columns *)

(** X30.  For [MaintainerStatus] and for [Maturity], what [Value] writes
    [Scan] reads back unchanged, and [Value] writes exactly the declared
    constants: any other string, the empty one included, is refused with
    an error.  [Scan] is more liberal: it accepts every string, declared
    or not, and nothing but strings. *)
Theorem Value_then_Scan (Quote : string -> string) :
  (forall s,
     match ModelTypes.MaintainerStatus.Value Quote s with
     | inl v => In s ["Active"; "Emeritus"; "Retired"] /\
                ModelTypes.MaintainerStatus.Scan v = inl s
     | inr _ => ~ In s ["Active"; "Emeritus"; "Retired"]
     end) /\
  (forall m,
     match ModelTypes.Maturity.Value Quote m with
     | inl v => In m ["Sandbox"; "Incubating"; "Graduated"; "Archived"] /\
                ModelTypes.Maturity.Scan v = inl m
     | inr _ => ~ In m ["Sandbox"; "Incubating"; "Graduated"; "Archived"]
     end) /\
  (forall v s, ModelTypes.MaintainerStatus.Scan v = inl s <-> v = Driver.Text s) /\
  (forall v m, ModelTypes.Maturity.Scan v = inl m <-> v = Driver.Text m).
Proof.
  split_and!.
  - intros s. unfold ModelTypes.MaintainerStatus.Value, ModelTypes.MaintainerStatus.IsValid.
    destruct (String.eqb_spec s ModelTypes.MaintainerStatus.ActiveMaintainer) as [->|H1];
      [cbn; split; [by left|done]|].
    destruct (String.eqb_spec s ModelTypes.MaintainerStatus.EmeritusMaintainer) as [->|H2];
      [cbn; split; [right; by left|done]|].
    destruct (String.eqb_spec s ModelTypes.MaintainerStatus.RetiredMaintainer) as [->|H3];
      [cbn; split; [right; right; by left|done]|].
    cbn. intros [<-|[<-|[<-|[]]]]; done.
  - intros m. unfold ModelTypes.Maturity.Value, ModelTypes.Maturity.IsValid.
    destruct (String.eqb_spec m ModelTypes.Maturity.Sandbox) as [->|H1];
      [cbn; split; [by left|done]|].
    destruct (String.eqb_spec m ModelTypes.Maturity.Incubating) as [->|H2];
      [cbn; split; [right; by left|done]|].
    destruct (String.eqb_spec m ModelTypes.Maturity.Graduated) as [->|H3];
      [cbn; split; [right; right; by left|done]|].
    destruct (String.eqb_spec m ModelTypes.Maturity.Archived) as [->|H4];
      [cbn; split; [right; right; right; by left|done]|].
    cbn. intros [<-|[<-|[<-|[<-|[]]]]]; done.
  - intros v s. split; [|by intros ->]. destruct v; cbn; congruence.
  - intros v m. split; [|by intros ->]. destruct v; cbn; congruence.
Qed.


(** ** Two projects of one name *)



(** ** The workspace is not created *)

Section CreateReached.
Import Go Errors Prog Kcp Controller.
Variable ToLower : string -> string.

Lemma reads_only_no_create tr :
  Forall (event_sat reads_only) tr -> existsb is_workspaces_create tr = false.
Proof.
  induction 1 as [|[X e x] tr He _ IH]; [done|]. cbn. rewrite IH. by destruct e.
Qed.

Lemma creates_only_unrecorded_app tr1 tr2 :
  Forall (event_sat reads_only) tr1 ->
  creates_only_unrecorded tr2 -> creates_only_unrecorded (tr1 ++ tr2).
Proof.
  intros H1 [H2|H2]; unfold creates_only_unrecorded; rewrite !existsb_app.
  - left. by rewrite (reads_only_no_create tr1 H1), H2.
  - right. rewrite H2. apply orb_true_r.
Qed.

Lemma all_runs_always {R} (Q : R -> list (event OperatorE) -> Prop) (p : prog OperatorE R) :
  (forall r tr, Q r tr) -> all_runs Q p.
Proof.
  revert Q. induction p as [r|X e k IH]; intros Q HQ; cbn; [apply HQ|].
  intros x. apply IH. intros r tr. apply HQ.
Qed.

Lemma reads_only_unrecorded {R} (p : prog OperatorE R) :
  only_calls reads_only p -> all_runs (fun _ tr => creates_only_unrecorded tr) p.
Proof.
  intros Hp. eapply all_runs_impl; [|apply only_calls_all_runs, Hp].
  intros r tr Htr. left. by apply reads_only_no_create.
Qed.

Lemma quiet_unrecorded {R} (p : prog OperatorE R) :
  only_calls quiet p -> all_runs (fun _ tr => creates_only_unrecorded tr) p.
Proof.
  intros Hp. apply reads_only_unrecorded. eapply only_calls_weaken; [|exact Hp].
  intros X e. by destruct e.
Qed.

Lemma bind_unrecorded {R T} (p : prog OperatorE R) (f : R -> prog OperatorE T) :
  only_calls reads_only p ->
  (forall r, all_runs (fun _ tr => creates_only_unrecorded tr) (f r)) ->
  all_runs (fun _ tr => creates_only_unrecorded tr) (bind p f).
Proof.
  intros Hp Hf. apply all_runs_bind.
  eapply all_runs_impl; [|apply only_calls_all_runs, Hp].
  intros r tr1 H1. cbn beta. eapply all_runs_impl; [|apply Hf].
  intros t tr2. by apply creates_only_unrecorded_app.
Qed.

Lemma quiet_reads_only {R} (p : prog OperatorE R) :
  only_calls quiet p -> only_calls reads_only p.
Proof. apply only_calls_weaken. intros X e. by destruct e. Qed.

(** updateCondition creates nothing, and it returns only when it could not
    read the Project: once the Project is read, it panics. *)
Lemma updateCondition_returns_unread project condition :
  all_runs (fun r tr => existsb is_workspaces_create tr = false /\
                        (existsb status_get_failed tr = true \/ r = Panicked))
           (updateCondition project condition).
Proof.
  unfold updateCondition, mbind, prog_bind, call. cbn [bind all_runs].
  intros [cur|err]; cbn [bind].
  - unfold SetNestedField. rewrite json_value_assign_conditions. cbn. auto.
  - cbn. auto.
Qed.

Lemma reconcile_workspace_unrecorded r project c :
  all_runs (fun _ tr => creates_only_unrecorded tr) (reconcile_workspace ToLower r project c).
Proof.
  unfold reconcile_workspace.
  apply bind_unrecorded; [apply GetWorkspace_reads|].
  intros [workspaceInfo [err|]]; [apply quiet_unrecorded, record_then_return_quiet|].
  destruct workspaceInfo as [workspaceInfo|].
  { apply bind_unrecorded; [apply quiet_reads_only, updateWorkspaceStatus_quiet|].
    intros [[?|]|]; try destruct (negb _); by left. }
  apply all_runs_bind. eapply all_runs_impl; [|apply updateCondition_returns_unread].
  intros updated tr1 [Hnone [Hfailed| ->]]; cbn beta.
  - apply all_runs_always. intros t tr2. right. rewrite existsb_app, Hfailed. done.
  - cbn. left. by rewrite app_nil_r.
Qed.

Lemma reconcile_project_unrecorded r project :
  all_runs (fun _ tr => creates_only_unrecorded tr) (reconcile_project ToLower r project).
Proof.
  unfold reconcile_project.
  apply bind_unrecorded; [apply quiet_reads_only, LoadConfigFromCluster_quiet|].
  intros [kcpConfig [err|]]; [apply quiet_unrecorded, record_then_return_quiet|].
  apply bind_unrecorded; [apply quiet_reads_only, NewClient_quiet|].
  intros [kcpClient [err|]]; [apply quiet_unrecorded, record_then_return_quiet|].
  destruct kcpClient as [kcpClient|]; [|by left].
  apply reconcile_workspace_unrecorded.
Qed.

Lemma Reconcile_unrecorded r req :
  all_runs (fun _ tr => creates_only_unrecorded tr) (Reconcile ToLower r req).
Proof.
  unfold Reconcile, mbind, prog_bind, call. cbn [bind all_runs].
  intros [project|err]; cbn [bind].
  - eapply all_runs_impl; [|apply reconcile_project_unrecorded].
    intros r0 tr [H|H]; [left|right]; cbn; done.
  - destruct (IsNotFound err); by left.
Qed.

End CreateReached.

(** C5, at a failing input.  The specification: the workspace operator
    creates one workspace per Project CR, calling CreateWorkspace when the
    query reports the workspace absent.  The code, between the query and
    CreateWorkspace, records the condition "Creating" with updateCondition,
    which panics in unstructured.SetNestedField whenever it could read the
    Project: in every run of Reconcile, whatever the API servers answer, a
    workspace is created only if that read failed.  Against an API server
    that works, with the kcp configuration in place and a kcp that has no
    workspace "demo", the reconcile of the Project "Demo" queries kcp, is
    told that the workspace is absent, and ends in the panic: CreateWorkspace
    is not called and kcp holds no workspace, after this reconcile and
    after the next. *)
Theorem Reconcile_panics_before_create (ToLower : string -> string)
    (r : Controller.ProjectReconciler) (req : Kcp.NamespacedName) :
  (forall (St : Type) (h : Prog.handler Kcp.OperatorE St) (s : St),
     Controller.creates_only_unrecorded
       (Prog.trace_of (Prog.run h (Controller.Reconcile ToLower r req) s))) /\
  let api := Controller.with_kcp (Controller.sample_api true true) in
  let reconcile := Controller.Reconcile_ascii Controller.sample_reconciler
                     Controller.sample_request in
  let o1 := Prog.run api reconcile (tt, []) in
  let o2 := Prog.run api reconcile (Prog.state_of o1) in
  Prog.result_of o1 = Go.Panicked /\
  existsb (Controller.reported_absent "demo") (Prog.trace_of o1) = true /\
  existsb Controller.status_get_failed (Prog.trace_of o1) = false /\
  existsb Controller.is_workspaces_create (Prog.trace_of o1) = false /\
  snd (Prog.state_of o1) = [] /\
  Prog.result_of o2 = Go.Panicked /\
  existsb Controller.is_workspaces_create (Prog.trace_of o2) = false /\
  snd (Prog.state_of o2) = [].
Proof.
  split.
  - intros St h s.
    apply (all_runs_run h (Controller.Reconcile ToLower r req)
             (fun _ tr => Controller.creates_only_unrecorded tr) s).
    apply Reconcile_unrecorded.
  - vm_compute. split_and!; reflexivity.
Qed.
